(** * COMPASS: sequencing of the Sentinel-1 CSLC stage wrappers

    A shallow embedding of the stage wrappers of [src/compass]
    ([s1_cslc], [s1_geo2rdr], [s1_geocode_slc], [s1_geocode_metadata] and
    [utils/lut]) together with the properties of their sequencing.

    The wrappers are glue around an external geometry engine (isce3), a
    burst reader (s1reader), GDAL/HDF5 and the operating system.  Every
    call that leaves the repository is recorded as an event; what the
    outside world answers is supplied by a [Library] record: a fault
    oracle that may make any call raise, plus the few values on which
    the wrappers branch. *)

From stdpp Require Import gmap strings list.
From Stdlib Require Import QArith.

(* stdpp's solvers clear hypotheses that are sometimes already gone *)
#[local] Set Warnings "-clear-no-such-hyp".

Open Scope string_scope.
Open Scope Z_scope.
Open Scope list_scope.

(** ** Data model *)

(** [datetime.datetime]; only the calendar fields reach the wrappers. *)
Record datetime := mk_datetime {
  year : nat; month : nat; day : nat;
  hour : nat; minute : nat; second : nat }.

Definition digit (n : nat) : string :=
  String (Ascii.ascii_of_nat (48 + n mod 10)) EmptyString.

(** [sensing_start.strftime("%Y%m%d")]: four digits of year, two of
    month, two of day. *)
Definition strftime_Ymd (d : datetime) : string :=
  digit (year d / 1000) +:+ digit (year d / 100) +:+
  digit (year d / 10) +:+ digit (year d) +:+
  digit (month d / 10) +:+ digit (month d) +:+
  digit (day d / 10) +:+ digit (day d).

(** [Sentinel1BurstSlc], as far as the wrappers look into it.  The orbit
    and the Doppler LUT are opaque handles of the burst reader. *)
Record Burst := mk_burst {
  burst_id : string;
  sensing_start : datetime;
  polarization : string;
  ipf_version : string;
  first_valid_line : Z; last_valid_line : Z;
  first_valid_sample : Z; last_valid_sample : Z;
  orbit : nat;
  doppler_lut2d : nat }.

(** [isce3.product.GeoGridParameters]; its [length] is [grid_length]
    here, to leave [length] to lists. *)
Record GeoGrid := mk_geogrid {
  start_x : Q; start_y : Q;
  spacing_x : Q; spacing_y : Q;
  width : Z; grid_length : Z;
  epsg : Z }.

Record Geo2RdrParams := mk_geo2rdr_params {
  threshold : Q; numiter : Z; lines_per_block : Z }.

Record Rdr2GeoParams := mk_rdr2geo_params {
  rdr2geo_enabled : bool;
  geocode_metadata_layers : bool;
  compute_longitude : bool;
  compute_latitude : bool;
  compute_height : bool;
  compute_incidence_angle : bool;
  compute_local_incidence_angle : bool;
  compute_azimuth_angle : bool;
  compute_layover_shadow_mask : bool }.

Record SplitSpectrumParams := mk_split_spectrum_params {
  split_spectrum_enabled : bool;
  low_band_bandwidth : Q }.

Record GeocodingParams := mk_geocoding_params {
  flatten : bool;
  output_format : string }.

(** One entry of [cfg.output_paths] *)
Record OutPaths := mk_out_paths {
  output_directory : string;
  scratch_directory : string }.

(** [RunConfig] / [GeoRunConfig], without [geogrids]: the grids are
    objects shared with the engine and live in the mutable [State]. *)
Record RunConfig := mk_cfg {
  dem : string;
  gpu_enabled : bool;
  gpu_id : Z;
  is_reference : bool;
  scratch_path : string;
  product_path : string;
  reference_radar_info_path : string;
  bursts : list Burst;
  geo2rdr_params : Geo2RdrParams;
  rdr2geo_params : Rdr2GeoParams;
  split_spectrum_params : SplitSpectrumParams;
  geocoding_params : GeocodingParams;
  output_paths : gmap (string * string) OutPaths }.

(** [isce3.core.LUT2d] *)
Record LUT2d := mk_lut2d {
  x_start : Q; y_start : Q;
  x_spacing : Q; y_spacing : Q;
  data : list (list Q) }.

(** Handles on engine objects: they only record how they were obtained. *)
Inductive Raster :=
  | RasterAt (path : string)
  | RasterNew (path : string) (w l bands : Z) (fmt : string)
  | RasterH5 (h5 : string) (dataset : string)
  | RasterSplit (b : Burst) (slc_path : string) (scratch : string).

Inductive RadarGrid :=
  | RadarGridOf (b : Burst)
  | RadarGridSlice (g : RadarGrid) (l0 l1 s0 s1 : Z).

Record Geo2RdrObj := mk_geo2rdr_obj {
  g_on_gpu : bool;
  g_radar_grid : RadarGrid;
  g_orbit : nat;
  g_ellipsoid : Z;
  g_threshold : Q; g_numiter : Z; g_blocksize : Z }.

(** ** Exceptions, calls and events *)

Inductive Exn :=
  | ValueError (msg : string)
  | FileNotFoundError (msg : string)
  | TypeError (msg : string)
  | KeyError (key : list string)
  | FileExistsError (path : string)
  | ExtError (code : nat).

(** The stage wrappers of this repository whose source is not at hand;
    they are entered as opaque calls. *)
Inductive Stage := Rdr2geo | Geo2rdr | Resample | GeocodeSlc | GeocodeMetadata.

#[global] Instance Stage_eq_dec : EqDecision Stage.
Proof. solve_decision. Defined.

Inductive Call :=
  (* journal *)
  | JournalLog (channel msg : string)
  (* operating system *)
  | Makedirs (path : string)
  | FileOpen (path mode : string)
  | FileClose (path : string)
  (* isce3.io.Raster and friends *)
  | RasterOpen (path : string)
  | RasterCreate (path : string) (w l bands : Z) (fmt : string)
  | RasterOpenH5 (h5 dataset : string)
  | GetEpsg (r : Raster)
  | NumBands (r : Raster)
  | SetGeotransform (r : Raster) (gt : list Q)
  | SetEpsg (r : Raster) (code : Z)
  | DelRaster (r : Raster)
  | MakeProjection (code : Z)
  (* device selection *)
  | GpuCheck (enabled : bool) (id : Z)
  | CudaDevice (id : Z)
  | CudaSetDevice (id : Z)
  (* burst reader *)
  | AsRadargrid (b : Burst)
  | SliceRadargrid (g : RadarGrid) (l0 l1 s0 s1 : Z)
  | GetAzCarrierPoly (b : Burst)
  | SlcToVrtFile (b : Burst) (path : string)
  | IsEapCorrectionNecessary (ipf : string)
  | BistaticDelay (b : Burst) (rg_step az_step : Q)
  | GeometricalAndSteeringDoppler (b : Burst) (rg_step az_step : Q)
  | AzFmRateMismatchMitigation (b : Burst) (dem_path : string)
      (scratch : option string) (rangeg_step az_step : Q)
  (* geometry engine *)
  | LUT2dDefault
  | LUT2dNew (xs ys dx dy : Q) (d : list (list Q))
  | NpAdd (a b : list (list Q))
  | Geo2RdrInit (o : Geo2RdrObj)
  | Geo2RdrRun (o : Geo2RdrObj) (topo : Raster) (out_dir : string)
  | GeocodeSlcCall (out_raster in_raster dem_raster : Raster)
      (radar_grid sliced : RadarGrid) (g : GeoGrid)
      (orb native_doppler : nat) (ellipsoid : Z)
      (thr : Q) (iters blocksize : Z) (flat : bool)
  | GeocodeInit
  | GeocodeSetAttr (attr : string)
  | GeocodeGeogrid (xs ys dx dy : Q) (w l code : Z)
  | GeocodeRun (radar_grid : RadarGrid) (input output dem_raster : Raster)
      (block_size : Z)
  (* h5py *)
  | H5Open (path mode : string)
  | H5Close (path : string)
  | H5CreateDataset (h5 name dtype : string) (shape : Z * Z)
  | H5SetAttr (h5 name attr value : string)
  (* other modules of this repository *)
  | RunStage (s : Stage) (cfg : RunConfig) (from_scratch : bool)
  | ApplyEapCorrection (b : Burst) (src dst : string)
  | RangeSplitSpectrum (b : Burst) (slc_path : string)
      (p : SplitSpectrumParams) (scratch : string)
  | MetadataFromGeorunconfig (cfg : RunConfig) (id : string)
  | MetadataToFile (path fmt : string).

Inductive Outcome :=
  | Returned
  | Created            (* [os.makedirs] returned after making the directory *)
  | Raised (e : Exn).

Inductive Event := Ev (c : Call) (o : Outcome).

(** ** The world outside *)

Inductive Node := Dir | File.

(** What the wrappers can change or share by reference: the file system
    (paths are identified by their string) and the [geogrids] objects. *)
Record State := mk_state {
  fs : gmap string Node;
  geogrids : gmap string GeoGrid }.

(** [s1reader.s1_reader.is_eap_correction_necessary] returns a namespace. *)
Record EapCheck := mk_eap_check {
  phase_correction : bool;
  magnitude_correction : bool }.

(** Answers of the libraries.  [fault h c] says whether call [c], made
    after the history [h], raises. *)
Record Library := mk_library {
  fault : list Event -> Call -> option nat;
  raster_epsg : Raster -> Z;
  raster_num_bands : Raster -> Z;
  use_gpu : bool -> Z -> bool;
  is_eap_correction_necessary : string -> EapCheck;
  get_module_name : string -> string;
  bistatic_delay : Burst -> Q -> Q -> LUT2d;
  geometrical_and_steering_doppler : Burst -> Q -> Q -> LUT2d;
  az_fm_rate_mismatch_mitigation :
    Burst -> string -> option string -> Q -> Q -> LUT2d;
  np_add : list (list Q) -> list (list Q) -> list (list Q) }.

(** ** The monad of the wrappers: events out, state through, exceptions *)

Record Run (A : Type) := mk_run {
  events : list Event;
  final : State;
  result : Exn + A }.
Arguments mk_run {A} _ _ _.
Arguments events {A} _.
Arguments final {A} _.
Arguments result {A} _.

Definition M (A : Type) : Type := list Event -> State -> Run A.

Definition ret {A} (a : A) : M A := fun _ s => mk_run [] s (inr a).

Definition raise {A} (e : Exn) : M A := fun _ s => mk_run [] s (inl e).

Definition bind {A B} (m : M A) (f : A -> M B) : M B := fun h s =>
  let r := m h s in
  match result r with
  | inl e => mk_run (events r) (final r) (inl e)
  | inr a =>
      let r' := f a (h ++ events r) (final r) in
      mk_run (events r ++ events r') (final r') (result r')
  end.

Notation "x <- m ;; k" := (bind m (fun x => k))
  (at level 100, m at next level, right associativity).
Notation "m ;; k" := (bind m (fun _ => k))
  (at level 100, right associativity).

Definition returned {A} (r : Run A) : Prop := exists a, result r = inr a.

(** [for x in xs: body], with the variables the body assigns carried from
    one turn to the next in [acc]. *)
Fixpoint for_in {X S} (xs : list X) (body : S -> X -> M S) (acc : S) : M S :=
  match xs with
  | [] => ret acc
  | x :: rest => acc' <- body acc x ;; for_in rest body acc'
  end.

Section Wrappers.
Context (L : Library).

(** An external call answering [v] unless the oracle makes it raise.  The
    state follows what the wrappers do themselves; what a library writes
    on its own account (the scratch or temporary files of the FM rate
    mismatch, the rasters of the engine) is not entered in it. *)
Definition call {A} (c : Call) (v : A) : M A := fun h s =>
  match fault L h c with
  | Some n => mk_run [Ev c (Raised (ExtError n))] s (inl (ExtError n))
  | None => mk_run [Ev c Returned] s (inr v)
  end.

(** [os.makedirs(path, exist_ok=True)] *)
Definition makedirs (path : string) : M unit := fun h s =>
  match fault L h (Makedirs path) with
  | Some n =>
      mk_run [Ev (Makedirs path) (Raised (ExtError n))] s (inl (ExtError n))
  | None =>
      match fs s !! path with
      | Some Dir => mk_run [Ev (Makedirs path) Returned] s (inr tt)
      | Some File =>
          mk_run [Ev (Makedirs path) (Raised (FileExistsError path))] s
                 (inl (FileExistsError path))
      | None =>
          mk_run [Ev (Makedirs path) Created]
                 (mk_state (<[path := Dir]> (fs s)) (geogrids s)) (inr tt)
      end
  end.

(** [os.path.exists(path)] *)
Definition path_exists (path : string) : M bool := fun _ s =>
  mk_run [] s (inr (bool_decide (is_Some (fs s !! path)))).

(** [cfg.geogrids[burst_id]] *)
Definition lookup_geogrid (id : string) : M GeoGrid := fun _ s =>
  match geogrids s !! id with
  | Some g => mk_run [] s (inr g)
  | None => mk_run [] s (inl (KeyError [id]))
  end.

(** [with open_ as x: body]: the handle is closed on the way out, whether
    the body returns or raises, and the body's exception goes on.  Closing
    is taken not to fail.  Whether the opening succeeds is the answer of
    the library, as for any call: the state is not asked for the directory
    of the file. *)
Definition with_ {A} (open_ close_ : Call) (body : M A) : M A := fun h s =>
  let r := call open_ tt h s in
  match result r with
  | inl e => mk_run (events r) (final r) (inl e)
  | inr _ =>
      let r' := body (h ++ events r) (final r) in
      mk_run (events r ++ events r' ++ [Ev close_ Returned])
             (final r') (result r')
  end.

Definition journal_log (channel msg : string) : M unit :=
  call (JournalLog channel msg) tt.

Definition raster_open (path : string) : M Raster :=
  call (RasterOpen path) (RasterAt path).

Definition as_isce3_radargrid (b : Burst) : M RadarGrid :=
  call (AsRadargrid b) (RadarGridOf b).

(** ** s1_geo2rdr.py *)

Definition id_date_of (b : Burst) : string * string :=
  (burst_id b, strftime_Ymd (sensing_start b)).

(** The body of [for burst in cfg.bursts]; it returns the updated
    [id_dates_processed]. *)
Definition geo2rdr_burst (cfg : RunConfig) (on_gpu : bool) (ellipsoid : Z)
    (threshold : Q) (iters blocksize : Z)
    (id_dates_processed : list (string * string)) (burst : Burst)
  : M (list (string * string)) :=
  let burst_id := burst_id burst in
  let date_str := strftime_Ymd (sensing_start burst) in
  let id_date := (burst_id, date_str) in
  let top_output_path := scratch_path cfg +:+ "/" +:+ burst_id in
  makedirs top_output_path ;;
  if bool_decide (id_date ∈ id_dates_processed) then
    ret id_dates_processed
  else
    let id_dates_processed := id_dates_processed ++ [id_date] in
    let ref_burst_path := reference_radar_info_path cfg in
    topo_raster <- raster_open (ref_burst_path +:+ "/topo.vrt") ;;
    let burst_output_path := top_output_path +:+ "/" +:+ date_str in
    makedirs burst_output_path ;;
    rdr_grid <- as_isce3_radargrid burst ;;
    let orbit := orbit burst in
    call LUT2dDefault tt ;;
    let o := mk_geo2rdr_obj on_gpu rdr_grid orbit ellipsoid
                            threshold iters blocksize in
    geo2rdr_obj <- call (Geo2RdrInit o) o ;;
    call (Geo2RdrRun geo2rdr_obj topo_raster burst_output_path) tt ;;
    ret id_dates_processed.

(** [s1_geo2rdr.run(cfg)].  The wall-clock bookkeeping ([time.time()],
    the elapsed time in the last message) is left out. *)
Definition s1_geo2rdr_run (cfg : RunConfig) : M unit :=
  journal_log "s1_geo2rdr.run" "Starting s1_geo2rdr burst" ;;
  dem_raster <- raster_open (dem cfg) ;;
  epsg <- call (GetEpsg dem_raster) (raster_epsg L dem_raster) ;;
  call (MakeProjection epsg) tt ;;
  let ellipsoid := epsg in
  use_gpu <- call (GpuCheck (gpu_enabled cfg) (gpu_id cfg))
                  (use_gpu L (gpu_enabled cfg) (gpu_id cfg)) ;;
  (if use_gpu : bool then
     call (CudaDevice (gpu_id cfg)) tt ;;
     call (CudaSetDevice (gpu_id cfg)) tt
   else ret tt) ;;
  let threshold := threshold (geo2rdr_params cfg) in
  let iters := numiter (geo2rdr_params cfg) in
  let blocksize := lines_per_block (geo2rdr_params cfg) in
  for_in (bursts cfg)
         (geo2rdr_burst cfg use_gpu ellipsoid threshold iters blocksize) [] ;;
  journal_log "s1_geo2rdr.run" "s1_geo2rdr burst successfully ran".

(** ** s1_cslc.py *)

Definition s1_cslc_run (cfg : RunConfig) : M unit :=
  if is_reference cfg then
    call (RunStage Rdr2geo cfg false) tt
  else
    s1_geo2rdr_run cfg ;;
    call (RunStage Resample cfg false) tt.

(** ** s1_geocode_metadata.py *)

(** One turn of [for layer_name, enabled in meta_layers.items()] *)
Definition geocode_layer (topo_h5 input_path : string) (radar_grid : RadarGrid)
    (dem_raster : Raster) (block_size : Z) (shape : Z * Z)
    (geotransform : list Q) (output_epsg : Z)
    (layer : string * bool) : M unit :=
  let '(layer_name, enabled) := layer in
  if negb enabled then ret tt
  else
    dtype <- (if bool_decide (layer_name = "layover_shadow_mask") then
                call (GeocodeSetAttr "data_interpolator") tt ;;
                ret "byte"
              else ret "single") ;;
    call (H5CreateDataset topo_h5 layer_name dtype shape) tt ;;
    call (H5SetAttr topo_h5 layer_name "description" layer_name) tt ;;
    output_raster <- call (RasterOpenH5 topo_h5 layer_name)
                          (RasterH5 topo_h5 layer_name) ;;
    input_raster <- raster_open (input_path +:+ "/" +:+ layer_name +:+ ".rdr") ;;
    call (GeocodeRun radar_grid input_raster output_raster dem_raster
                     block_size) tt ;;
    call (SetGeotransform output_raster geotransform) tt ;;
    call (SetEpsg output_raster output_epsg) tt ;;
    call (DelRaster input_raster) tt ;;
    call (DelRaster output_raster) tt.

(** The dict [meta_layers], in the order it is written and iterated. *)
Definition meta_layers (cfg : RunConfig) : list (string * bool) :=
  [ ("x", compute_longitude (rdr2geo_params cfg));
    ("y", compute_latitude (rdr2geo_params cfg));
    ("z", compute_height (rdr2geo_params cfg));
    ("incidence", compute_incidence_angle (rdr2geo_params cfg));
    ("local_incidence", compute_local_incidence_angle (rdr2geo_params cfg));
    ("heading", compute_azimuth_angle (rdr2geo_params cfg));
    ("layover_shadow_mask", compute_layover_shadow_mask (rdr2geo_params cfg)) ].

(** [cfg.output_paths[burst_id_date_key]] *)
Definition lookup_output_paths (cfg : RunConfig) (key : string * string)
  : M OutPaths :=
  match output_paths cfg !! key with
  | Some p => ret p
  | None => raise (KeyError [key.1; key.2])
  end.

(** [s1_geocode_metadata.run(cfg, burst, fetch_from_scratch=False)] *)
Definition s1_geocode_metadata_run (cfg : RunConfig) (burst : Burst)
    (fetch_from_scratch : bool) : M unit :=
  let module_name := get_module_name L "s1_geocode_metadata.py" in
  journal_log (module_name +:+ ".run")
              ("Starting " +:+ module_name +:+ " burst") ;;
  dem_raster <- raster_open (dem cfg) ;;
  (* the local [epsg] of the source; [epsg] is the field of the grid here *)
  dem_epsg <- call (GetEpsg dem_raster) (raster_epsg L dem_raster) ;;
  call (MakeProjection dem_epsg) tt ;;
  call LUT2dDefault tt ;;
  let threshold := threshold (geo2rdr_params cfg) in
  let iters := numiter (geo2rdr_params cfg) in
  let lines_per_block := lines_per_block (geo2rdr_params cfg) in
  let date_str := strftime_Ymd (sensing_start burst) in
  let burst_id := burst_id burst in
  geo_grid <- lookup_geogrid burst_id ;;
  let output_epsg := epsg geo_grid in
  radar_grid <- as_isce3_radargrid burst ;;
  let burst_id_date_key := (burst_id, date_str) in
  out_paths <- lookup_output_paths cfg burst_id_date_key ;;
  let input_path := if fetch_from_scratch then scratch_directory out_paths
                    else output_directory out_paths in
  call GeocodeInit tt ;;
  call (GeocodeSetAttr "orbit") tt ;;
  call (GeocodeSetAttr "ellipsoid") tt ;;
  call (GeocodeSetAttr "doppler") tt ;;
  call (GeocodeSetAttr "threshold_geo2rdr") tt ;;
  call (GeocodeSetAttr "numiter_geo2rdr") tt ;;
  let float_bytes := 4 in
  let block_size := lines_per_block * width geo_grid * float_bytes in
  call (GeocodeGeogrid (start_x geo_grid) (start_y geo_grid)
          (spacing_x geo_grid) (spacing_y geo_grid)
          (width geo_grid) (grid_length geo_grid)
          (epsg geo_grid)) tt ;;
  let geotransform := [start_x geo_grid; spacing_x geo_grid; 0%Q;
                       start_y geo_grid; 0%Q; spacing_y geo_grid] in
  let out_h5 := output_directory out_paths +:+ "/topo.h5" in
  let shape := (grid_length geo_grid, width geo_grid) in
  with_ (H5Open out_h5 "w") (H5Close out_h5)
    (for_in (meta_layers cfg)
            (fun _ => geocode_layer out_h5 input_path radar_grid dem_raster
                        block_size shape geotransform output_epsg) tt) ;;
  journal_log (module_name +:+ ".run")
              (module_name +:+ " burst successfully ran").

(** How Python binds the arguments of a call of
    [s1_geocode_metadata.run]: [burst] has no default, and a call that
    leaves it out raises before the body runs. *)
Definition call_s1_geocode_metadata_run (cfg : RunConfig)
    (burst : option Burst) (fetch_from_scratch : bool) : M unit :=
  match burst with
  | Some b => s1_geocode_metadata_run cfg b fetch_from_scratch
  | None =>
      raise (TypeError "run() missing 1 required positional argument: 'burst'")
  end.

(** ** s1_geocode_slc.py *)

(** [s.replace(old, new)] for a non-empty [old]: [skip] characters of a
    match just replaced are still to be dropped. *)
Fixpoint replace_from (old new : string) (skip : nat) (s : string) : string :=
  match s with
  | EmptyString => EmptyString
  | String c s' =>
      match skip with
      | S k => replace_from old new k s'
      | O =>
          if String.prefix old s then
            new +:+ replace_from old new (String.length old - 1) s'
          else String c (replace_from old new 0 s')
      end
  end.

Definition py_replace (s old new : string) : string :=
  replace_from old new 0 s.

(** The body of [for burst in cfg.bursts] *)
Definition geocode_slc_burst (cfg : RunConfig) (threshold : Q)
    (iters blocksize : Z) (flatten : bool) (burst : Burst) : M unit :=
  dem_raster <- raster_open (dem cfg) ;;
  epsg <- call (GetEpsg dem_raster) (raster_epsg L dem_raster) ;;
  call (MakeProjection epsg) tt ;;
  let ellipsoid := epsg in
  let date_str := strftime_Ymd (sensing_start burst) in
  let burst_id := burst_id burst in
  let pol := polarization burst in
  let id_pol := burst_id +:+ "_" +:+ pol in
  geo_grid <- lookup_geogrid burst_id ;;
  let burst_output_path :=
    product_path cfg +:+ "/" +:+ burst_id +:+ "/" +:+ date_str in
  makedirs burst_output_path ;;
  let scratch_path :=
    scratch_path cfg +:+ "/" +:+ burst_id +:+ "/" +:+ date_str in
  makedirs scratch_path ;;
  radar_grid <- as_isce3_radargrid burst ;;
  let native_doppler := doppler_lut2d burst in
  let orbit := orbit burst in
  call (GetAzCarrierPoly burst) tt ;;
  (if rdr2geo_enabled (rdr2geo_params cfg) then
     call (RunStage Rdr2geo cfg true) tt ;;
     if geocode_metadata_layers (rdr2geo_params cfg) then
       call_s1_geocode_metadata_run cfg None true
     else ret tt
   else ret tt) ;;
  let temp_slc_path := scratch_path +:+ "/" +:+ id_pol +:+ "_temp.vrt" in
  call (SlcToVrtFile burst temp_slc_path) tt ;;
  check_eap <- call (IsEapCorrectionNecessary (ipf_version burst))
                    (is_eap_correction_necessary L (ipf_version burst)) ;;
  temp_slc_path <-
    (if phase_correction check_eap then
       let temp_slc_path_corrected :=
         py_replace temp_slc_path "_temp.vrt" "_corrected_temp.rdr" in
       call (ApplyEapCorrection burst temp_slc_path temp_slc_path_corrected)
            tt ;;
       ret temp_slc_path_corrected
     else ret temp_slc_path) ;;
  rdr_burst_raster <-
    (if split_spectrum_enabled (split_spectrum_params cfg) then
       call (RangeSplitSpectrum burst temp_slc_path
               (split_spectrum_params cfg) scratch_path)
            (RasterSplit burst temp_slc_path scratch_path)
     else raster_open temp_slc_path) ;;
  num_bands <- call (NumBands rdr_burst_raster)
                    (raster_num_bands L rdr_burst_raster) ;;
  let slc_path := burst_output_path +:+ "/" +:+ id_pol +:+ ".slc" in
  geo_burst_raster <-
    call (RasterCreate slc_path (width geo_grid) (grid_length geo_grid)
            num_bands (output_format (geocoding_params cfg)))
         (RasterNew slc_path (width geo_grid) (grid_length geo_grid)
            num_bands (output_format (geocoding_params cfg))) ;;
  grid <- as_isce3_radargrid burst ;;
  sliced_radar_grid <-
    call (SliceRadargrid grid (first_valid_line burst) (last_valid_line burst)
            (first_valid_sample burst) (last_valid_sample burst))
         (RadarGridSlice grid (first_valid_line burst) (last_valid_line burst)
            (first_valid_sample burst) (last_valid_sample burst)) ;;
  call (GeocodeSlcCall geo_burst_raster rdr_burst_raster dem_raster
          radar_grid sliced_radar_grid geo_grid orbit native_doppler
          ellipsoid threshold iters blocksize flatten) tt ;;
  let geotransform := [start_x geo_grid; spacing_x geo_grid; 0%Q;
                       start_y geo_grid; 0%Q; spacing_y geo_grid] in
  call (SetGeotransform geo_burst_raster geotransform) tt ;;
  call (SetEpsg geo_burst_raster epsg) tt ;;
  call (DelRaster geo_burst_raster) tt ;;
  call (DelRaster dem_raster) tt ;;
  call (MetadataFromGeorunconfig cfg burst_id) tt ;;
  let json_path := burst_output_path +:+ "/" +:+ id_pol +:+ ".json" in
  with_ (FileOpen json_path "w") (FileClose json_path)
    (call (MetadataToFile json_path "json") tt).

(** [s1_geocode_slc.run(cfg)] *)
Definition s1_geocode_slc_run (cfg : RunConfig) : M unit :=
  let module_name := get_module_name L "s1_geocode_slc.py" in
  journal_log (module_name +:+ ".run")
              ("Starting " +:+ module_name +:+ " burst") ;;
  call LUT2dDefault tt ;;
  let threshold := threshold (geo2rdr_params cfg) in
  let iters := numiter (geo2rdr_params cfg) in
  let blocksize := lines_per_block (geo2rdr_params cfg) in
  let flatten := flatten (geocoding_params cfg) in
  for_in (bursts cfg)
         (fun _ => geocode_slc_burst cfg threshold iters blocksize flatten)
         tt ;;
  journal_log (module_name +:+ ".run")
              (module_name +:+ " burst successfully ran").

(** ** utils/lut.py *)

Definition default_rg_step : Q := 200.
Definition default_az_step : Q := 1 # 4.

(** [compute_geocoding_correction_luts(burst, rg_step, az_step,
    dem_path, scratch_path)]; [None] for an argument left at its default
    [None]. *)
Definition compute_geocoding_correction_luts (burst : Burst)
    (rg_step az_step : Q) (dem_path scratch_path : option string)
  : M (LUT2d * LUT2d) :=
  az_lut <- call (BistaticDelay burst rg_step az_step)
                 (bistatic_delay L burst rg_step az_step) ;;
  rg_lut <- call (GeometricalAndSteeringDoppler burst rg_step az_step)
                 (geometrical_and_steering_doppler L burst rg_step az_step) ;;
  match dem_path with
  | None =>
      raise (ValueError "DEM for azimith FM rate mismatch was not provided.")
  | Some dem_path =>
      found <- path_exists dem_path ;;
      if found : bool then
        raise (FileNotFoundError ("Cannot find the dem file: " +:+ dem_path))
      else
        az_fm_mismatch <-
          call (AzFmRateMismatchMitigation burst dem_path scratch_path
                  rg_step az_step)
               (az_fm_rate_mismatch_mitigation L burst dem_path scratch_path
                  rg_step az_step) ;;
        az_lut_data <- call (NpAdd (data az_lut) (data az_fm_mismatch))
                            (np_add L (data az_lut) (data az_fm_mismatch)) ;;
        az_lut <- call (LUT2dNew (x_start az_lut) (y_start az_lut)
                          (x_spacing az_lut) (x_spacing az_lut) az_lut_data)
                       (mk_lut2d (x_start az_lut) (y_start az_lut)
                          (x_spacing az_lut) (x_spacing az_lut) az_lut_data) ;;
        ret (rg_lut, az_lut)
  end.

End Wrappers.

(** ** Observations on runs *)

(** The number of events of a run that [f] selects. *)
Fixpoint count (f : Event -> bool) (evs : list Event) : nat :=
  match evs with
  | [] => 0
  | ev :: evs => (if f ev then 1 else 0) + count f evs
  end.

(** The three ways [os.makedirs(path, exist_ok=True)] can go when the
    operating system does not fail, told from the state it starts in:
    the path is a regular file (it raises), the outcome otherwise, and
    the state it leaves. *)
Definition is_file (s : State) (path : string) : bool :=
  match fs s !! path with Some File => true | _ => false end.

Definition makedirs_outcome (s : State) (path : string) : Outcome :=
  match fs s !! path with None => Created | _ => Returned end.

Definition ensure_dir (s : State) (path : string) : State :=
  match fs s !! path with
  | None => mk_state (<[path := Dir]> (fs s)) (geogrids s)
  | _ => s
  end.

(** A run with one more event in front, with a last event behind, with
    events in front. *)
Definition econs {A} (ev : Event) (r : Run A) : Run A :=
  mk_run (ev :: events r) (final r) (result r).

Definition esnoc {A} (r : Run A) (ev : Event) : Run A :=
  mk_run (events r ++ [ev]) (final r) (result r).

Definition eapp {A} (evs : list Event) (r : Run A) : Run A :=
  mk_run (evs ++ events r) (final r) (result r).

(** *** Predicates on the computations of the wrappers *)

(** Every event of every run satisfies [Q]. *)
Definition emits {A} (Q : Event -> Prop) (m : M A) : Prop :=
  forall h s, Forall Q (events (m h s)).

(** The projection [g] of the events of any run that returns is [l]. *)
Definition traced {A X} (g : Event -> list X) (l : list X)
    (m : M A) : Prop :=
  forall h s, returned (m h s) -> flat_map g (events (m h s)) = l.

(** [f] selects at most [n] events of any run, and [n] of one that
    returns. *)
Definition counted {A} (f : Event -> bool) (n : nat)
    (m : M A) : Prop :=
  forall h s, (count f (events (m h s)) <= n)%nat /\
              (returned (m h s) -> count f (events (m h s)) = n).

(** *** Exceptions *)

(** The call of the event returned. *)
Definition not_raised (ev : Event) : Prop :=
  match ev with Ev _ (Raised _) => False | _ => True end.

(** The events by which a [with] statement lets go of its handle. *)
Definition closing (ev : Event) : Prop :=
  match ev with
  | Ev c Returned =>
      match c with H5Close _ | FileClose _ => True | _ => False end
  | _ => False
  end.

(** The exceptions the wrappers raise themselves. *)
Definition own_exn (e : Exn) : Prop :=
  match e with
  | ValueError _ | FileNotFoundError _ | TypeError _ | KeyError _ => True
  | FileExistsError _ | ExtError _ => False
  end.

(** The three shapes of a run: it returned and no call raised; it raised
    an exception of its own and no call raised; or a call raised [e],
    only handles were closed after it, and the run raised [e]. *)
Inductive propagated {A} : list Event -> Exn + A -> Prop :=
  | propagated_returned evs a :
      Forall not_raised evs -> propagated evs (inr a)
  | propagated_own evs e :
      Forall not_raised evs -> own_exn e -> propagated evs (inl e)
  | propagated_ext evs c e cl :
      Forall not_raised evs -> Forall closing cl ->
      propagated (evs ++ Ev c (Raised e) :: cl) (inl e).

(** Call number [i] of the run is [c] and raised [e]. *)
Definition raised_at {A} (r : Run A) (i : nat) (c : Call) (e : Exn) : Prop :=
  events r !! i = Some (Ev c (Raised e)).

(** The run raised [e]; every call before number [i] returned and only
    handles were closed after it. *)
Definition stops_at {A} (r : Run A) (i : nat) (e : Exn) : Prop :=
  result r = inl e /\
  (forall j ev, (j < i)%nat -> events r !! j = Some ev -> not_raised ev) /\
  (forall j ev, (i < j)%nat -> events r !! j = Some ev -> closing ev).

(** The run raised [e] and call number [i] was its last. *)
Definition ends_at {A} (r : Run A) (i : nat) (e : Exn) : Prop :=
  result r = inl e /\ length (events r) = S i.

(** The exception a run raises is one of the wrapper's own, no call
    having raised, or the very exception some call raised. *)
Definition error_source {A} (r : Run A) : Prop :=
  forall e, result r = inl e ->
    (own_exn e /\ Forall not_raised (events r)) \/
    (exists i c, raised_at r i c e).

(** Every run of [m] has one of the three shapes. *)
Definition propagates {A} (m : M A) : Prop :=
  forall h s, propagated (events (m h s)) (result (m h s)).

(** *** The frame *)

(** The event is an [os.makedirs] that made the directory [p]. *)
Definition is_created (p : string) (ev : Event) : bool :=
  match ev with
  | Ev (Makedirs q) Created => bool_decide (q = p)
  | _ => false
  end.

(** From [s] to [s'] through [evs]: the grids are the same, and each
    path either was not made and is what it was, or did not exist, was
    made once and is a directory. *)
Definition tracked (s : State) (evs : list Event) (s' : State) : Prop :=
  geogrids s' = geogrids s /\
  forall p,
    (count (is_created p) evs = 0%nat /\ fs s' !! p = fs s !! p) \/
    (count (is_created p) evs = 1%nat /\
     fs s !! p = None /\ fs s' !! p = Some Dir).

Definition frames {A} (m : M A) : Prop :=
  forall h s, tracked s (events (m h s)) (final (m h s)).

(** Every event of a run satisfies [Q] of the grids the run started
    with, and the run leaves these grids as they were. *)
Definition reads {A} (Q : gmap string GeoGrid -> Event -> Prop) (m : M A)
  : Prop :=
  forall h s, Forall (Q (geogrids s)) (events (m h s)) /\
              geogrids (final (m h s)) = geogrids s.

(** A run that returns leaves the directory [p] behind. *)
Definition ensures {A} (p : string) (m : M A) : Prop :=
  forall h s, returned (m h s) -> fs (final (m h s)) !! p = Some Dir.

(** *** The engine *)

(** The burst a radar grid was taken from. *)
Fixpoint grid_burst (g : RadarGrid) : Burst :=
  match g with
  | RadarGridOf b => b
  | RadarGridSlice g _ _ _ _ => grid_burst g
  end.

(** The (burst id, date) pair an engine object was built for. *)
Definition obj_id_date (o : Geo2RdrObj) : string * string :=
  id_date_of (grid_burst (g_radar_grid o)).

(** The event enters the stage [st] of another module. *)
Definition is_stage (st : Stage) (ev : Event) : bool :=
  match ev with
  | Ev (RunStage st' _ _) _ => bool_decide (st' = st)
  | _ => false
  end.

Definition is_az_fm_rate_mismatch (ev : Event) : bool :=
  match ev with
  | Ev (AzFmRateMismatchMitigation _ _ _ _ _) _ => true
  | _ => false
  end.

(** The construction, and the invocation, of the geo2rdr engine for the
    pair [p]. *)
Definition is_geo2rdr_init (p : string * string) (ev : Event) : bool :=
  match ev with
  | Ev (Geo2RdrInit o) _ => bool_decide (obj_id_date o = p)
  | _ => false
  end.

Definition is_geo2rdr_run (p : string * string) (ev : Event) : bool :=
  match ev with
  | Ev (Geo2RdrRun o _ _) _ => bool_decide (obj_id_date o = p)
  | _ => false
  end.

(** The radar grid on which [geocode_slc], or the [geocode] method, is
    called. *)
Definition geocode_slc_grid (ev : Event) : list RadarGrid :=
  match ev with
  | Ev (GeocodeSlcCall _ _ _ radar_grid _ _ _ _ _ _ _ _ _) _ => [radar_grid]
  | _ => []
  end.

Definition geocode_run_grid (ev : Event) : list RadarGrid :=
  match ev with
  | Ev (GeocodeRun radar_grid _ _ _ _) _ => [radar_grid]
  | _ => []
  end.

Definition is_geocode_init (ev : Event) : bool :=
  match ev with Ev GeocodeInit _ => true | _ => false end.

(** The (burst id, date) pair for which an event invokes the engine. *)
Definition engine_pair (ev : Event) : option (string * string) :=
  match ev with
  | Ev (Geo2RdrRun o _ _) _ => Some (obj_id_date o)
  | Ev (GeocodeSlcCall _ _ _ radar_grid _ _ _ _ _ _ _ _ _) _ =>
      Some (id_date_of (grid_burst radar_grid))
  | Ev (GeocodeRun radar_grid _ _ _ _) _ =>
      Some (id_date_of (grid_burst radar_grid))
  | _ => None
  end.

Definition is_engine_call (p : string * string) (ev : Event) : bool :=
  match engine_pair ev with
  | Some q => bool_decide (q = p)
  | None => false
  end.

(** The construction of an engine object. *)
Definition is_engine_init (ev : Event) : bool :=
  match ev with
  | Ev (Geo2RdrInit _) _ | Ev GeocodeInit _ => true
  | _ => false
  end.

(** Two claims about the engine, as they are worded: every stage
    invokes the engine at most once for a (burst id, date) pair; every
    stage invokes it exactly once for each pair of the configured
    bursts. *)
Definition at_most_once_per_pair (evs : list Event) : Prop :=
  forall p, (count (is_engine_call p) evs <= 1)%nat.

Definition one_engine_call_per_pair (cfg : RunConfig) (evs : list Event)
  : Prop :=
  forall p, p ∈ map id_date_of (bursts cfg) ->
            count (is_engine_call p) evs = 1%nat.

(** What the engine is told of a grid is what the grids [G] hold for the
    burst: the grid handed to [geocode_slc] is the one stored for the
    burst of its radar grid, the raster made for it has its width and
    length; the numbers handed to the [geogrid] method are the fields of
    the grid stored for [id]. *)
Definition grid_as_stored (id : string) (G : gmap string GeoGrid)
    (ev : Event) : Prop :=
  match ev with
  | Ev (GeocodeSlcCall out_raster _ _ radar_grid _ g _ _ _ _ _ _ _) _ =>
      G !! burst_id (grid_burst radar_grid) = Some g /\
      exists path bands fmt,
        out_raster = RasterNew path (width g) (grid_length g) bands fmt
  | Ev (GeocodeGeogrid xs ys dx dy w l code) _ =>
      exists g, G !! id = Some g /\
        (xs, ys, dx, dy) = (start_x g, start_y g, spacing_x g, spacing_y g) /\
        (w, l, code) = (width g, grid_length g, epsg g)
  | _ => True
  end.

(** *** Output paths *)

(** The directories a stage makes for a burst: those of
    [s1_geo2rdr.run], then those of [s1_geocode_slc.run]. *)
Definition top_output_path (cfg : RunConfig) (b : Burst) : string :=
  scratch_path cfg +:+ "/" +:+ burst_id b.

Definition burst_output_path (cfg : RunConfig) (b : Burst) : string :=
  top_output_path cfg b +:+ "/" +:+ strftime_Ymd (sensing_start b).

Definition product_dir (cfg : RunConfig) (b : Burst) : string :=
  product_path cfg +:+ "/" +:+ burst_id b +:+ "/" +:+
  strftime_Ymd (sensing_start b).

Definition scratch_dir (cfg : RunConfig) (b : Burst) : string :=
  scratch_path cfg +:+ "/" +:+ burst_id b +:+ "/" +:+
  strftime_Ymd (sensing_start b).

(** The paths a wrapper asks the outside to create or to write. *)
Definition written (ev : Event) : list string :=
  match ev with
  | Ev c _ =>
      match c with
      | Makedirs p => [p]
      | Geo2RdrRun _ _ out_dir => [out_dir]
      | SlcToVrtFile _ p => [p]
      | ApplyEapCorrection _ _ dst => [dst]
      | RasterCreate p _ _ _ _ => [p]
      | FileOpen p _ => [p]
      | H5Open p _ => [p]
      | _ => []
      end
  end.

(** Among them, the directories and the files of the product. *)
Definition delivered (ev : Event) : list string :=
  match ev with
  | Ev c _ =>
      match c with
      | Makedirs p => [p]
      | RasterCreate p _ _ _ _ => [p]
      | FileOpen p _ => [p]
      | _ => []
      end
  end.

(** What identifies a burst: id, date string, polarization. *)
Definition identity (b : Burst) : string * string * string :=
  (burst_id b, strftime_Ymd (sensing_start b), polarization b).

(** The paths of [s1_geo2rdr.run], from the scratch path and the
    (burst id, date) pairs of the bursts, in order. *)
Fixpoint geo2rdr_paths (scratch : string) (ids : list (string * string))
    (processed : list (string * string)) : list string :=
  match ids with
  | [] => []
  | id_date :: rest =>
      let top := scratch +:+ "/" +:+ id_date.1 in
      if bool_decide (id_date ∈ processed) then
        top :: geo2rdr_paths scratch rest processed
      else
        top :: (top +:+ "/" +:+ id_date.2) :: (top +:+ "/" +:+ id_date.2)
            :: geo2rdr_paths scratch rest (processed ++ [id_date])
  end.

(** The paths of one burst of [s1_geocode_slc.run], from the scratch and
    product paths and the identity of the burst; [eap] tells whether the
    antenna pattern correction writes its intermediate file. *)
Definition slc_burst_paths (scratch product : string)
    (ident : string * string * string) (eap : bool) : list string :=
  let '(id, date, pol) := ident in
  let out := product +:+ "/" +:+ id +:+ "/" +:+ date in
  let scr := scratch +:+ "/" +:+ id +:+ "/" +:+ date in
  let id_pol := id +:+ "_" +:+ pol in
  let temp := scr +:+ "/" +:+ id_pol +:+ "_temp.vrt" in
  [out; scr; temp] ++
  (if eap then [py_replace temp "_temp.vrt" "_corrected_temp.rdr"] else []) ++
  [out +:+ "/" +:+ id_pol +:+ ".slc"; out +:+ "/" +:+ id_pol +:+ ".json"].

Definition slc_burst_delivered (scratch product : string)
    (ident : string * string * string) : list string :=
  let '(id, date, pol) := ident in
  let out := product +:+ "/" +:+ id +:+ "/" +:+ date in
  let scr := scratch +:+ "/" +:+ id +:+ "/" +:+ date in
  let id_pol := id +:+ "_" +:+ pol in
  [out; scr; out +:+ "/" +:+ id_pol +:+ ".slc";
   out +:+ "/" +:+ id_pol +:+ ".json"].

(** The directories of one burst of [s1_geo2rdr.run]. *)
Definition geo2rdr_dirs (scratch : string)
    (ident : string * string * string) : list string :=
  let '(id, date, _) := ident in
  [scratch +:+ "/" +:+ id; (scratch +:+ "/" +:+ id) +:+ "/" +:+ date].

(** What the projections above make of one event is found by unfolding
    and computing. *)
Create HintDb trace.

#[global] Hint Unfold is_engine_call geo2rdr_dirs slc_burst_paths
  slc_burst_delivered identity : trace.

(** ** Sample worlds *)

(** A library in which nothing fails, two polarizations of one burst, a
    secondary and a reference configuration for them, and a state in
    which only the DEM exists. *)
Definition sample_library : Library :=
  mk_library (fun _ _ => None) (fun _ => 32611) (fun _ => 1)
    (fun _ _ => false) (fun _ => mk_eap_check false false)
    (fun file => String.substring 0 (String.length file - 3) file)
    (fun _ _ _ => mk_lut2d 0 0 (1 # 2) 3 [[1%Q]])
    (fun _ _ _ => mk_lut2d 0 0 1 1 [[2%Q]])
    (fun _ _ _ _ _ => mk_lut2d 0 0 1 1 [[4%Q]])
    (fun a _ => a).

Definition sample_start : datetime := mk_datetime 2022 1 5 10 30 0.

Definition burst_vv : Burst :=
  mk_burst "t071_151200_iw1" sample_start "VV" "003.31" 0 10 0 20 1 1.

Definition burst_vh : Burst :=
  mk_burst "t071_151200_iw1" sample_start "VH" "003.31" 0 10 0 20 1 1.

Definition sample_cfg : RunConfig :=
  mk_cfg "dem.tif" false 0 false "scratch" "product" "reference"
    [burst_vv; burst_vh]
    (mk_geo2rdr_params (1 # 100000000) 25 1000)
    (mk_rdr2geo_params false false true true true true true true true)
    (mk_split_spectrum_params false 0)
    (mk_geocoding_params true "ENVI")
    {[ ("t071_151200_iw1", "20220105") :=
         mk_out_paths "product/t071_151200_iw1/20220105"
                      "scratch/t071_151200_iw1/20220105" ]}.

Definition sample_reference_cfg : RunConfig :=
  mk_cfg "dem.tif" false 0 true "scratch" "product" "reference"
    [burst_vv; burst_vh]
    (mk_geo2rdr_params (1 # 100000000) 25 1000)
    (mk_rdr2geo_params true false true true true true true true true)
    (mk_split_spectrum_params false 0)
    (mk_geocoding_params true "ENVI") ∅.

Definition sample_state : State :=
  mk_state {[ "dem.tif" := File ]}
           {[ "t071_151200_iw1" := mk_geogrid 0 0 5 (-10) 100 50 32611 ]}.

(** A second world for the sample bursts: another library, another DEM,
    other engine parameters, other orbits and valid regions; only the
    scratch and product paths and the identities of the bursts are those
    of [sample_cfg]. *)
Definition other_library : Library :=
  mk_library (fun _ _ => None) (fun _ => 4326) (fun _ => 2)
    (fun _ _ => true) (fun _ => mk_eap_check false true)
    (fun _ => "geocode")
    (bistatic_delay sample_library)
    (geometrical_and_steering_doppler sample_library)
    (az_fm_rate_mismatch_mitigation sample_library) (np_add sample_library).

Definition other_cfg : RunConfig :=
  mk_cfg "other_dem.vrt" true 1 false "scratch" "product" "elsewhere"
    [mk_burst "t071_151200_iw1" (mk_datetime 2022 1 5 23 59 59) "VV" "002.36"
       5 1500 7 25000 4 9;
     mk_burst "t071_151200_iw1" (mk_datetime 2022 1 5 0 0 1) "VH" "002.36"
       5 1500 7 25000 4 9]
    (mk_geo2rdr_params (1 # 1000) 10 500)
    (mk_rdr2geo_params false true false false false false false false false)
    (mk_split_spectrum_params true 0)
    (mk_geocoding_params false "GTiff") ∅.

Definition other_state : State :=
  mk_state {[ "scratch/t071_151200_iw1" := Dir;
              "product/t071_151200_iw1/20220105" := Dir ]}
           {[ "t071_151200_iw1" := mk_geogrid 1 2 3 4 5 6 4326 ]}.

(** The sample library with an engine that fails: geo2rdr, the geocoding
    of a metadata layer, the writing of the metadata and the FM-rate
    mismatch all raise. *)
Definition failing_library : Library :=
  mk_library
    (fun _ c => match c with
                | Geo2RdrRun _ _ _ | GeocodeRun _ _ _ _ _
                | MetadataToFile _ _
                | AzFmRateMismatchMitigation _ _ _ _ _ => Some 7%nat
                | _ => None
                end)
    (raster_epsg sample_library) (raster_num_bands sample_library)
    (use_gpu sample_library) (is_eap_correction_necessary sample_library)
    (get_module_name sample_library) (bistatic_delay sample_library)
    (geometrical_and_steering_doppler sample_library)
    (az_fm_rate_mismatch_mitigation sample_library) (np_add sample_library).

(** A library that asks for the corrections of the antenna pattern by
    the IPF version of the burst, as [s1reader] does for the versions
    before 2.36, and the sample configuration with its bursts processed
    by such a version: scratch path, product path and the identities of
    the bursts are those of [sample_cfg]. *)
Definition versioned_library : Library :=
  mk_library (fun _ _ => None) (raster_epsg sample_library)
    (raster_num_bands sample_library) (use_gpu sample_library)
    (fun version => if String.eqb version "002.34"
                    then mk_eap_check true true else mk_eap_check false false)
    (get_module_name sample_library) (bistatic_delay sample_library)
    (geometrical_and_steering_doppler sample_library)
    (az_fm_rate_mismatch_mitigation sample_library) (np_add sample_library).

Definition old_ipf_cfg : RunConfig :=
  mk_cfg "dem.tif" false 0 false "scratch" "product" "reference"
    [mk_burst "t071_151200_iw1" sample_start "VV" "002.34" 0 10 0 20 1 1;
     mk_burst "t071_151200_iw1" sample_start "VH" "002.34" 0 10 0 20 1 1]
    (mk_geo2rdr_params (1 # 100000000) 25 1000)
    (mk_rdr2geo_params false false true true true true true true true)
    (mk_split_spectrum_params false 0)
    (mk_geocoding_params true "ENVI")
    (output_paths sample_cfg).

(** The sample state once the topography stage has run for the sample
    burst: its output directory is there, with the seven layers in it. *)
Definition ready_state : State :=
  mk_state
    {[ "dem.tif" := File;
       "product" := Dir;
       "product/t071_151200_iw1" := Dir;
       "product/t071_151200_iw1/20220105" := Dir;
       "product/t071_151200_iw1/20220105/x.rdr" := File;
       "product/t071_151200_iw1/20220105/y.rdr" := File;
       "product/t071_151200_iw1/20220105/z.rdr" := File;
       "product/t071_151200_iw1/20220105/incidence.rdr" := File;
       "product/t071_151200_iw1/20220105/local_incidence.rdr" := File;
       "product/t071_151200_iw1/20220105/heading.rdr" := File;
       "product/t071_151200_iw1/20220105/layover_shadow_mask.rdr" := File ]}
    (geogrids sample_state).

(** ** Further observations on runs *)

(** *** Monitors *)

(** A monitor reads the events of a run from left to right, from the
    state [t]: [R] holds of the state it is in and the event it meets;
    it is in a state [J a] at the end of a run that returns [a], in a
    state [X] at the end of a run that raises. *)
Definition watch {T} (step : T -> Event -> T) (t : T) (evs : list Event) : T :=
  fold_left step evs t.

Definition monitored {A T} (step : T -> Event -> T) (R : T -> Event -> Prop)
    (t : T) (m : M A) (J : A -> T -> Prop) (X : T -> Prop) : Prop :=
  forall h s,
    (forall i ev, events (m h s) !! i = Some ev ->
                  R (watch step t (take i (events (m h s)))) ev) /\
    match result (m h s) with
    | inr a => J a (watch step t (events (m h s)))
    | inl _ => X (watch step t (events (m h s)))
    end.

(** The directories that [os.makedirs] has made or found so far. *)
Definition ensured (t : list string) (ev : Event) : list string :=
  match ev with
  | Ev (Makedirs p) Returned | Ev (Makedirs p) Created => p :: t
  | _ => t
  end.

(** The engine of [s1_geo2rdr.run] is pointed at the directory of the
    burst of its radar grid, ensured before, and at the topo layers of
    the reference burst. *)
Definition geo2rdr_ready (cfg : RunConfig) (t : list string) (ev : Event)
  : Prop :=
  match ev with
  | Ev (Geo2RdrRun o topo d) _ =>
      d ∈ t /\ d = burst_output_path cfg (grid_burst (g_radar_grid o)) /\
      topo = RasterAt (reference_radar_info_path cfg +:+ "/topo.vrt")
  | _ => True
  end.

(** Whether [isce3.cuda.core.set_device] has returned. *)
Definition device_set (t : bool) (ev : Event) : bool :=
  match ev with
  | Ev (CudaSetDevice _) Returned => true
  | _ => t
  end.

(** The device [id] is made and set at most once, when the check [g]
    says so, and before any engine object; the engine objects are CUDA
    ones exactly then. *)
Definition device_first (id : Z) (g : bool) (t : bool) (ev : Event) : Prop :=
  match ev with
  | Ev (CudaDevice id') _ | Ev (CudaSetDevice id') _ =>
      id' = id /\ g = true /\ t = false
  | Ev (Geo2RdrInit o) _ => g_on_gpu o = g /\ t = g
  | _ => True
  end.

Definition is_set_device (ev : Event) : bool :=
  match ev with Ev (CudaSetDevice _) _ => true | _ => false end.

(** The monitor that counts the events [f] selects. *)
Definition tally (f : Event -> bool) (t : nat) (ev : Event) : nat :=
  if f ev then S t else t.

Definition is_cuda_device (ev : Event) : bool :=
  match ev with
  | Ev (CudaDevice _) _ | Ev (CudaSetDevice _) _ => true
  | _ => false
  end.

(** [id_pol] of the source: burst id and polarization. *)
Definition id_pol (b : Burst) : string :=
  burst_id b +:+ "_" +:+ polarization b.

(** The files of [s1_geocode_slc.run] lie in the directories of their
    burst, ensured before: the VRT of the burst and the scratch space of
    the band splitting in its scratch directory, the geocoded SLC and
    its metadata in its product directory.  The antenna pattern is
    corrected once the scratch directory is ensured, from the VRT into the
    path that [replace] makes of the path of the VRT. *)
Definition slc_ready (cfg : RunConfig) (t : list string) (ev : Event) : Prop :=
  match ev with
  | Ev (SlcToVrtFile b p) _ =>
      scratch_dir cfg b ∈ t /\
      p = scratch_dir cfg b +:+ "/" +:+ id_pol b +:+ "_temp.vrt"
  | Ev (ApplyEapCorrection b src dst) _ =>
      scratch_dir cfg b ∈ t /\
      src = scratch_dir cfg b +:+ "/" +:+ id_pol b +:+ "_temp.vrt" /\
      dst = py_replace src "_temp.vrt" "_corrected_temp.rdr"
  | Ev (RangeSplitSpectrum b _ _ scratch) _ =>
      scratch ∈ t /\ scratch = scratch_dir cfg b
  | Ev (RasterCreate p _ _ _ _) _ =>
      exists b, b ∈ bursts cfg /\ product_dir cfg b ∈ t /\
        p = product_dir cfg b +:+ "/" +:+ id_pol b +:+ ".slc"
  | Ev (FileOpen p _) _ =>
      exists b, b ∈ bursts cfg /\ product_dir cfg b ∈ t /\
        p = product_dir cfg b +:+ "/" +:+ id_pol b +:+ ".json"
  | _ => True
  end.

Definition is_makedirs (ev : Event) : bool :=
  match ev with Ev (Makedirs _) _ => true | _ => false end.

(** An earlier call of the run has ensured the directory [d]. *)
Definition made_before (evs : list Event) (i : nat) (d : string) : Prop :=
  exists j o, (j < i)%nat /\ evs !! j = Some (Ev (Makedirs d) o) /\
              not_raised (Ev (Makedirs d) o).

(** The files that are open: opened by a [with] statement and not yet
    closed. *)
Definition opened (t : list string) (ev : Event) : list string :=
  match ev with
  | Ev (H5Open p _) Returned | Ev (FileOpen p _) Returned => p :: t
  | Ev (H5Close p) _ | Ev (FileClose p) _ =>
      filter (fun q => q <> p) t
  | _ => t
  end.

Definition open_files (evs : list Event) : list string :=
  watch opened [] evs.

(** The open file an event works on: the HDF5 file of a dataset or of a
    raster on a dataset, the file the metadata are written to. *)
Definition file_used (ev : Event) : list string :=
  match ev with
  | Ev c _ =>
      match c with
      | H5CreateDataset h5 _ _ _ | H5SetAttr h5 _ _ _ | RasterOpenH5 h5 _
      | GeocodeRun _ _ (RasterH5 h5 _) _ _
      | SetGeotransform (RasterH5 h5 _) _ | SetEpsg (RasterH5 h5 _) _
      | DelRaster (RasterH5 h5 _) => [h5]
      | MetadataToFile p _ => [p]
      | _ => []
      end
  end.

(** Files are opened for writing, one at a time, and worked on while
    open. *)
Definition while_open (t : list string) (ev : Event) : Prop :=
  match ev with
  | Ev (H5Open _ mode) _ | Ev (FileOpen _ mode) _ => t = [] /\ mode = "w"
  | _ => forall p, p ∈ file_used ev -> p ∈ t
  end.

(** Whether the interpolator of the geocoding object has been switched
    to nearest neighbour. *)
Definition nearest (t : bool) (ev : Event) : bool :=
  match ev with
  | Ev (GeocodeSetAttr attr) Returned =>
      if String.eqb attr "data_interpolator" then true else t
  | _ => t
  end.

(** A layer is geocoded into a dataset of the HDF5 file; the
    interpolator is the switched one for the layover and shadow mask and
    for no other layer, and the mask alone is stored as bytes. *)
Definition layer_interpolation (t : bool) (ev : Event) : Prop :=
  match ev with
  | Ev (GeocodeRun _ _ out _ _) _ =>
      match out with
      | RasterH5 _ ds => t = String.eqb ds "layover_shadow_mask"
      | _ => False
      end
  | Ev (H5CreateDataset _ name dtype _) _ =>
      dtype = if String.eqb name "layover_shadow_mask" then "byte"
              else "single"
  | _ => True
  end.

Definition is_geocode_slc (ev : Event) : bool :=
  match ev with
  | Ev (GeocodeSlcCall _ _ _ _ _ _ _ _ _ _ _ _ _) _ => true
  | _ => false
  end.

(** Whether the DEM at [dem] has been opened since the last call of
    [geocode_slc]. *)
Definition dem_fresh (dem : string) (t : bool) (ev : Event) : bool :=
  match ev with
  | Ev (RasterOpen p) Returned => if String.eqb p dem then true else t
  | Ev (GeocodeSlcCall _ _ _ _ _ _ _ _ _ _ _ _ _) _ => false
  | _ => t
  end.

Definition dem_reopened (dem : string) (t : bool) (ev : Event) : Prop :=
  match ev with
  | Ev (GeocodeSlcCall _ _ dem_raster _ _ _ _ _ _ _ _ _ _) _ =>
      t = true /\ dem_raster = RasterAt dem
  | _ => True
  end.

(** *** How a run ends *)

(** Started with grids [G] that satisfy [Pre], a run leaves the grids as
    they are; if it returns, [P G] holds, and if it raises [e], [Q G e]. *)
Definition ends {A} (Pre : gmap string GeoGrid -> Prop)
    (Q : gmap string GeoGrid -> Exn -> Prop)
    (P : gmap string GeoGrid -> Prop) (m : M A) : Prop :=
  forall h s, Pre (geogrids s) ->
    geogrids (final (m h s)) = geogrids s /\
    match result (m h s) with
    | inl e => Q (geogrids s) e
    | inr _ => P (geogrids s)
    end.

(** The message of the [TypeError] of a call of
    [s1_geocode_metadata.run] without [burst]. *)
Definition missing_burst : string :=
  "run() missing 1 required positional argument: 'burst'".

(** What [s1_geocode_slc.run] can raise, besides what the libraries and
    the operating system raise: [KeyError] for a burst without grid,
    [TypeError] when the metadata layers are to be geocoded. *)
Definition slc_exn (cfg : RunConfig) (G : gmap string GeoGrid) (e : Exn)
  : Prop :=
  match e with
  | KeyError k =>
      exists b, b ∈ bursts cfg /\ k = [burst_id b] /\ G !! burst_id b = None
  | TypeError msg =>
      rdr2geo_enabled (rdr2geo_params cfg) = true /\
      geocode_metadata_layers (rdr2geo_params cfg) = true /\
      msg = missing_burst
  | ValueError _ | FileNotFoundError _ => False
  | FileExistsError _ | ExtError _ => True
  end.

(** What [s1_geocode_metadata.run] can raise besides: [KeyError] for a
    burst without grid, then for a burst without output paths. *)
Definition metadata_exn (cfg : RunConfig) (burst : Burst)
    (G : gmap string GeoGrid) (e : Exn) : Prop :=
  match e with
  | KeyError k =>
      (k = [burst_id burst] /\ G !! burst_id burst = None) \/
      (k = [burst_id burst; strftime_Ymd (sensing_start burst)] /\
       is_Some (G !! burst_id burst) /\
       output_paths cfg !! id_date_of burst = None)
  | ValueError _ | FileNotFoundError _ | TypeError _ => False
  | FileExistsError _ | ExtError _ => True
  end.

(** What [s1_geocode_metadata.run] reads and writes for [burst]: the
    DEM and the enabled layers of the input directory, which is the
    scratch directory of the burst when [fetch] is set and its output
    directory otherwise; the datasets of [topo.h5] in the output
    directory, of the shape of the grid of the burst; it makes no
    directory. *)
Definition metadata_io (cfg : RunConfig) (burst : Burst) (fetch : bool)
    (G : gmap string GeoGrid) (ev : Event) : Prop :=
  match ev with
  | Ev c _ =>
      match c with
      | Makedirs _ => False
      | RasterOpen p =>
          p = dem cfg \/
          exists op layer,
            output_paths cfg !! id_date_of burst = Some op /\
            (layer, true) ∈ meta_layers cfg /\
            p = (if fetch then scratch_directory op
                 else output_directory op) +:+ "/" +:+ layer +:+ ".rdr"
      | H5Open p _ | H5Close p =>
          exists op, output_paths cfg !! id_date_of burst = Some op /\
            is_Some (G !! burst_id burst) /\
            p = output_directory op +:+ "/topo.h5"
      | H5CreateDataset h5 name _ shape =>
          exists op g, output_paths cfg !! id_date_of burst = Some op /\
            G !! burst_id burst = Some g /\
            h5 = output_directory op +:+ "/topo.h5" /\
            (name, true) ∈ meta_layers cfg /\
            shape = (grid_length g, width g)
      | GeocodeRun rg input output dem_raster block_size =>
          exists op g layer,
            output_paths cfg !! id_date_of burst = Some op /\
            G !! burst_id burst = Some g /\
            rg = RadarGridOf burst /\
            input = RasterAt ((if fetch then scratch_directory op
                               else output_directory op) +:+
                              "/" +:+ layer +:+ ".rdr") /\
            output = RasterH5 (output_directory op +:+ "/topo.h5") layer /\
            dem_raster = RasterAt (dem cfg) /\
            block_size = lines_per_block (geo2rdr_params cfg) * width g * 4
      | _ => True
      end
  end.

(** The burst SLC that [s1_geocode_slc.run] hands to the engine: the VRT
    of the burst, or the file corrected for the antenna pattern when the
    IPF version of the burst calls for a phase correction, split in
    range when the configuration says so. *)
Definition temp_slc_path (cfg : RunConfig) (b : Burst) : string :=
  scratch_dir cfg b +:+ "/" +:+ id_pol b +:+ "_temp.vrt".

Definition slc_input (L : Library) (cfg : RunConfig) (b : Burst) : Raster :=
  let path :=
    if phase_correction (is_eap_correction_necessary L (ipf_version b))
    then py_replace (temp_slc_path cfg b) "_temp.vrt" "_corrected_temp.rdr"
    else temp_slc_path cfg b in
  if split_spectrum_enabled (split_spectrum_params cfg)
  then RasterSplit b path (scratch_dir cfg b)
  else RasterAt path.

(** The antenna pattern is corrected for such bursts only, from the VRT
    of the burst; all that [geocode_slc] is called with belongs to one
    configured burst. *)
Definition slc_engine_io (L : Library) (cfg : RunConfig)
    (G : gmap string GeoGrid) (ev : Event) : Prop :=
  match ev with
  | Ev (ApplyEapCorrection b src dst) _ =>
      phase_correction (is_eap_correction_necessary L (ipf_version b)) = true /\
      src = temp_slc_path cfg b /\
      dst = py_replace src "_temp.vrt" "_corrected_temp.rdr"
  | Ev (GeocodeSlcCall out_raster in_raster dem_raster rg sliced g orb dop _
          thr iters blocksize flat) _ =>
      exists b, b ∈ bursts cfg /\ G !! burst_id b = Some g /\
        in_raster = slc_input L cfg b /\
        out_raster = RasterNew (product_dir cfg b +:+ "/" +:+ id_pol b +:+ ".slc")
                       (width g) (grid_length g)
                       (raster_num_bands L in_raster)
                       (output_format (geocoding_params cfg)) /\
        dem_raster = RasterAt (dem cfg) /\
        rg = RadarGridOf b /\
        sliced = RadarGridSlice (RadarGridOf b)
                   (first_valid_line b) (last_valid_line b)
                   (first_valid_sample b) (last_valid_sample b) /\
        (orb, dop) = (orbit b, doppler_lut2d b) /\
        (thr, iters, blocksize) =
          (threshold (geo2rdr_params cfg), numiter (geo2rdr_params cfg),
           lines_per_block (geo2rdr_params cfg)) /\
        flat = flatten (geocoding_params cfg)
  | _ => True
  end.

(** The first of the bursts [bs] with the (burst id, date) pair [p]. *)
Definition first_of_pair (bs : list Burst) (p : string * string)
  : option Burst :=
  List.find (fun b => bool_decide (id_date_of b = p)) bs.

(** An engine object of [s1_geo2rdr.run] is built from the radar grid and
    the orbit of the burst [b], with the parameters of the
    configuration. *)
Definition built_from (cfg : RunConfig) (b : Burst) (o : Geo2RdrObj) : Prop :=
  g_radar_grid o = RadarGridOf b /\ g_orbit o = orbit b /\
  g_threshold o = threshold (geo2rdr_params cfg) /\
  g_numiter o = numiter (geo2rdr_params cfg) /\
  g_blocksize o = lines_per_block (geo2rdr_params cfg).

(** The engine objects are those of the first burst of each pair. *)
Definition engine_of_first (cfg : RunConfig) (bs : list Burst) (ev : Event)
  : Prop :=
  match ev with
  | Ev (Geo2RdrInit o) _ | Ev (Geo2RdrRun o _ _) _ =>
      exists b, first_of_pair bs (id_date_of b) = Some b /\ built_from cfg b o
  | _ => True
  end.

(** [s1_geocode_slc.run] enters no other stage than [s1_rdr2geo], with
    the whole configuration and [save_in_scratch=True]. *)
Definition rdr2geo_in_scratch (cfg : RunConfig) (ev : Event) : Prop :=
  match ev with
  | Ev (RunStage st cfg' from_scratch) _ =>
      st = Rdr2geo /\ cfg' = cfg /\ from_scratch = true /\
      rdr2geo_enabled (rdr2geo_params cfg) = true
  | _ => True
  end.

(** The geotransform written on a raster geocoded on the grid [g]. *)
Definition geotransform_of (g : GeoGrid) : list Q :=
  [start_x g; spacing_x g; 0%Q; start_y g; 0%Q; spacing_y g].

(** [s1_geocode_slc.run] writes on the geocoded SLC of a burst the
    geotransform of the grid of the burst and the EPSG code of the DEM. *)
Definition slc_georeferenced (L : Library) (cfg : RunConfig)
    (G : gmap string GeoGrid) (ev : Event) : Prop :=
  match ev with
  | Ev (SetGeotransform r gt) _ =>
      exists b g bands,
        b ∈ bursts cfg /\ G !! burst_id b = Some g /\
        gt = geotransform_of g /\
        r = RasterNew (product_dir cfg b +:+ "/" +:+ id_pol b +:+ ".slc")
              (width g) (grid_length g) bands
              (output_format (geocoding_params cfg))
  | Ev (SetEpsg r code) _ =>
      code = raster_epsg L (RasterAt (dem cfg)) /\
      exists b g bands,
        b ∈ bursts cfg /\ G !! burst_id b = Some g /\
        r = RasterNew (product_dir cfg b +:+ "/" +:+ id_pol b +:+ ".slc")
              (width g) (grid_length g) bands
              (output_format (geocoding_params cfg))
  | _ => True
  end.

(** [s1_geocode_metadata.run] writes on every layer the geotransform and
    the EPSG code of the grid of the burst. *)
Definition metadata_georeferenced (burst : Burst)
    (G : gmap string GeoGrid) (ev : Event) : Prop :=
  match ev with
  | Ev (SetGeotransform r gt) _ =>
      exists g h5 layer, G !! burst_id burst = Some g /\
        gt = geotransform_of g /\ r = RasterH5 h5 layer
  | Ev (SetEpsg r code) _ =>
      exists g h5 layer, G !! burst_id burst = Some g /\
        code = epsg g /\ r = RasterH5 h5 layer
  | _ => True
  end.

(** The events of [s1_geo2rdr.run] before and after its loop, and those
    of [s1_geocode_slc.run]. *)
Definition geo2rdr_setup (ev : Event) : Prop :=
  match ev with
  | Ev c _ =>
      match c with
      | JournalLog _ _ | RasterOpen _ | GetEpsg _ | MakeProjection _
      | GpuCheck _ _ | CudaDevice _ | CudaSetDevice _ => True
      | _ => False
      end
  end.

Definition slc_setup (ev : Event) : Prop :=
  match ev with
  | Ev (JournalLog _ _) _ | Ev LUT2dDefault _ => True
  | _ => False
  end.

(** The calendar fields that [datetime] allows. *)
Definition valid_date (d : datetime) : Prop :=
  (1000 <= year d < 100 * 100)%nat /\ (1 <= month d <= 12)%nat /\
  (1 <= day d <= 31)%nat.

Definition same_day (d1 d2 : datetime) : Prop :=
  year d1 = year d2 /\ month d1 = month d2 /\ day d1 = day d2.

(** The event invokes the geo2rdr engine on the output directory [d]. *)
Definition is_geo2rdr_into (d : string) (ev : Event) : bool :=
  match ev with
  | Ev (Geo2RdrRun _ _ out_dir) _ => bool_decide (out_dir = d)
  | _ => false
  end.

(** [old] occurs in [a +:+ rest] from a position within [a]. *)
Fixpoint starts_within (old a rest : string) : bool :=
  match a with
  | EmptyString => false
  | String c a' =>
      String.prefix old (a +:+ rest) || starts_within old a' rest
  end.

(** [old in s] *)
Fixpoint occurs (old s : string) : bool :=
  String.prefix old s ||
  match s with
  | EmptyString => false
  | String _ s' => occurs old s'
  end.

(** ** s1_geocode_metadata.py: the geocoding of the calibration and noise
    LUTs

    [geocode_luts] and its two callers talk to h5py groups and to GDAL,
    which the stage wrappers above never do, and can raise two more
    exceptions.  Their calls, events and runs are types of their own; a
    call that the wrappers make as well is a [Std] call. *)

Module Luts.

Inductive LutExn :=
  | Base (e : Exn)
  | ZeroDivisionError
  | AttributeError (msg : string).

(** [radar_grid.multilook(az, rg)] gives a radar grid of its own. *)
Inductive LutRadarGrid :=
  | Multilooked (g : RadarGrid) (az rg : Z).

(** A raster opened on a dataset of the product, or on what the source
    passes for the path of the scratch file: a tuple of strings. *)
Inductive LutRaster :=
  | OnDataset (h5 path : string)
  | OnTuple (path : list string).

Inductive LutCall :=
  | Std (c : Call)
  | Multilook (g : RadarGrid) (az rg : Z)
  | GeoGridParameters (g : GeoGrid)
  | RequireGroup (h5 path : string)
  | GetDriverByName (name : string)
  | InitGeocodedDataset (group name : string) (g : GeoGrid)
      (dtype description : string)
  | H5GetItem (h5 path : string)
  | NpZeros (shape : Z * Z)
  | DriverCreate (driver : string) (path : list string) (xsize ysize bands : Z)
      (dtype : string)
  | GetRasterBand (dataset : list string) (band : Z)
  | WriteArray (dataset : list string) (band : Z) (shape : Z * Z)
  | FlushCache (dataset : list string) (band : Z)
  | ReleaseDataset (dataset : list string)
  | RasterOpenTuple (path : list string)
  | Geocode (radar_grid : LutRadarGrid) (input output : LutRaster)
      (dem_raster : Raster)
  | SetGeotransformOn (r : LutRaster) (gt : list Q)
  | SetEpsgOn (r : LutRaster) (code : Z)
  | DelLutRaster (r : LutRaster).

Inductive LutOutcome :=
  | LutReturned
  | LutRaised (e : LutExn).

Inductive LutEvent := LutEv (c : LutCall) (o : LutOutcome).

(** Answers of the libraries: those of the wrappers, the faults of the
    calls, the shape (length, width) of a multilooked radar grid, and
    [ROOT_PATH] of [compass.utils.h5_helpers]. *)
Record LutLibrary := mk_lut_library {
  std : Library;
  lut_fault : list LutEvent -> LutCall -> option nat;
  multilook_shape : RadarGrid -> Z -> Z -> Z * Z;
  ROOT_PATH : string }.

Record LutRun (A : Type) := mk_lut_run {
  lut_events : list LutEvent;
  lut_result : LutExn + A }.
Arguments mk_lut_run {A} _ _.
Arguments lut_events {A} _.
Arguments lut_result {A} _.

(** The grids are read, nothing of the state is written. *)
Definition LM (A : Type) : Type :=
  gmap string GeoGrid -> list LutEvent -> LutRun A.

Definition lret {A} (a : A) : LM A := fun _ _ => mk_lut_run [] (inr a).

Definition lraise {A} (e : LutExn) : LM A := fun _ _ => mk_lut_run [] (inl e).

Definition lbind {A B} (m : LM A) (f : A -> LM B) : LM B := fun G h =>
  let r := m G h in
  match lut_result r with
  | inl e => mk_lut_run (lut_events r) (inl e)
  | inr a =>
      let r' := f a G (h ++ lut_events r) in
      mk_lut_run (lut_events r ++ lut_events r') (lut_result r')
  end.

Notation "x <~ m ;; k" := (lbind m (fun x => k))
  (at level 100, m at next level, right associativity).
Notation "m ;;; k" := (lbind m (fun _ => k))
  (at level 100, right associativity).

Fixpoint lfor_in {X} (xs : list X) (body : X -> LM unit) : LM unit :=
  match xs with
  | [] => lret tt
  | x :: rest => body x ;;; lfor_in rest body
  end.

Section Functions.
Context (L : LutLibrary).

Definition lcall {A} (c : LutCall) (v : A) : LM A := fun _ h =>
  match lut_fault L h c with
  | Some n =>
      mk_lut_run [LutEv c (LutRaised (Base (ExtError n)))]
                 (inl (Base (ExtError n)))
  | None => mk_lut_run [LutEv c LutReturned] (inr v)
  end.

(** [cfg.geogrids[burst_id]] and [cfg.output_paths[key]] *)
Definition lut_geogrid (id : string) : LM GeoGrid := fun G _ =>
  match G !! id with
  | Some g => mk_lut_run [] (inr g)
  | None => mk_lut_run [] (inl (Base (KeyError [id])))
  end.

Definition lut_output_paths (cfg : RunConfig) (key : string * string)
  : LM OutPaths :=
  match output_paths cfg !! key with
  | Some p => lret p
  | None => lraise (Base (KeyError [key.1; key.2]))
  end.

(** [a // b] on integers *)
Definition floordiv (a b : Z) : LM Z :=
  if bool_decide (b = 0) then lraise ZeroDivisionError else lret (a / b).

(** The body of [for item_name, _ in item_dict.items()] *)
Definition geocode_lut_item (geo_burst_h5 dst_group_path scratch_path : string)
    (decimated_radargrid : LutRadarGrid) (shape : Z * Z)
    (decimated_geogrid : GeoGrid) (dem_raster : Raster) (dem_epsg : Z)
    (item_name : string) : LM unit :=
  lcall (InitGeocodedDataset dst_group_path item_name decimated_geogrid
           "float32" ("geocoded " +:+ item_name)) tt ;;;
  let dataset := dst_group_path +:+ "/" +:+ item_name in
  lcall (H5GetItem geo_burst_h5 dataset) tt ;;;
  geocoded_cal_lut_raster <~
    lcall (Std (RasterOpenH5 geo_burst_h5 dataset))
          (OnDataset geo_burst_h5 dataset) ;;
  lcall (NpZeros shape) tt ;;;
  let lut_path := [scratch_path +:+ "/" +:+ item_name +:+ "_radargrid.rdr"] in
  lcall (DriverCreate "ENVI" lut_path shape.2 shape.1 1 "GDT_Float32") tt ;;;
  lcall (GetRasterBand lut_path 1) tt ;;;
  lcall (WriteArray lut_path 1 shape) tt ;;;
  lcall (FlushCache lut_path 1) tt ;;;
  lcall (ReleaseDataset lut_path) tt ;;;
  input_raster <~ lcall (RasterOpenTuple lut_path) (OnTuple lut_path) ;;
  lcall (Geocode decimated_radargrid input_raster geocoded_cal_lut_raster
           dem_raster) tt ;;;
  let geotransform :=
    [start_x decimated_geogrid; spacing_x decimated_geogrid; 0%Q;
     start_y decimated_geogrid; 0%Q; spacing_y decimated_geogrid] in
  lcall (SetGeotransformOn geocoded_cal_lut_raster geotransform) tt ;;;
  lcall (SetEpsgOn geocoded_cal_lut_raster dem_epsg) tt ;;;
  lcall (DelLutRaster input_raster) tt ;;;
  lcall (DelLutRaster geocoded_cal_lut_raster) tt.

(** [geocode_luts(geo_burst_h5, burst, cfg, dst_group_path, item_dict,
    dec_factor)]; [item_dict] by its keys, in order. *)
Definition geocode_luts (geo_burst_h5 : string) (burst : Burst)
    (cfg : RunConfig) (dst_group_path : string) (item_dict : list string)
    (dec_factor : Z) : LM unit :=
  dem_raster <~ lcall (Std (RasterOpen (dem cfg))) (RasterAt (dem cfg)) ;;
  dem_epsg <~ lcall (Std (GetEpsg dem_raster))
                    (raster_epsg (std L) dem_raster) ;;
  lcall (Std (MakeProjection dem_epsg)) tt ;;;
  let burst_id := burst_id burst in
  geo_grid <~ lut_geogrid burst_id ;;
  radar_grid <~ lcall (Std (AsRadargrid burst)) (RadarGridOf burst) ;;
  let date_str := strftime_Ymd (sensing_start burst) in
  let burst_id_date_key := (burst_id, date_str) in
  out_paths <~ lut_output_paths cfg burst_id_date_key ;;
  let scratch_path := scratch_directory out_paths in
  decimated_radargrid <~
    lcall (Multilook radar_grid dec_factor dec_factor)
          (Multilooked radar_grid dec_factor dec_factor) ;;
  w <~ floordiv (width geo_grid) dec_factor ;;
  l <~ floordiv (grid_length geo_grid) dec_factor ;;
  let g := mk_geogrid (start_x geo_grid) (start_y geo_grid)
             (spacing_x geo_grid * inject_Z dec_factor)
             (spacing_y geo_grid * inject_Z dec_factor)
             (w + 1) (l + 1) (epsg geo_grid) in
  decimated_geogrid <~ lcall (GeoGridParameters g) g ;;
  lcall (Std GeocodeInit) tt ;;;
  lcall (Std (GeocodeSetAttr "orbit")) tt ;;;
  lcall (Std (GeocodeSetAttr "ellipsoid")) tt ;;;
  lcall (Std LUT2dDefault) tt ;;;
  lcall (Std (GeocodeSetAttr "doppler")) tt ;;;
  lcall (Std (GeocodeSetAttr "threshold_geo2rdr")) tt ;;;
  lcall (Std (GeocodeSetAttr "numiter_geo2rdr")) tt ;;;
  lcall (Std (GeocodeGeogrid (start_x decimated_geogrid)
                (start_y decimated_geogrid) (spacing_x decimated_geogrid)
                (spacing_y decimated_geogrid) (width decimated_geogrid)
                (grid_length decimated_geogrid) (epsg decimated_geogrid))) tt ;;;
  lcall (RequireGroup geo_burst_h5 dst_group_path) tt ;;;
  lcall (GetDriverByName "ENVI") tt ;;;
  let shape := multilook_shape L radar_grid dec_factor dec_factor in
  lfor_in item_dict
    (geocode_lut_item geo_burst_h5 dst_group_path scratch_path
       decimated_radargrid shape decimated_geogrid dem_raster dem_epsg).

(** [burst.burst_calibration], which a burst read without its
    calibration does not have. *)
Record BurstCalibration := mk_burst_calibration {
  gamma : nat; sigma_naught : nat; dn : nat }.

(** [geocode_calibration_luts(geo_burst_h5, burst, cfg, dec_factor)] *)
Definition geocode_calibration_luts (geo_burst_h5 : string) (burst : Burst)
    (burst_calibration : option BurstCalibration)
    (cfg : RunConfig) (dec_factor : Z) : LM unit :=
  let dst_group_path :=
    ROOT_PATH L +:+ "/metadata/calibration_information" in
  match burst_calibration with
  | None =>
      lraise (AttributeError "'NoneType' object has no attribute 'gamma'")
  | Some c =>
      let item_dict := [("gamma", gamma c);
                        ("sigma_naught", sigma_naught c); ("dn", dn c)] in
      geocode_luts geo_burst_h5 burst cfg dst_group_path (map fst item_dict)
                   dec_factor
  end.

(** [geocode_noise_luts(geo_burst_h5, burst, cfg, dec_factor)] *)
Definition geocode_noise_luts (geo_burst_h5 : string) (burst : Burst)
    (cfg : RunConfig) (dec_factor : Z) : LM unit :=
  let dst_group_path := ROOT_PATH L +:+ "/metadata/noise_information" in
  let item_dict := ["thermal_noise_lut"] in
  geocode_luts geo_burst_h5 burst cfg dst_group_path item_dict dec_factor.

End Functions.

(** A monitor on the events of the LUT geocoding, run on the grids [G]:
    [R] holds of its state and the event it meets, [J] of its state when
    the run returns, [X] of the exception and its state when the run
    raises. *)
Definition lut_watch {T} (step : T -> LutEvent -> T) (t : T)
    (evs : list LutEvent) : T :=
  fold_left step evs t.

Definition lut_monitored {A T} (G : gmap string GeoGrid)
    (step : T -> LutEvent -> T) (R : T -> LutEvent -> Prop) (t : T)
    (m : LM A) (J : A -> T -> Prop) (X : LutExn -> T -> Prop) : Prop :=
  forall h,
    (forall i ev, lut_events (m G h) !! i = Some ev ->
                  R (lut_watch step t (take i (lut_events (m G h)))) ev) /\
    match lut_result (m G h) with
    | inr a => J a (lut_watch step t (lut_events (m G h)))
    | inl e => X e (lut_watch step t (lut_events (m G h)))
    end.

Definition is_geocode (ev : LutEvent) : bool :=
  match ev with LutEv (Geocode _ _ _ _) _ => true | _ => false end.

Definition is_lut_geocode_init (ev : LutEvent) : bool :=
  match ev with LutEv (Std GeocodeInit) _ => true | _ => false end.

Definition lut_count (f : LutEvent -> bool) (evs : list LutEvent) : nat :=
  length (filter (fun ev => f ev = true) evs).

Definition lut_tally (f : LutEvent -> bool) (t : nat) (ev : LutEvent) : nat :=
  if f ev then S t else t.

(** The grid of [g] thinned by [dec]. *)
Definition decimated (g : GeoGrid) (dec : Z) : GeoGrid :=
  mk_geogrid (start_x g) (start_y g)
    (spacing_x g * inject_Z dec) (spacing_y g * inject_Z dec)
    (width g / dec + 1) (grid_length g / dec + 1) (epsg g).

(** What [geocode_luts] asks of the engine, of GDAL and of the product
    for [burst]: the thinned grid of the burst, made only when [dec] is
    not zero; for an item of [items], a scratch raster of the shape of
    the multilooked radar grid, whose path is a tuple of one string, and
    its geocoding into the dataset of the item, with the geotransform of
    the thinned grid and the EPSG code of the DEM. *)
Definition lut_io (L : LutLibrary) (G : gmap string GeoGrid)
    (cfg : RunConfig) (burst : Burst) (h5 group : string)
    (items : list string) (dec : Z) (ev : LutEvent) : Prop :=
  match ev with
  | LutEv c _ =>
      match c with
      | Std GeocodeInit =>
          dec <> 0 /\ is_Some (G !! burst_id burst) /\
          is_Some (output_paths cfg !! id_date_of burst)
      | GeoGridParameters g' =>
          exists g, G !! burst_id burst = Some g /\ dec <> 0 /\
                    g' = decimated g dec
      | Std (GeocodeGeogrid xs ys dx dy w l code) =>
          exists g, G !! burst_id burst = Some g /\ dec <> 0 /\
            mk_geogrid xs ys dx dy w l code = decimated g dec
      | DriverCreate drv path xsize ysize bands dtype =>
          exists item op, item ∈ items /\
            output_paths cfg !! id_date_of burst = Some op /\
            path = [scratch_directory op +:+ "/" +:+ item +:+ "_radargrid.rdr"] /\
            (ysize, xsize) = multilook_shape L (RadarGridOf burst) dec dec /\
            (drv, bands, dtype) = ("ENVI", 1, "GDT_Float32")
      | Geocode rg input output dem_raster =>
          exists item op, item ∈ items /\
            output_paths cfg !! id_date_of burst = Some op /\
            rg = Multilooked (RadarGridOf burst) dec dec /\
            input = OnTuple [scratch_directory op +:+ "/" +:+ item +:+
                             "_radargrid.rdr"] /\
            output = OnDataset h5 (group +:+ "/" +:+ item) /\
            dem_raster = RasterAt (dem cfg)
      | SetGeotransformOn r gt =>
          exists g, G !! burst_id burst = Some g /\
                    gt = geotransform_of (decimated g dec)
      | SetEpsgOn r code => code = raster_epsg (std L) (RasterAt (dem cfg))
      | _ => True
      end
  end.

(** What [geocode_luts] raises besides what the libraries raise. *)
Definition lut_exn (G : gmap string GeoGrid) (cfg : RunConfig)
    (burst : Burst) (dec : Z) (e : LutExn) : Prop :=
  match e with
  | ZeroDivisionError =>
      dec = 0 /\ is_Some (G !! burst_id burst) /\
      is_Some (output_paths cfg !! id_date_of burst)
  | Base (KeyError k) =>
      (k = [burst_id burst] /\ G !! burst_id burst = None) \/
      (k = [burst_id burst; strftime_Ymd (sensing_start burst)] /\
       is_Some (G !! burst_id burst) /\
       output_paths cfg !! id_date_of burst = None)
  | Base (ExtError _) => True
  | _ => False
  end.

(** The dataset an event geocodes into. *)
Definition geocoded_into (ev : LutEvent) : list LutRaster :=
  match ev with
  | LutEv (Geocode _ _ output _) _ => [output]
  | _ => []
  end.

End Luts.

(** More sample worlds: the sample configuration with the metadata
    layers to be geocoded from [s1_geocode_slc.run], and without bursts;
    a library for which every burst needs the phase correction of the
    antenna pattern, and a burst whose id holds the suffix of the VRT;
    a burst of the sample pair sensed later that day;
    a library for the LUT geocoding in which nothing fails. *)
Definition layers_cfg : RunConfig :=
  mk_cfg "dem.tif" false 0 false "scratch" "product" "reference"
    [burst_vv; burst_vh]
    (mk_geo2rdr_params (1 # 100000000) 25 1000)
    (mk_rdr2geo_params true true true true true true true true true)
    (mk_split_spectrum_params false 0)
    (mk_geocoding_params true "ENVI")
    (output_paths sample_cfg).

Definition empty_cfg : RunConfig :=
  mk_cfg "dem.tif" false 0 false "scratch" "product" "reference" []
    (mk_geo2rdr_params (1 # 100000000) 25 1000)
    (mk_rdr2geo_params true true true true true true true true true)
    (mk_split_spectrum_params false 0)
    (mk_geocoding_params true "ENVI") ∅.

Definition eap_library : Library :=
  mk_library (fun _ _ => None) (raster_epsg sample_library)
    (raster_num_bands sample_library) (use_gpu sample_library)
    (fun _ => mk_eap_check true false)
    (get_module_name sample_library) (bistatic_delay sample_library)
    (geometrical_and_steering_doppler sample_library)
    (az_fm_rate_mismatch_mitigation sample_library) (np_add sample_library).

Definition odd_id_cfg : RunConfig :=
  mk_cfg "dem.tif" false 0 false "scratch" "product" "reference"
    [mk_burst "a_temp.vrt" sample_start "VV" "003.31" 0 10 0 20 1 1]
    (mk_geo2rdr_params (1 # 100000000) 25 1000)
    (mk_rdr2geo_params false false true true true true true true true)
    (mk_split_spectrum_params false 0)
    (mk_geocoding_params true "ENVI") ∅.

Definition odd_id_state : State :=
  mk_state {[ "dem.tif" := File ]}
           {[ "a_temp.vrt" := mk_geogrid 0 0 5 (-10) 100 50 32611 ]}.

Definition burst_later : Burst :=
  mk_burst "t071_151200_iw1" (mk_datetime 2022 1 5 23 59 59) "VH" "003.31"
    0 10 0 20 1 1.

Definition sample_lut_library : Luts.LutLibrary :=
  Luts.mk_lut_library sample_library (fun _ _ => None)
    (fun _ az rg => (1500 / az, 25000 / rg)) "/science/SENTINEL1/CSLC".

(** ** Reasoning about runs *)

Lemma count_app f evs1 evs2 :
  count f (evs1 ++ evs2) = (count f evs1 + count f evs2)%nat.
Proof. induction evs1 as [|ev evs1 IH]; simpl; [done|]. rewrite IH. lia. Qed.

Lemma run_eta {A} (r : Run A) : mk_run (events r) (final r) (result r) = r.
Proof. by destruct r. Qed.

(** *** One step of a run *)

Section Exec.
Context (L : Library).

Lemma bind_cases {A B} (m : M A) (k : A -> M B) h s :
  (exists e, result (m h s) = inl e /\
     bind m k h s = mk_run (events (m h s)) (final (m h s)) (inl e)) \/
  (exists a, result (m h s) = inr a /\
     bind m k h s =
       eapp (events (m h s)) (k a (h ++ events (m h s)) (final (m h s)))).
Proof.
  unfold bind, eapp. destruct (result (m h s)) as [e|a]; [left|right]; eauto.
Qed.

Lemma bind_raised {A B} (m : M A) (k : A -> M B) h s e :
  result (m h s) = inl e ->
  bind m k h s = mk_run (events (m h s)) (final (m h s)) (inl e).
Proof. unfold bind. by intros ->. Qed.

Lemma bind_continued {A B} (m : M A) (k : A -> M B) h s a :
  result (m h s) = inr a ->
  bind m k h s =
    eapp (events (m h s)) (k a (h ++ events (m h s)) (final (m h s))).
Proof. unfold bind. by intros ->. Qed.

Lemma bind_ret {A B} (a : A) (k : A -> M B) h s : bind (ret a) k h s = k a h s.
Proof. unfold bind, ret. simpl. rewrite app_nil_r. apply run_eta. Qed.

Lemma bind_raise {A B} e (k : A -> M B) h s :
  bind (raise e) k h s = mk_run [] s (inl e).
Proof. reflexivity. Qed.

Lemma bind_assoc {A B C} (m : M A) (k1 : A -> M B) (k2 : B -> M C) h s :
  bind (bind m k1) k2 h s = bind m (fun a => bind (k1 a) k2) h s.
Proof.
  unfold bind. destruct (result (m h s)) as [e|a]; simpl; [done|].
  rewrite <- app_assoc.
  destruct (result (k1 a (h ++ events (m h s)) (final (m h s)))); simpl;
    [done|]. by rewrite <- app_assoc.
Qed.

Lemma bind_call {A B} c (v : A) (k : A -> M B) h s :
  bind (call L c v) k h s =
  match fault L h c with
  | Some n => mk_run [Ev c (Raised (ExtError n))] s (inl (ExtError n))
  | None => econs (Ev c Returned) (k v (h ++ [Ev c Returned]) s)
  end.
Proof. unfold bind, call. by destruct (fault L h c). Qed.

Lemma bind_makedirs {B} path (k : unit -> M B) h s :
  bind (makedirs L path) k h s =
  match fault L h (Makedirs path) with
  | Some n =>
      mk_run [Ev (Makedirs path) (Raised (ExtError n))] s (inl (ExtError n))
  | None =>
      if is_file s path then
        mk_run [Ev (Makedirs path) (Raised (FileExistsError path))] s
               (inl (FileExistsError path))
      else
        econs (Ev (Makedirs path) (makedirs_outcome s path))
              (k tt (h ++ [Ev (Makedirs path) (makedirs_outcome s path)])
                 (ensure_dir s path))
  end.
Proof.
  unfold bind, makedirs, is_file, makedirs_outcome, ensure_dir.
  destruct (fault L h (Makedirs path)); [done|].
  by destruct (fs s !! path) as [[]|]; [destruct s| |].
Qed.

Lemma bind_path_exists {B} path (k : bool -> M B) h s :
  bind (path_exists path) k h s =
  k (bool_decide (is_Some (fs s !! path))) h s.
Proof. unfold bind, path_exists. simpl. rewrite app_nil_r. apply run_eta. Qed.

Lemma bind_lookup_geogrid {B} id (k : GeoGrid -> M B) h s :
  bind (lookup_geogrid id) k h s =
  match geogrids s !! id with
  | Some g => k g h s
  | None => mk_run [] s (inl (KeyError [id]))
  end.
Proof.
  unfold bind, lookup_geogrid. destruct (geogrids s !! id); simpl; [|done].
  rewrite app_nil_r. apply run_eta.
Qed.

Lemma bind_with {A B} o c (body : M A) (k : A -> M B) h s :
  bind (with_ L o c body) k h s =
  match fault L h o with
  | Some n => mk_run [Ev o (Raised (ExtError n))] s (inl (ExtError n))
  | None =>
      let r := body (h ++ [Ev o Returned]) s in
      let evs := Ev o Returned :: events r ++ [Ev c Returned] in
      match result r with
      | inl e => mk_run evs (final r) (inl e)
      | inr a => eapp evs (k a (h ++ evs) (final r))
      end
  end.
Proof.
  unfold bind, with_, call, eapp. destruct (fault L h o); simpl; [done|].
  by destruct (result (body (h ++ [Ev o Returned]) s)).
Qed.

Lemma run_with {A} o c (body : M A) h s :
  with_ L o c body h s =
  match fault L h o with
  | Some n => mk_run [Ev o (Raised (ExtError n))] s (inl (ExtError n))
  | None => econs (Ev o Returned) (esnoc (body (h ++ [Ev o Returned]) s)
                                         (Ev c Returned))
  end.
Proof. unfold with_, call. by destruct (fault L h o). Qed.

Lemma run_call {A} c (v : A) h s :
  call L c v h s =
  match fault L h c with
  | Some n => mk_run [Ev c (Raised (ExtError n))] s (inl (ExtError n))
  | None => mk_run [Ev c Returned] s (inr v)
  end.
Proof. reflexivity. Qed.

End Exec.

(** Symbolic execution of a wrapper, one library call at a time. *)
Ltac exec_rewrite :=
  first [ rewrite bind_assoc | rewrite bind_ret | rewrite bind_raise
        | rewrite bind_call | rewrite bind_makedirs
        | rewrite bind_path_exists | rewrite bind_lookup_geogrid
        | rewrite run_call ].

Ltac exec_split :=
  match goal with
  | |- context [match fault ?L ?h ?c with _ => _ end] =>
      destruct (fault L h c)
  | |- context [if is_file ?s ?p then _ else _] =>
      destruct (is_file s p) eqn:?
  | |- context [match geogrids ?s !! ?p with _ => _ end] =>
      destruct (geogrids s !! p) eqn:?
  | |- context [bind (if ?b then _ else _) _ _ _] => destruct b eqn:?
  | |- context [(if ?b then _ else _) _ _] => destruct b eqn:?
  end.

Ltac exec_with fin :=
  repeat (cbv beta zeta iota; first [ exec_split | exec_rewrite ]); fin.

(** *** Rules for the predicates, construct by construct *)

Section Logic.
Context (L : Library).

Lemma returned_bind {A B} (m : M A) (k : A -> M B) h s :
  returned (bind m k h s) ->
  exists a, result (m h s) = inr a /\
    bind m k h s = eapp (events (m h s))
                        (k a (h ++ events (m h s)) (final (m h s))) /\
    returned (k a (h ++ events (m h s)) (final (m h s))).
Proof.
  intros [b Hb].
  destruct (bind_cases m k h s) as [(e & He & Hr) | (a & Ha & Hr)].
  - rewrite Hr in Hb. done.
  - exists a. split; [done|]. split; [done|]. rewrite Hr in Hb. by exists b.
Qed.

(** Rules for [emits] *)

Lemma emits_ret {A} Q (a : A) : emits Q (ret a).
Proof. intros h s. constructor. Qed.

Lemma emits_raise {A} Q e : emits Q (@raise A e).
Proof. intros h s. constructor. Qed.

Lemma emits_path_exists Q p : emits Q (path_exists p).
Proof. intros h s. constructor. Qed.

Lemma emits_lookup_geogrid Q id : emits Q (lookup_geogrid id).
Proof. intros h s. unfold lookup_geogrid. case_match; constructor. Qed.

Lemma emits_lookup_output_paths Q cfg key :
  emits Q (lookup_output_paths cfg key).
Proof. intros h s. unfold lookup_output_paths. case_match; constructor. Qed.

Lemma emits_call {A} (Q : Event -> Prop) c (v : A) :
  (forall o, Q (Ev c o)) -> emits Q (call L c v).
Proof. intros HQ h s. unfold call. case_match; simpl; auto. Qed.

Lemma emits_makedirs (Q : Event -> Prop) p :
  (forall o, Q (Ev (Makedirs p) o)) -> emits Q (makedirs L p).
Proof. intros HQ h s. unfold makedirs. repeat case_match; simpl; auto. Qed.

Lemma emits_bind {A B} Q (m : M A) (k : A -> M B) :
  emits Q m -> (forall a, emits Q (k a)) -> emits Q (bind m k).
Proof.
  intros Hm Hk h s.
  destruct (bind_cases m k h s) as [(e & He & ->) | (a & Ha & ->)]; simpl.
  - apply Hm.
  - apply Forall_app. split; [apply Hm | apply Hk].
Qed.

Lemma emits_bind_call {A B} (Q : Event -> Prop) c (v : A) (k : A -> M B) :
  (forall o, Q (Ev c o)) -> emits Q (k v) -> emits Q (bind (call L c v) k).
Proof.
  intros HQ Hk h s. rewrite bind_call.
  case_match; simpl; [auto | constructor; [auto | apply Hk]].
Qed.

Lemma emits_with {A} (Q : Event -> Prop) o c (body : M A) :
  (forall x, Q (Ev o x)) -> Q (Ev c Returned) -> emits Q body ->
  emits Q (with_ L o c body).
Proof.
  intros Ho Hc Hb h s. rewrite run_with. case_match; simpl; [auto|].
  constructor; [auto|]. apply Forall_app. split; [apply Hb | auto].
Qed.

Lemma emits_for_in {X S} Q (xs : list X) (body : S -> X -> M S) acc :
  (forall acc x, emits Q (body acc x)) -> emits Q (for_in xs body acc).
Proof.
  intros Hb. revert acc. induction xs as [|x xs IH]; intros acc; simpl.
  - apply emits_ret.
  - apply emits_bind; auto.
Qed.

Lemma emits_count {A} f (m : M A) :
  emits (fun ev => f ev = false) m ->
  forall h s, count f (events (m h s)) = 0%nat.
Proof.
  intros Hm h s. specialize (Hm h s).
  induction Hm as [|ev evs Hev _ IH]; simpl; [done|]. by rewrite Hev, IH.
Qed.

(** Rules for [traced] *)

Lemma traced_ret {A X} (g : Event -> list X) (a : A) : traced g [] (ret a).
Proof. by intros h s _. Qed.

Lemma traced_raise {A X} (g : Event -> list X) l e : traced g l (@raise A e).
Proof. by intros h s [? ?]. Qed.

Lemma traced_call {A X} (g : Event -> list X) l c (v : A) :
  g (Ev c Returned) = l -> traced g l (call L c v).
Proof.
  intros <- h s [a Ha]. revert Ha. unfold call. case_match; simpl; [done|].
  by rewrite app_nil_r.
Qed.

Lemma traced_bind {A B X} (g : Event -> list X) l1 l2 (m : M A)
    (k : A -> M B) :
  traced g l1 m -> (forall a, traced g l2 (k a)) ->
  traced g (l1 ++ l2) (bind m k).
Proof.
  intros Hm Hk h s Hr.
  destruct (returned_bind m k h s Hr) as (a & Ha & -> & Hk').
  simpl. rewrite flat_map_app. f_equal; [apply Hm; by exists a | by apply Hk].
Qed.

Lemma traced_bind_call {A B X} (g : Event -> list X) x l c (v : A)
    (k : A -> M B) :
  g (Ev c Returned) = x -> traced g l (k v) ->
  traced g (x ++ l) (bind (call L c v) k).
Proof.
  intros <- Hk h s. rewrite bind_call. case_match; [by intros [? ?]|].
  intros [b Hb]. simpl. f_equal. apply Hk. by exists b.
Qed.

Lemma traced_bind_makedirs {B X} (g : Event -> list X) l x p
    (k : unit -> M B) :
  g (Ev (Makedirs p) Returned) = x -> g (Ev (Makedirs p) Created) = x ->
  traced g l (k tt) ->
  traced g (x ++ l) (bind (makedirs L p) k).
Proof.
  intros H1 H2 Hk h s. rewrite bind_makedirs.
  case_match; [by intros [? ?]|]. case_match; [by intros [? ?]|].
  intros [b Hb]. simpl. f_equal.
  - unfold makedirs_outcome. by case_match.
  - apply Hk. by exists b.
Qed.

Lemma traced_bind_lookup_geogrid {B X} (g : Event -> list X) l id
    (k : GeoGrid -> M B) :
  (forall gg, traced g l (k gg)) ->
  traced g l (bind (lookup_geogrid id) k).
Proof.
  intros Hk h s. rewrite bind_lookup_geogrid.
  case_match; [apply Hk | by intros [? ?]].
Qed.

Lemma traced_with {A X} (g : Event -> list X) x y l o c (body : M A) :
  g (Ev o Returned) = x -> g (Ev c Returned) = y -> traced g l body ->
  traced g (x ++ l ++ y) (with_ L o c body).
Proof.
  intros <- <- Hb h s. rewrite run_with. case_match; [by intros [? ?]|].
  intros [b Hr]. simpl in *. f_equal. rewrite flat_map_app. simpl.
  rewrite app_nil_r. f_equal. apply Hb. by exists b.
Qed.

Lemma traced_if {A X} (g : Event -> list X) l1 l2 (b : bool) (m1 m2 : M A) :
  traced g l1 m1 -> traced g l2 m2 ->
  traced g (if b then l1 else l2) (if b then m1 else m2).
Proof. by destruct b. Qed.

Lemma traced_eq {A X} (g : Event -> list X) l l' (m : M A) :
  traced g l' m -> l = l' -> traced g l m.
Proof. by intros H ->. Qed.

(** Rules for [counted] *)

Lemma counted_emits {A} f (m : M A) :
  emits (fun ev => f ev = false) m -> counted f 0 m.
Proof. intros Hm h s. rewrite (emits_count f m Hm). auto with lia. Qed.

Lemma counted_bind_silent {A B} f n (m : M A) (k : A -> M B) :
  emits (fun ev => f ev = false) m -> (forall a, counted f n (k a)) ->
  counted f n (bind m k).
Proof.
  intros Hm Hk h s. pose proof (emits_count f m Hm h s) as H0.
  destruct (bind_cases m k h s) as [(e & He & ->) | (a & Ha & ->)]; simpl.
  - split; [lia | by intros [? ?]].
  - rewrite count_app, H0. simpl. apply Hk.
Qed.

Lemma counted_bind_call {A B} f n c (v : A) (k : A -> M B) :
  (forall o, f (Ev c o) = false) -> counted f n (k v) ->
  counted f n (bind (call L c v) k).
Proof.
  intros Hc Hk h s. rewrite bind_call. case_match; simpl.
  - rewrite Hc. split; [lia | by intros [? ?]].
  - rewrite Hc. apply Hk.
Qed.

Lemma counted_then_silent {A B} f n (m : M A) (k : A -> M B) :
  counted f n m -> (forall a, emits (fun ev => f ev = false) (k a)) ->
  counted f n (bind m k).
Proof.
  intros Hm Hk h s. destruct (Hm h s) as [Hle Hret].
  destruct (bind_cases m k h s) as [(e & He & ->) | (a & Ha & ->)]; simpl.
  - split; [done | by intros [? ?]].
  - rewrite count_app, (emits_count f (k a) (Hk a)), Nat.add_0_r.
    split; [done|]. intros _. apply Hret. by exists a.
Qed.

(** Rules for [propagates] *)

Lemma closing_not_raised ev : closing ev -> not_raised ev.
Proof. by destruct ev as [[] []]. Qed.

Lemma propagated_raise_cast {A B} evs e :
  @propagated A evs (inl e) -> @propagated B evs (inl e).
Proof. inversion 1; subst; by constructor. Qed.

Lemma propagated_app {A B} evs1 evs2 (a : A) (r : Exn + B) :
  propagated evs1 (inr a) -> propagated evs2 r -> propagated (evs1 ++ evs2) r.
Proof.
  intros H1 H2. inversion H1 as [? ? Hc1| |]; subst.
  inversion H2 as [? ? Hc2|? ? Hc2 Ho|? ? ? ? Hc2 Hcl]; subst.
  - constructor. by apply Forall_app.
  - constructor; [by apply Forall_app | done].
  - rewrite app_assoc. constructor; [by apply Forall_app | done].
Qed.

Lemma propagates_ret {A} (a : A) : propagates (ret a).
Proof. intros h s. by constructor. Qed.

Lemma propagates_raise {A} e : own_exn e -> propagates (@raise A e).
Proof. intros He h s. by constructor. Qed.

Lemma propagates_path_exists p : propagates (path_exists p).
Proof. intros h s. by constructor. Qed.

Lemma propagates_lookup_geogrid id : propagates (lookup_geogrid id).
Proof. intros h s. unfold lookup_geogrid. case_match; by constructor. Qed.

Lemma propagates_lookup_output_paths cfg key :
  propagates (lookup_output_paths cfg key).
Proof.
  intros h s. unfold lookup_output_paths. case_match; by constructor.
Qed.

Lemma propagates_call {A} c (v : A) : propagates (call L c v).
Proof.
  intros h s. unfold call. case_match; simpl.
  - apply (propagated_ext [] c _ []); constructor.
  - constructor. by repeat constructor.
Qed.

Lemma propagates_makedirs p : propagates (makedirs L p).
Proof.
  intros h s. unfold makedirs. repeat case_match; simpl;
    first [ apply (propagated_ext [] (Makedirs p) _ []); constructor
          | constructor; by repeat constructor ].
Qed.

Lemma propagates_bind {A B} (m : M A) (k : A -> M B) :
  propagates m -> (forall a, propagates (k a)) -> propagates (bind m k).
Proof.
  intros Hm Hk h s. specialize (Hm h s).
  destruct (bind_cases m k h s) as [(e & He & ->) | (a & Ha & ->)]; simpl.
  - rewrite He in Hm. by apply (propagated_raise_cast (A:=A)).
  - rewrite Ha in Hm. eapply propagated_app; [exact Hm | apply Hk].
Qed.

Lemma propagates_with {A} o c (body : M A) :
  closing (Ev c Returned) -> propagates body ->
  propagates (with_ L o c body).
Proof.
  intros Hc Hb h s. rewrite run_with. case_match; simpl.
  { apply (propagated_ext [] o _ []); constructor. }
  specialize (Hb (h ++ [Ev o Returned]) s).
  destruct (body (h ++ [Ev o Returned]) s) as [evs st res]; simpl in *.
  assert (Hcn : not_raised (Ev c Returned)) by by apply closing_not_raised.
  inversion Hb as [? ? Hn|? ? Hn Ho|pre c' e' cl Hn Hcl]; subst.
  - constructor. constructor; [done|]. apply Forall_app. split; [done|].
    by constructor.
  - constructor; [|done]. constructor; [done|]. apply Forall_app.
    split; [done|]. by constructor.
  - rewrite <- app_assoc. simpl.
    apply (propagated_ext (Ev o Returned :: pre) c' e' (cl ++ [Ev c Returned])).
    + by constructor.
    + apply Forall_app. split; [done | by constructor].
Qed.

Lemma propagates_for_in {X S} (xs : list X) (body : S -> X -> M S) acc :
  (forall acc x, propagates (body acc x)) ->
  propagates (for_in xs body acc).
Proof.
  intros Hb. revert acc. induction xs as [|x xs IH]; intros acc; simpl.
  - apply propagates_ret.
  - apply propagates_bind; auto.
Qed.

(** What [propagated] says about the place where a call raised. *)
Lemma propagated_at {A} evs (r : Exn + A) i c e :
  propagated evs r -> evs !! i = Some (Ev c (Raised e)) ->
  r = inl e /\
  (forall j ev, (j < i)%nat -> evs !! j = Some ev -> not_raised ev) /\
  (forall j ev, (i < j)%nat -> evs !! j = Some ev -> closing ev).
Proof.
  intros Hp Hi.
  assert (Hclean : forall l, Forall not_raised l ->
                             l !! i = Some (Ev c (Raised e)) -> False).
  { intros l Hl Hli. rewrite Forall_lookup in Hl. exact (Hl _ _ Hli). }
  inversion Hp as [? ? Hn|? ? Hn Ho|pre c' e' cl Hn Hcl]; subst;
    try (by destruct (Hclean _ Hn Hi)).
  destruct (lt_eq_lt_dec i (length pre)) as [[Hlt|Heq]|Hgt].
  - rewrite lookup_app_l in Hi by done. by destruct (Hclean _ Hn Hi).
  - subst i. rewrite list_lookup_middle in Hi by done. simplify_eq.
    split; [done|]. split.
    + intros j ev Hj Hev. rewrite lookup_app_l in Hev by done.
      rewrite Forall_lookup in Hn. by apply (Hn _ _ Hev).
    + intros j ev Hj Hev. rewrite lookup_app_r in Hev by lia.
      destruct (j - length pre)%nat as [|k] eqn:Hk; [lia|]. simpl in Hev.
      rewrite Forall_lookup in Hcl. by apply (Hcl _ _ Hev).
  - rewrite lookup_app_r in Hi by lia.
    destruct (i - length pre)%nat as [|k] eqn:Hk; [lia|]. simpl in Hi.
    rewrite Forall_lookup in Hcl. exfalso. exact (Hcl _ _ Hi).
Qed.

Lemma propagated_ends {A} evs (r : Exn + A) i c e :
  propagated evs r -> Forall (fun ev => ~ closing ev) evs ->
  evs !! i = Some (Ev c (Raised e)) ->
  r = inl e /\ length evs = S i.
Proof.
  intros Hp Hnc Hi. destruct (propagated_at evs r i c e Hp Hi) as (-> & _ & Hl).
  split; [done|]. apply lookup_lt_Some in Hi as Hlt.
  destruct (decide (length evs = S i)) as [|Hne]; [done|].
  destruct (lookup_lt_is_Some_2 evs (S i)) as [ev Hev]; [lia|].
  rewrite Forall_lookup in Hnc. destruct (Hnc _ _ Hev). apply (Hl (S i)); [lia|done].
Qed.

Lemma propagates_stops {A} (m : M A) h s i c e :
  propagates m -> raised_at (m h s) i c e -> stops_at (m h s) i e.
Proof. intros Hm Hi. by eapply propagated_at. Qed.

Lemma propagates_ends {A} (m : M A) h s i c e :
  propagates m -> emits (fun ev => ~ closing ev) m ->
  raised_at (m h s) i c e -> ends_at (m h s) i e.
Proof. intros Hm Hq Hi. eapply propagated_ends; eauto. Qed.

Lemma propagates_source {A} (m : M A) h s :
  propagates m -> error_source (m h s).
Proof.
  intros Hm e He. specialize (Hm h s). rewrite He in Hm.
  inversion Hm as [|? ? Hn Ho|pre c ? cl Hn Hcl Hev]; subst.
  - by left.
  - right. exists (length pre), c. unfold raised_at. rewrite <- Hev.
    by apply list_lookup_middle.
Qed.

(** Rules for [frames] *)

Lemma tracked_refl s : tracked s [] s.
Proof. split; [done|]. intros p. by left. Qed.

Lemma tracked_trans s1 evs1 s2 evs2 s3 :
  tracked s1 evs1 s2 -> tracked s2 evs2 s3 -> tracked s1 (evs1 ++ evs2) s3.
Proof.
  intros [Hg1 H1] [Hg2 H2]. split; [congruence|]. intros p.
  rewrite count_app.
  destruct (H1 p) as [[-> E1]|(-> & E1 & E1')],
           (H2 p) as [[-> E2]|(-> & E2 & E2')]; simpl.
  - left. split; [done | congruence].
  - right. split; [done|]. split; congruence.
  - right. split; [done|]. split; congruence.
  - congruence.
Qed.

Lemma tracked_quiet s ev :
  (forall p, is_created p ev = false) -> tracked s [ev] s.
Proof. intros Hev. split; [done|]. intros p. left. simpl. by rewrite Hev. Qed.

Lemma frames_ret {A} (a : A) : frames (ret a).
Proof. intros h s. apply tracked_refl. Qed.

Lemma frames_raise {A} e : frames (@raise A e).
Proof. intros h s. apply tracked_refl. Qed.

Lemma frames_path_exists p : frames (path_exists p).
Proof. intros h s. apply tracked_refl. Qed.

Lemma frames_lookup_geogrid id : frames (lookup_geogrid id).
Proof. intros h s. unfold lookup_geogrid. case_match; apply tracked_refl. Qed.

Lemma frames_lookup_output_paths cfg key :
  frames (lookup_output_paths cfg key).
Proof.
  intros h s. unfold lookup_output_paths. case_match; apply tracked_refl.
Qed.

Lemma frames_call {A} c (v : A) : frames (call L c v).
Proof.
  intros h s. unfold call. case_match; simpl; apply tracked_quiet;
    intros p; by destruct c.
Qed.

Lemma frames_makedirs p : frames (makedirs L p).
Proof.
  intros h s. unfold makedirs. case_match; simpl.
  { by apply tracked_quiet. }
  destruct (fs s !! p) as [[]|] eqn:Hp; simpl;
    try by apply tracked_quiet.
  split; [done|]. intros q. simpl.
  destruct (decide (p = q)) as [->|Hne].
  - right. rewrite bool_decide_eq_true_2 by done.
    by rewrite lookup_insert_eq.
  - left. rewrite bool_decide_eq_false_2 by done.
    by rewrite lookup_insert_ne.
Qed.

Lemma frames_bind {A B} (m : M A) (k : A -> M B) :
  frames m -> (forall a, frames (k a)) -> frames (bind m k).
Proof.
  intros Hm Hk h s.
  destruct (bind_cases m k h s) as [(e & He & ->) | (a & Ha & ->)]; simpl.
  - apply Hm.
  - eapply tracked_trans; [apply Hm | apply Hk].
Qed.

Lemma frames_with {A} o c (body : M A) :
  (forall p, is_created p (Ev c Returned) = false) ->
  frames body -> frames (with_ L o c body).
Proof.
  intros Hc Hb h s. rewrite run_with. case_match; simpl.
  { apply tracked_quiet. intros p. by destruct o. }
  apply (tracked_trans s [Ev o Returned] s).
  { apply tracked_quiet. intros p. by destruct o. }
  eapply tracked_trans; [apply Hb | by apply tracked_quiet].
Qed.

Lemma frames_for_in {X S} (xs : list X) (body : S -> X -> M S) acc :
  (forall acc x, frames (body acc x)) -> frames (for_in xs body acc).
Proof.
  intros Hb. revert acc. induction xs as [|x xs IH]; intros acc; simpl.
  - apply frames_ret.
  - apply frames_bind; auto.
Qed.

Lemma tracked_created_once s evs s' p :
  tracked s evs s' -> (count (is_created p) evs <= 1)%nat.
Proof. intros [_ H]. destruct (H p) as [[-> _]|[-> _]]; lia. Qed.

Lemma tracked_dir_stays s evs s' p :
  tracked s evs s' -> fs s !! p = Some Dir -> fs s' !! p = Some Dir.
Proof. intros [_ H] Hp. destruct (H p) as [[_ E]|(_ & E & _)]; congruence. Qed.

Lemma tracked_fresh_dir s evs s' p :
  tracked s evs s' -> fs s !! p = None -> fs s' !! p = Some Dir ->
  count (is_created p) evs = 1%nat.
Proof. intros [_ H] Hp Hp'. destruct (H p) as [[_ E]|[E _]]; congruence. Qed.

(** Rules for [reads] *)

Lemma reads_ret {A} Q (a : A) : reads Q (ret a).
Proof. intros h s. by split; [constructor|]. Qed.

Lemma reads_raise {A} Q e : reads Q (@raise A e).
Proof. intros h s. by split; [constructor|]. Qed.

Lemma reads_lookup_output_paths Q cfg key :
  reads Q (lookup_output_paths cfg key).
Proof.
  unfold lookup_output_paths. case_match; [apply reads_ret | apply reads_raise].
Qed.

Lemma reads_call {A} (Q : gmap string GeoGrid -> Event -> Prop) c (v : A) :
  (forall G o, Q G (Ev c o)) -> reads Q (call L c v).
Proof.
  intros HQ h s. unfold call. case_match; simpl; (split; [|done]); auto.
Qed.

Lemma reads_makedirs (Q : gmap string GeoGrid -> Event -> Prop) p :
  (forall G o, Q G (Ev (Makedirs p) o)) -> reads Q (makedirs L p).
Proof.
  intros HQ h s. unfold makedirs.
  repeat case_match; simpl; (split; [|done]); auto.
Qed.

Lemma reads_bind {A B} Q (m : M A) (k : A -> M B) :
  reads Q m -> (forall a, reads Q (k a)) -> reads Q (bind m k).
Proof.
  intros Hm Hk h s. destruct (Hm h s) as [Hq Hg].
  destruct (bind_cases m k h s) as [(e & He & ->) | (a & Ha & ->)]; simpl.
  - done.
  - destruct (Hk a (h ++ events (m h s)) (final (m h s))) as [Hq' Hg'].
    rewrite Hg in Hq'. split; [by apply Forall_app | congruence].
Qed.

Lemma reads_bind_call {A B} (Q : gmap string GeoGrid -> Event -> Prop)
    c (v : A) (k : A -> M B) :
  (forall G o, Q G (Ev c o)) -> reads Q (k v) -> reads Q (bind (call L c v) k).
Proof.
  intros HQ Hk h s. rewrite bind_call. case_match; simpl.
  - split; [|done]. auto.
  - destruct (Hk (h ++ [Ev c Returned]) s) as [Hq Hg].
    split; [constructor; auto | done].
Qed.

Lemma reads_bind_lookup_geogrid {B}
    (Q : gmap string GeoGrid -> Event -> Prop) id (k : GeoGrid -> M B) :
  (forall g, reads (fun G ev => G !! id = Some g -> Q G ev) (k g)) ->
  reads Q (bind (lookup_geogrid id) k).
Proof.
  intros Hk h s. rewrite bind_lookup_geogrid.
  destruct (geogrids s !! id) as [g|] eqn:Hg; simpl.
  - destruct (Hk g h s) as [Hq Hf]. split; [|done].
    eapply Forall_impl; [exact Hq|]. auto.
  - by split; [constructor|].
Qed.

Lemma reads_with {A} (Q : gmap string GeoGrid -> Event -> Prop) o c
    (body : M A) :
  (forall G x, Q G (Ev o x)) -> (forall G, Q G (Ev c Returned)) ->
  reads Q body -> reads Q (with_ L o c body).
Proof.
  intros Ho Hc Hb h s. rewrite run_with. case_match; simpl.
  - split; [|done]. auto.
  - destruct (Hb (h ++ [Ev o Returned]) s) as [Hq Hg]. split; [|done].
    constructor; [auto|]. apply Forall_app. split; [done|]. auto.
Qed.

Lemma reads_for_in {X S} Q (xs : list X) (body : S -> X -> M S) acc :
  (forall acc x, reads Q (body acc x)) -> reads Q (for_in xs body acc).
Proof.
  intros Hb. revert acc. induction xs as [|x xs IH]; intros acc; simpl.
  - apply reads_ret.
  - apply reads_bind; auto.
Qed.

(** Rules for [ensures] *)

Lemma ensures_makedirs p : ensures p (makedirs L p).
Proof.
  intros h s [[] Hr]. revert Hr. unfold makedirs.
  case_match; [done|]. destruct (fs s !! p) as [[]|] eqn:Hp; simpl; try done.
  intros _. by rewrite lookup_insert_eq.
Qed.

Lemma ensures_bind_r {A B} p (m : M A) (k : A -> M B) :
  (forall a, ensures p (k a)) -> ensures p (bind m k).
Proof.
  intros Hk h s Hr. destruct (returned_bind m k h s Hr) as (a & Ha & -> & Hk').
  simpl. by apply Hk.
Qed.

Lemma ensures_bind_l {A B} p (m : M A) (k : A -> M B) :
  ensures p m -> (forall a, frames (k a)) -> ensures p (bind m k).
Proof.
  intros Hm Hk h s Hr.
  destruct (returned_bind m k h s Hr) as (a & Ha & -> & Hk').
  simpl. eapply tracked_dir_stays; [apply Hk|]. apply Hm. by exists a.
Qed.

Lemma ensures_for_in {X S} p (xs : list X) (body : S -> X -> M S) x :
  x ∈ xs ->
  (forall acc, ensures p (body acc x)) ->
  (forall acc y, frames (body acc y)) ->
  forall acc, ensures p (for_in xs body acc).
Proof.
  intros Hx Hb Hf. induction xs as [|y xs IH]; intros acc; simpl.
  { by apply elem_of_nil in Hx. }
  apply elem_of_cons in Hx as [<-|Hx].
  - apply ensures_bind_l; [apply Hb|]. intros a. by apply frames_for_in.
  - apply ensures_bind_r. intros a. by apply IH.
Qed.

(** Further rules for [traced] and [emits] *)

Lemma traced_raise_nil {A X} (g : Event -> list X) e :
  traced g [] (@raise A e).
Proof. apply traced_raise. Qed.

Lemma traced_path_exists {X} (g : Event -> list X) p :
  traced g [] (path_exists p).
Proof. by intros h s _. Qed.

Lemma traced_lookup_output_paths {X} (g : Event -> list X) cfg key :
  traced g [] (lookup_output_paths cfg key).
Proof.
  unfold lookup_output_paths. case_match;
    [apply traced_ret | apply traced_raise].
Qed.

Lemma traced_for_in {X Y S} (g : Event -> list Y) (gx : X -> list Y)
    (xs : list X) (body : S -> X -> M S) acc :
  (forall acc x, traced g (gx x) (body acc x)) ->
  traced g (flat_map gx xs) (for_in xs body acc).
Proof.
  intros Hb. revert acc. induction xs as [|x xs IH]; intros acc; simpl.
  - apply traced_ret.
  - apply traced_bind; auto.
Qed.

Lemma emits_for_in_elem {X S} Q (xs : list X) (body : S -> X -> M S) acc :
  (forall acc x, x ∈ xs -> emits Q (body acc x)) ->
  emits Q (for_in xs body acc).
Proof.
  revert acc. induction xs as [|x xs IH]; intros acc Hb; simpl.
  - apply emits_ret.
  - apply emits_bind; [apply Hb; left|].
    intros a. apply IH. intros acc' y Hy. apply Hb. by right.
Qed.

Lemma count_flat_map f evs :
  count f evs = length (flat_map (fun ev => if f ev then [tt] else []) evs).
Proof.
  induction evs as [|ev evs IH]; simpl; [done|].
  rewrite length_app, IH. by destruct (f ev).
Qed.

End Logic.

(** *** Tactics that walk a wrapper along its structure *)

Ltac emits_step side :=
  first
    [ apply emits_bind_call; [intros; side | ]
    | apply emits_bind; [ | intros ? ]
    | apply emits_call; intros; side
    | apply emits_makedirs; intros; side
    | apply emits_with; [intros; side | side | ]
    | apply emits_ret | apply emits_raise | apply emits_path_exists
    | apply emits_lookup_geogrid | apply emits_lookup_output_paths
    | match goal with
      | |- emits _ (if ?b then _ else _) => destruct b
      | |- emits _ (match ?x with _ => _ end) => destruct x
      end ].

Ltac emits_with side := repeat (cbv beta zeta; emits_step side).
Ltac emits_tac := emits_with ltac:(done).

Ltac propagates_step :=
  first
    [ apply propagates_bind; [ | intros ? ]
    | apply propagates_call | apply propagates_makedirs
    | apply propagates_with; [done | ]
    | apply propagates_for_in; intros ? ?
    | apply propagates_ret | apply propagates_raise; done
    | apply propagates_path_exists
    | apply propagates_lookup_geogrid | apply propagates_lookup_output_paths
    | match goal with
      | |- propagates (if ?b then _ else _) => destruct b
      | |- propagates (match ?x with _ => _ end) => destruct x
      end ].

Ltac propagates_tac := repeat (cbv beta zeta; propagates_step).

Ltac frames_step :=
  first
    [ apply frames_bind; [ | intros ? ]
    | apply frames_call | apply frames_makedirs
    | apply frames_with; [done | ]
    | apply frames_for_in; intros ? ?
    | apply frames_ret | apply frames_raise | apply frames_path_exists
    | apply frames_lookup_geogrid | apply frames_lookup_output_paths
    | match goal with
      | |- frames (if ?b then _ else _) => destruct b
      | |- frames (match ?x with _ => _ end) => destruct x
      end ].

Ltac frames_tac := repeat (cbv beta zeta; frames_step).

Ltac trace_side := cbv beta; autounfold with trace; simpl; reflexivity.

Ltac traced_step :=
  first
    [ apply traced_bind_call; [trace_side | ]
    | apply traced_bind_makedirs; [trace_side | trace_side | ]
    | apply traced_bind_lookup_geogrid; intros ?
    | apply traced_bind; [ | intros ? ]
    | apply traced_call; trace_side
    | apply traced_ret | apply traced_raise_nil
    | apply traced_with; [trace_side | trace_side | ]
    | apply traced_path_exists
    | apply traced_lookup_output_paths
    | apply traced_if
    | match goal with
      | |- traced _ _ (match ?x with _ => _ end) => destruct x
      end ].

(** [traced g l m] for an explicit [l]: the structure of [m] yields a
    list, which [fin] then shows equal to [l]. *)
Ltac traced_with fin :=
  eapply traced_eq; [repeat (cbv beta zeta iota; traced_step) | fin].

Ltac reads_step side :=
  first
    [ apply reads_bind_call; [intros; side | ]
    | apply reads_bind_lookup_geogrid; intros ?
    | apply reads_bind; [ | intros ? ]
    | apply reads_call; intros; side
    | apply reads_makedirs; intros; side
    | apply reads_with; [intros; side | intros; side | ]
    | apply reads_for_in; intros ? ?
    | apply reads_ret | apply reads_raise | apply reads_lookup_output_paths
    | match goal with
      | |- reads _ (if ?b then _ else _) => destruct b
      | |- reads _ (match ?x with _ => _ end) => destruct x
      end ].

Ltac reads_with side := repeat (cbv beta zeta; reads_step side).

(** The paths an event writes are among those listed for the burst [b]. *)
Ltac in_forms b :=
  simpl;
  first [ by apply List.Forall_nil
        | apply List.Forall_cons;
          [exists b; split;
           [done | autounfold with trace; simpl; by repeat constructor]
          |by apply List.Forall_nil] ].

(** The side conditions of a property [Q] given call by call in [HQ]. *)
Ltac by_calls HQ :=
  idtac; match goal with
         | |- context [Ev ?c ?o] => first [exact (HQ c o) | exact (HQ c o eq_refl)]
         end.

(** ** s1_geo2rdr.run: once per (burst id, date) pair *)

Section Geo2rdr.
Context (L : Library).

(** What one burst does to the count of engine constructions or
    invocations for a pair [p], whether it returns or raises. *)
Lemma geo2rdr_burst_count cfg on_gpu ell thr it bl processed burst h s
    (p : string * string) (f : Event -> bool) :
  f = is_geo2rdr_init p \/ f = is_geo2rdr_run p ->
  let r := geo2rdr_burst L cfg on_gpu ell thr it bl processed burst h s in
  let q := id_date_of burst in
  let n := if bool_decide (q ∈ processed) then 0%nat
           else if bool_decide (q = p) then 1%nat else 0%nat in
  (count f (events r) <= n)%nat /\
  forall a, result r = inr a ->
    count f (events r) = n /\
    a = if bool_decide (q ∈ processed) then processed else processed ++ [q].
Proof.
  intros Hf r q n. subst r n q.
  unfold geo2rdr_burst, raster_open, as_isce3_radargrid.
  fold (id_date_of burst).
  destruct (bool_decide (id_date_of burst ∈ processed)) eqn:Hin;
  destruct (bool_decide (id_date_of burst = p)) eqn:Hp;
  destruct Hf as [-> | ->];
  exec_with ltac:(simpl; unfold obj_id_date; simpl; rewrite ?Hp; simpl;
                  split; [lia | by intros; simplify_eq]).
Qed.

Lemma geo2rdr_loop_count cfg on_gpu ell thr it bl bs
    (p : string * string) (f : Event -> bool) :
  f = is_geo2rdr_init p \/ f = is_geo2rdr_run p ->
  forall processed h s,
  let r := for_in bs (geo2rdr_burst L cfg on_gpu ell thr it bl) processed h s in
  let n := if bool_decide (p ∈ processed) then 0%nat
           else if bool_decide (p ∈ map id_date_of bs) then 1%nat
           else 0%nat in
  (count f (events r) <= n)%nat /\
  (returned r -> count f (events r) = n).
Proof.
  intros Hf. induction bs as [|b bs IH]; intros processed h s; simpl.
  { unfold ret, returned. simpl. repeat case_bool_decide; lia. }
  pose proof (geo2rdr_burst_count cfg on_gpu ell thr it bl processed b h s
                p f Hf) as [Hle Hret]. simpl in Hle, Hret.
  destruct (bind_cases
    (geo2rdr_burst L cfg on_gpu ell thr it bl processed b)
    (fun acc => for_in bs (geo2rdr_burst L cfg on_gpu ell thr it bl) acc)
    h s) as [(e & He & ->) | (a & Ha & ->)]; simpl.
  - split.
    + repeat case_bool_decide; try lia; set_solver.
    + intros [? ?]; simplify_eq.
  - destruct (Hret a Ha) as [Hn ->]. rewrite count_app, Hn.
    match goal with
    | |- context [for_in _ _ ?pr ?h' ?s'] =>
        specialize (IH pr h' s') as [IHle IHret]
    end.
    simpl in IHle, IHret.
    assert (Hsum :
      ((if bool_decide (id_date_of b ∈ processed) then 0
        else if bool_decide (id_date_of b = p) then 1 else 0) +
       (if bool_decide (p ∈ (if bool_decide (id_date_of b ∈ processed)
                             then processed
                             else processed ++ [id_date_of b]))
        then 0
        else if bool_decide (p ∈ map id_date_of bs) then 1 else 0) =
       (if bool_decide (p ∈ processed) then 0
        else if bool_decide (p ∈ id_date_of b :: map id_date_of bs) then 1
             else 0))%nat).
    { repeat case_bool_decide; try lia; set_solver. }
    split; [lia|]. intros [u Hu]. rewrite IHret; [lia | by exists u].
Qed.

Lemma geo2rdr_burst_emits (Q : Event -> Prop) cfg on_gpu ell thr it bl
    processed b :
  (forall c o, match c with
               | Makedirs _ | RasterOpen _ | AsRadargrid _ | LUT2dDefault
               | Geo2RdrInit _ | Geo2RdrRun _ _ _ => Q (Ev c o)
               | _ => True
               end) ->
  emits Q (geo2rdr_burst L cfg on_gpu ell thr it bl processed b).
Proof.
  intros HQ. unfold geo2rdr_burst, raster_open, as_isce3_radargrid.
  emits_with ltac:(by_calls HQ).
Qed.

Lemma s1_geo2rdr_run_emits (Q : Event -> Prop) cfg :
  (forall c o, match c with
               | JournalLog _ _ | GetEpsg _ | MakeProjection _ | GpuCheck _ _
               | CudaDevice _ | CudaSetDevice _
               | Makedirs _ | RasterOpen _ | AsRadargrid _ | LUT2dDefault
               | Geo2RdrInit _ | Geo2RdrRun _ _ _ => Q (Ev c o)
               | _ => True
               end) ->
  emits Q (s1_geo2rdr_run L cfg).
Proof.
  intros HQ. unfold s1_geo2rdr_run, journal_log, raster_open.
  do 5 (apply emits_bind_call; [intros; by_calls HQ|]).
  cbv beta zeta. apply emits_bind; [emits_with ltac:(by_calls HQ)|].
  intros _. apply emits_bind; [|intros; emits_with ltac:(by_calls HQ)].
  apply emits_for_in. intros acc b. apply geo2rdr_burst_emits.
  intros c o. specialize (HQ c o). by destruct c.
Qed.

Lemma s1_geo2rdr_run_count cfg (p : string * string) (f : Event -> bool) :
  f = is_geo2rdr_init p \/ f = is_geo2rdr_run p ->
  counted f (if bool_decide (p ∈ map id_date_of (bursts cfg)) then 1%nat
               else 0%nat)
          (s1_geo2rdr_run L cfg).
Proof.
  intros Hf. unfold s1_geo2rdr_run, journal_log, raster_open.
  do 5 (apply counted_bind_call; [by destruct Hf as [-> | ->]|]).
  cbv beta zeta. apply counted_bind_silent.
  { destruct Hf as [-> | ->]; emits_tac. }
  intros _. apply counted_then_silent.
  - intros h s. by apply (geo2rdr_loop_count cfg _ _ _ _ _ _ p f Hf []).
  - intros _. destruct Hf as [-> | ->]; emits_tac.
Qed.

End Geo2rdr.

(** ** The wrappers, one structural fact at a time *)

Section Structure.
Context (L : Library).

Lemma s1_geo2rdr_run_propagates cfg : propagates (s1_geo2rdr_run L cfg).
Proof.
  unfold s1_geo2rdr_run, geo2rdr_burst, journal_log, raster_open,
    as_isce3_radargrid. propagates_tac.
Qed.

Lemma s1_cslc_run_propagates cfg : propagates (s1_cslc_run L cfg).
Proof.
  unfold s1_cslc_run. destruct (is_reference cfg).
  - apply propagates_call.
  - apply propagates_bind; [apply s1_geo2rdr_run_propagates|].
    intros _. apply propagates_call.
Qed.

Lemma s1_geocode_metadata_run_propagates cfg burst fetch :
  propagates (s1_geocode_metadata_run L cfg burst fetch).
Proof.
  unfold s1_geocode_metadata_run, geocode_layer, journal_log, raster_open,
    as_isce3_radargrid. propagates_tac.
Qed.

Lemma s1_geocode_slc_run_propagates cfg :
  propagates (s1_geocode_slc_run L cfg).
Proof.
  unfold s1_geocode_slc_run, geocode_slc_burst, call_s1_geocode_metadata_run,
    journal_log, raster_open, as_isce3_radargrid. propagates_tac.
Qed.

Lemma compute_luts_propagates burst rg az dem scratch :
  propagates (compute_geocoding_correction_luts L burst rg az dem scratch).
Proof. unfold compute_geocoding_correction_luts. propagates_tac. Qed.

Lemma s1_geo2rdr_run_frames cfg : frames (s1_geo2rdr_run L cfg).
Proof.
  unfold s1_geo2rdr_run, geo2rdr_burst, journal_log, raster_open,
    as_isce3_radargrid. frames_tac.
Qed.

Lemma s1_geocode_metadata_run_frames cfg burst fetch :
  frames (s1_geocode_metadata_run L cfg burst fetch).
Proof.
  unfold s1_geocode_metadata_run, geocode_layer, journal_log, raster_open,
    as_isce3_radargrid. frames_tac.
Qed.

Lemma s1_geocode_slc_run_frames cfg : frames (s1_geocode_slc_run L cfg).
Proof.
  unfold s1_geocode_slc_run, geocode_slc_burst, call_s1_geocode_metadata_run,
    journal_log, raster_open, as_isce3_radargrid. frames_tac.
Qed.

Lemma s1_cslc_run_emits (Q : Event -> Prop) cfg :
  (forall c o, match c with
               | JournalLog _ _ | GetEpsg _ | MakeProjection _ | GpuCheck _ _
               | CudaDevice _ | CudaSetDevice _
               | Makedirs _ | RasterOpen _ | AsRadargrid _ | LUT2dDefault
               | Geo2RdrInit _ | Geo2RdrRun _ _ _ | RunStage _ _ _ =>
                   Q (Ev c o)
               | _ => True
               end) ->
  emits Q (s1_cslc_run L cfg).
Proof.
  intros HQ. unfold s1_cslc_run. destruct (is_reference cfg).
  - apply emits_call. intros. by_calls HQ.
  - apply emits_bind; [|intros; apply emits_call; intros; by_calls HQ].
    apply s1_geo2rdr_run_emits. intros c o. specialize (HQ c o).
    by destruct c.
Qed.

Lemma compute_luts_emits (Q : Event -> Prop) burst rg az dem scratch :
  (forall c o, match c with
               | BistaticDelay _ _ _ | GeometricalAndSteeringDoppler _ _ _
               | AzFmRateMismatchMitigation _ _ _ _ _ | NpAdd _ _
               | LUT2dNew _ _ _ _ _ => Q (Ev c o)
               | _ => True
               end) ->
  emits Q (compute_geocoding_correction_luts L burst rg az dem scratch).
Proof.
  intros HQ. unfold compute_geocoding_correction_luts.
  emits_with ltac:(by_calls HQ).
Qed.

Lemma s1_cslc_run_frames cfg : frames (s1_cslc_run L cfg).
Proof.
  unfold s1_cslc_run. destruct (is_reference cfg).
  - apply frames_call.
  - apply frames_bind; [apply s1_geo2rdr_run_frames|].
    intros _. apply frames_call.
Qed.

Lemma s1_geocode_metadata_run_emits (Q : Event -> Prop) cfg burst fetch :
  (forall c o, match c with
               | JournalLog _ _ | RasterOpen _ | GetEpsg _ | MakeProjection _
               | LUT2dDefault | AsRadargrid _ | GeocodeInit | GeocodeSetAttr _
               | GeocodeGeogrid _ _ _ _ _ _ _ | H5Open _ _ | H5Close _
               | H5CreateDataset _ _ _ _ | H5SetAttr _ _ _ _
               | RasterOpenH5 _ _ | GeocodeRun _ _ _ _ _
               | SetGeotransform _ _ | SetEpsg _ _ | DelRaster _ => Q (Ev c o)
               | _ => True
               end) ->
  emits Q (s1_geocode_metadata_run L cfg burst fetch).
Proof.
  intros HQ.
  unfold s1_geocode_metadata_run, geocode_layer, journal_log, raster_open,
    as_isce3_radargrid.
  emits_with ltac:(by_calls HQ).
Qed.

Lemma s1_geocode_slc_run_reads cfg id :
  reads (grid_as_stored id) (s1_geocode_slc_run L cfg).
Proof.
  unfold s1_geocode_slc_run, geocode_slc_burst, call_s1_geocode_metadata_run,
    journal_log, raster_open, as_isce3_radargrid.
  reads_with ltac:(simpl; eauto).
Qed.

Lemma s1_geocode_metadata_run_reads cfg burst fetch :
  reads (grid_as_stored (burst_id burst))
        (s1_geocode_metadata_run L cfg burst fetch).
Proof.
  unfold s1_geocode_metadata_run, geocode_layer, journal_log, raster_open,
    as_isce3_radargrid, path_exists.
  reads_with ltac:(simpl; eauto).
Qed.

End Structure.

(** ** Output directories *)

Section Directories.
Context (L : Library).

Lemma geo2rdr_burst_frames cfg on_gpu ell thr it bl processed b :
  frames (geo2rdr_burst L cfg on_gpu ell thr it bl processed b).
Proof.
  unfold geo2rdr_burst, raster_open, as_isce3_radargrid. frames_tac.
Qed.

Lemma geocode_slc_burst_frames cfg thr it bl fl b :
  frames (geocode_slc_burst L cfg thr it bl fl b).
Proof.
  unfold geocode_slc_burst, call_s1_geocode_metadata_run, raster_open,
    as_isce3_radargrid. frames_tac.
Qed.

Lemma geo2rdr_burst_top cfg on_gpu ell thr it bl processed b :
  ensures (top_output_path cfg b)
          (geo2rdr_burst L cfg on_gpu ell thr it bl processed b).
Proof.
  unfold geo2rdr_burst, raster_open, as_isce3_radargrid.
  apply ensures_bind_l; [apply ensures_makedirs|]. intros _. frames_tac.
Qed.

Lemma geo2rdr_burst_date_dir cfg on_gpu ell thr it bl processed b :
  id_date_of b ∉ processed ->
  ensures (burst_output_path cfg b)
          (geo2rdr_burst L cfg on_gpu ell thr it bl processed b).
Proof.
  intros Hnew. unfold geo2rdr_burst, raster_open, as_isce3_radargrid.
  fold (id_date_of b). rewrite bool_decide_eq_false_2 by done.
  apply ensures_bind_r. intros _. apply ensures_bind_r. intros topo.
  apply ensures_bind_l; [apply ensures_makedirs|]. intros _. frames_tac.
Qed.

Lemma geo2rdr_burst_value cfg on_gpu ell thr it bl processed b h s a :
  result (geo2rdr_burst L cfg on_gpu ell thr it bl processed b h s) = inr a ->
  a = if bool_decide (id_date_of b ∈ processed) then processed
      else processed ++ [id_date_of b].
Proof.
  intros Ha.
  destruct (geo2rdr_burst_count L cfg on_gpu ell thr it bl processed b h s
              (id_date_of b) _ (or_intror eq_refl)) as [_ Hret].
  by destruct (Hret a Ha) as [_ ->].
Qed.

Lemma geo2rdr_loop_dirs cfg on_gpu ell thr it bl bs :
  forall processed h s,
  let r := for_in bs (geo2rdr_burst L cfg on_gpu ell thr it bl) processed h s in
  returned r ->
  (forall b', id_date_of b' ∈ processed ->
              fs s !! burst_output_path cfg b' = Some Dir) ->
  forall b, b ∈ bs ->
    fs (final r) !! top_output_path cfg b = Some Dir /\
    fs (final r) !! burst_output_path cfg b = Some Dir.
Proof.
  induction bs as [|b0 bs IH]; intros processed h s r Hr Hinv b Hb;
    [by apply elem_of_nil in Hb|].
  subst r. simpl in *.
  destruct (returned_bind _ _ h s Hr) as (a & Ha & Hrun & Hk).
  rewrite Hrun. simpl.
  set (s1 := final (geo2rdr_burst L cfg on_gpu ell thr it bl processed b0 h s))
    in *.
  set (h1 := h ++ events (geo2rdr_burst L cfg on_gpu ell thr it bl processed
                            b0 h s)) in *.
  pose proof (geo2rdr_burst_frames cfg on_gpu ell thr it bl processed b0 h s)
    as Hfr. fold s1 in Hfr.
  pose proof (geo2rdr_burst_value _ _ _ _ _ _ _ _ _ _ _ Ha) as Hval.
  assert (Hsame : forall b1 b2, id_date_of b1 = id_date_of b2 ->
                    burst_output_path cfg b1 = burst_output_path cfg b2).
  { intros b1 b2 E.
    change (burst_output_path cfg b1) with
      ((scratch_path cfg +:+ "/" +:+ (id_date_of b1).1) +:+
       "/" +:+ (id_date_of b1).2).
    by rewrite E. }
  assert (H0 : fs s1 !! burst_output_path cfg b0 = Some Dir).
  { destruct (decide (id_date_of b0 ∈ processed)) as [Hin|Hnew].
    - eapply tracked_dir_stays; [exact Hfr | by apply Hinv].
    - apply (geo2rdr_burst_date_dir cfg on_gpu ell thr it bl processed b0 Hnew).
      by exists a. }
  assert (Hinv1 : forall b', id_date_of b' ∈ a ->
                    fs s1 !! burst_output_path cfg b' = Some Dir).
  { intros b' Hb'. subst a. case_bool_decide.
    - eapply tracked_dir_stays; [exact Hfr | by apply Hinv].
    - apply elem_of_app in Hb' as [Hb'|Hb'].
      + eapply tracked_dir_stays; [exact Hfr | by apply Hinv].
      + apply list_elem_of_singleton in Hb'. by rewrite (Hsame _ _ Hb'). }
  apply elem_of_cons in Hb as [->|Hb].
  - pose proof (frames_for_in bs (geo2rdr_burst L cfg on_gpu ell thr it bl)
                  a (fun acc x => geo2rdr_burst_frames cfg on_gpu ell thr it bl
                                    acc x) h1 s1) as Hrest.
    split; (eapply tracked_dir_stays; [exact Hrest|]); [|done].
    apply (geo2rdr_burst_top cfg on_gpu ell thr it bl processed b0).
    by exists a.
  - by apply (IH a h1 s1 Hk Hinv1).
Qed.

Lemma s1_geo2rdr_run_dirs cfg b :
  b ∈ bursts cfg ->
  ensures (top_output_path cfg b) (s1_geo2rdr_run L cfg) /\
  ensures (burst_output_path cfg b) (s1_geo2rdr_run L cfg).
Proof.
  intros Hb. unfold s1_geo2rdr_run, journal_log, raster_open.
  assert (Hloop : forall p, p = top_output_path cfg b \/
                            p = burst_output_path cfg b ->
    forall g e t i bl,
      ensures p (for_in (bursts cfg) (geo2rdr_burst L cfg g e t i bl) [])).
  { intros p Hp g e t i bl h s Hr.
    destruct (geo2rdr_loop_dirs cfg g e t i bl (bursts cfg) [] h s Hr) with b
      as [H1 H2]; [by intros ? ?%elem_of_nil | done |].
    by destruct Hp as [-> | ->]. }
  split.
  all: do 5 (apply ensures_bind_r; intros ?).
  all: apply ensures_bind_r; intros _.
  all: apply ensures_bind_l; [apply Hloop; auto | intros; frames_tac].
Qed.

Lemma geocode_slc_burst_dirs cfg thr it bl fl b :
  ensures (product_dir cfg b) (geocode_slc_burst L cfg thr it bl fl b) /\
  ensures (scratch_dir cfg b) (geocode_slc_burst L cfg thr it bl fl b).
Proof.
  unfold geocode_slc_burst, call_s1_geocode_metadata_run, raster_open,
    as_isce3_radargrid.
  split.
  - do 4 (apply ensures_bind_r; intros ?).
    apply ensures_bind_l; [apply ensures_makedirs | intros; frames_tac].
  - do 5 (apply ensures_bind_r; intros ?).
    apply ensures_bind_l; [apply ensures_makedirs | intros; frames_tac].
Qed.

Lemma s1_geocode_slc_run_dirs cfg b :
  b ∈ bursts cfg ->
  ensures (product_dir cfg b) (s1_geocode_slc_run L cfg) /\
  ensures (scratch_dir cfg b) (s1_geocode_slc_run L cfg).
Proof.
  intros Hb. unfold s1_geocode_slc_run, journal_log.
  split.
  all: do 2 (apply ensures_bind_r; intros ?).
  all: apply ensures_bind_l; [|intros; frames_tac].
  all: apply (ensures_for_in _ _ _ b Hb);
    [intros _; apply geocode_slc_burst_dirs
    |intros _ y; apply geocode_slc_burst_frames].
Qed.

End Directories.

(** ** s1_geocode_slc.run and s1_geocode_metadata.run: calls of the engine *)

Section Geocode.
Context (L : Library).

Lemma geocode_slc_burst_grid cfg thr it bl fl b :
  traced geocode_slc_grid [RadarGridOf b]
         (geocode_slc_burst L cfg thr it bl fl b).
Proof.
  unfold geocode_slc_burst, call_s1_geocode_metadata_run, raster_open,
    as_isce3_radargrid.
  traced_with ltac:(simpl; repeat case_match; simpl in *; done).
Qed.

Lemma s1_geocode_slc_run_grid cfg :
  traced geocode_slc_grid (map RadarGridOf (bursts cfg))
         (s1_geocode_slc_run L cfg).
Proof.
  unfold s1_geocode_slc_run, journal_log.
  eapply traced_eq.
  - do 2 (apply traced_bind_call; [trace_side|]). cbv beta zeta.
    apply traced_bind; [|intros; by apply traced_call].
    apply (traced_for_in _ (fun b => [RadarGridOf b])).
    intros _ b. apply geocode_slc_burst_grid.
  - simpl. rewrite app_nil_r. induction (bursts cfg); simpl; congruence.
Qed.

Lemma geocode_layer_grid h5 input rg dem bs shape gt code
    (layer : string * bool) :
  traced geocode_run_grid (if layer.2 then [rg] else [])
         (geocode_layer L h5 input rg dem bs shape gt code layer).
Proof.
  unfold geocode_layer, raster_open. destruct layer as [name enabled].
  traced_with ltac:(simpl; repeat case_match; simpl in *; done).
Qed.

Lemma s1_geocode_metadata_run_grid cfg burst fetch :
  traced geocode_run_grid
         (map (fun _ => RadarGridOf burst)
              (List.filter snd (meta_layers cfg)))
         (s1_geocode_metadata_run L cfg burst fetch).
Proof.
  unfold s1_geocode_metadata_run, journal_log, raster_open,
    as_isce3_radargrid.
  eapply traced_eq.
  - do 5 (apply traced_bind_call; [trace_side|]). cbv beta zeta.
    apply traced_bind_lookup_geogrid; intros geo_grid.
    apply traced_bind_call; [trace_side|]. cbv beta zeta.
    apply traced_bind; [apply traced_lookup_output_paths|]. intros out_paths.
    do 7 (apply traced_bind_call; [trace_side|]). cbv beta zeta.
    apply traced_bind; [|intros; by apply traced_call].
    apply traced_with; [trace_side | trace_side |].
    apply (traced_for_in _ (fun layer : string * bool =>
             if layer.2 then [RadarGridOf burst] else [])).
    intros _ layer. apply geocode_layer_grid.
  - generalize (meta_layers cfg). intros ls. simpl. rewrite !app_nil_r.
    induction ls as [|[name []] ls IH]; simpl; congruence.
Qed.

Lemma s1_geocode_metadata_run_init cfg burst fetch :
  traced (fun ev => if is_geocode_init ev then [tt] else []) [tt]
         (s1_geocode_metadata_run L cfg burst fetch).
Proof.
  unfold s1_geocode_metadata_run, journal_log, raster_open,
    as_isce3_radargrid.
  eapply traced_eq.
  - do 5 (apply traced_bind_call; [trace_side|]). cbv beta zeta.
    apply traced_bind_lookup_geogrid; intros geo_grid.
    apply traced_bind_call; [trace_side|]. cbv beta zeta.
    apply traced_bind; [apply traced_lookup_output_paths|]. intros out_paths.
    do 7 (apply traced_bind_call; [trace_side|]). cbv beta zeta.
    apply traced_bind; [|intros; by apply traced_call].
    apply traced_with; [trace_side | trace_side |].
    apply (traced_for_in _ (fun _ => [])).
    intros _ [name enabled]. unfold geocode_layer, raster_open.
    traced_with ltac:(simpl; repeat case_match; simpl in *; done).
  - generalize (meta_layers cfg). intros ls. simpl.
    induction ls; simpl; congruence.
Qed.

Lemma s1_geocode_metadata_run_other cfg burst fetch (p : string * string) :
  p <> id_date_of burst ->
  emits (fun ev => is_engine_call p ev = false)
        (s1_geocode_metadata_run L cfg burst fetch).
Proof.
  intros Hp.
  assert (Hrg : forall c o,
    match c with
    | GeocodeRun rg _ _ _ _ =>
        rg = RadarGridOf burst -> is_engine_call p (Ev c o) = false
    | Geo2RdrRun _ _ _ | GeocodeSlcCall _ _ _ _ _ _ _ _ _ _ _ _ _ => True
    | _ => is_engine_call p (Ev c o) = false
    end).
  { intros c o. destruct c; try done. intros ->. unfold is_engine_call.
    simpl. apply bool_decide_eq_false_2. congruence. }
  unfold s1_geocode_metadata_run, geocode_layer, journal_log, raster_open,
    as_isce3_radargrid.
  emits_with ltac:(by_calls Hrg).
Qed.

Lemma count_ext f g evs :
  Forall (fun ev => f ev = g ev) evs -> count f evs = count g evs.
Proof. induction 1 as [|ev evs Hev _ IH]; simpl; [done|]. by rewrite Hev, IH. Qed.

Lemma s1_geo2rdr_run_engine_calls cfg h s p :
  count (is_engine_call p) (events (s1_geo2rdr_run L cfg h s)) =
  count (is_geo2rdr_run p) (events (s1_geo2rdr_run L cfg h s)).
Proof.
  apply count_ext. apply (s1_geo2rdr_run_emits L). intros c o. by destruct c.
Qed.

Lemma geocode_slc_burst_calls cfg thr it bl fl b p :
  traced (fun ev => if is_engine_call p ev then [tt] else [])
         (if bool_decide (id_date_of b = p) then [tt] else [])
         (geocode_slc_burst L cfg thr it bl fl b).
Proof.
  unfold geocode_slc_burst, call_s1_geocode_metadata_run, raster_open,
    as_isce3_radargrid.
  traced_with ltac:(unfold is_engine_call; simpl; repeat case_match;
                    simpl in *; done).
Qed.

Lemma s1_geocode_slc_run_calls cfg h s p :
  returned (s1_geocode_slc_run L cfg h s) ->
  count (is_engine_call p) (events (s1_geocode_slc_run L cfg h s)) =
  length (List.filter (fun b => bool_decide (id_date_of b = p)) (bursts cfg)).
Proof.
  intros Hr. rewrite count_flat_map.
  assert (Ht : traced (fun ev => if is_engine_call p ev then [tt] else [])
                 (flat_map (fun b => if bool_decide (id_date_of b = p)
                                     then [tt] else []) (bursts cfg))
                 (s1_geocode_slc_run L cfg)).
  { unfold s1_geocode_slc_run, journal_log. eapply traced_eq.
    - do 2 (apply traced_bind_call; [trace_side|]). cbv beta zeta.
      apply traced_bind; [|intros; by apply traced_call].
      apply (traced_for_in _ (fun b => if bool_decide (id_date_of b = p)
                                         then [tt] else [])).
      intros _ b. apply geocode_slc_burst_calls.
    - simpl. by rewrite app_nil_r. }
  rewrite (Ht h s Hr). clear Ht Hr.
  induction (bursts cfg) as [|b bs IH]; simpl; [done|].
  rewrite length_app, IH. by case_bool_decide.
Qed.

Lemma s1_geocode_slc_run_no_init cfg :
  emits (fun ev => is_engine_init ev = false) (s1_geocode_slc_run L cfg).
Proof.
  unfold s1_geocode_slc_run, journal_log. emits_tac.
  apply emits_for_in. intros _ b.
  unfold geocode_slc_burst, call_s1_geocode_metadata_run, raster_open,
    as_isce3_radargrid. emits_tac.
Qed.

End Geocode.

(** ** Output paths *)

Section Paths.
Context (L : Library).

Lemma geo2rdr_burst_written cfg on_gpu ell thr it bl processed b :
  traced written
    (let top := scratch_path cfg +:+ "/" +:+ burst_id b in
     let out := top +:+ "/" +:+ strftime_Ymd (sensing_start b) in
     if bool_decide (id_date_of b ∈ processed) then [top]
     else [top; out; out])
    (geo2rdr_burst L cfg on_gpu ell thr it bl processed b).
Proof.
  unfold geo2rdr_burst, raster_open, as_isce3_radargrid, id_date_of.
  traced_with ltac:(simpl; repeat case_match; simpl in *; done).
Qed.

Lemma geo2rdr_loop_written cfg on_gpu ell thr it bl bs :
  forall processed,
    traced written
      (geo2rdr_paths (scratch_path cfg) (map id_date_of bs) processed)
      (for_in bs (geo2rdr_burst L cfg on_gpu ell thr it bl) processed).
Proof.
  induction bs as [|b bs IH]; intros processed h s Hr; simpl in *; [done|].
  destruct (returned_bind _ _ h s Hr) as (a & Ha & -> & Hk). simpl.
  rewrite flat_map_app.
  rewrite (geo2rdr_burst_written cfg on_gpu ell thr it bl processed b h s)
    by by exists a.
  rewrite (IH a _ _ Hk).
  rewrite (geo2rdr_burst_value L _ _ _ _ _ _ _ _ _ _ _ Ha).
  simpl. by case_bool_decide.
Qed.

Lemma s1_geo2rdr_run_written cfg :
  traced written
    (geo2rdr_paths (scratch_path cfg) (map id_date_of (bursts cfg)) [])
    (s1_geo2rdr_run L cfg).
Proof.
  unfold s1_geo2rdr_run, journal_log, raster_open. eapply traced_eq.
  - do 5 (apply traced_bind_call; [trace_side|]). cbv beta zeta.
    apply traced_bind; [by traced_with ltac:(reflexivity)|]. intros _.
    apply traced_bind; [apply geo2rdr_loop_written|].
    intros _. apply traced_call. trace_side.
  - simpl. rewrite app_nil_r. by destruct (use_gpu L _ _).
Qed.

Lemma geocode_slc_burst_written cfg thr it bl fl b :
  traced written
    (slc_burst_paths (scratch_path cfg) (product_path cfg) (identity b)
       (phase_correction (is_eap_correction_necessary L (ipf_version b))))
    (geocode_slc_burst L cfg thr it bl fl b).
Proof.
  unfold geocode_slc_burst, call_s1_geocode_metadata_run, raster_open,
    as_isce3_radargrid.
  traced_with ltac:(simpl; repeat case_match; simpl in *; done).
Qed.

Lemma geocode_slc_burst_delivered cfg thr it bl fl b :
  traced delivered
    (slc_burst_delivered (scratch_path cfg) (product_path cfg) (identity b))
    (geocode_slc_burst L cfg thr it bl fl b).
Proof.
  unfold geocode_slc_burst, call_s1_geocode_metadata_run, raster_open,
    as_isce3_radargrid.
  traced_with ltac:(simpl; repeat case_match; simpl in *; done).
Qed.

Lemma s1_geocode_slc_run_traced {X} (g : Event -> list X)
    (gb : Burst -> list X) cfg :
  (forall c o, match c with
               | JournalLog _ _ | LUT2dDefault => g (Ev c o) = []
               | _ => True
               end) ->
  (forall thr it bl fl b,
     traced g (gb b) (geocode_slc_burst L cfg thr it bl fl b)) ->
  traced g (flat_map gb (bursts cfg)) (s1_geocode_slc_run L cfg).
Proof.
  intros Hg Hb. unfold s1_geocode_slc_run, journal_log. eapply traced_eq.
  - apply traced_bind_call; [exact (Hg (JournalLog _ _) Returned)|].
    apply traced_bind_call; [exact (Hg LUT2dDefault Returned)|].
    cbv beta zeta. apply traced_bind.
    + apply (traced_for_in _ gb). intros _ b. apply Hb.
    + intros _. apply traced_call. exact (Hg (JournalLog _ _) Returned).
  - simpl. by rewrite app_nil_r.
Qed.

Lemma s1_geo2rdr_run_forms cfg :
  emits (fun ev => Forall (fun p => exists b, b ∈ bursts cfg /\
             p ∈ geo2rdr_dirs (scratch_path cfg) (identity b)) (written ev))
        (s1_geo2rdr_run L cfg).
Proof.
  unfold s1_geo2rdr_run, journal_log, raster_open.
  emits_with ltac:(by constructor).
  apply emits_for_in_elem. intros acc b Hb.
  unfold geo2rdr_burst, raster_open, as_isce3_radargrid.
  emits_with ltac:(in_forms b).
Qed.

Lemma s1_geocode_slc_run_forms cfg :
  emits (fun ev => Forall (fun p => exists b, b ∈ bursts cfg /\
             p ∈ slc_burst_paths (scratch_path cfg) (product_path cfg)
                   (identity b) true) (written ev))
        (s1_geocode_slc_run L cfg).
Proof.
  unfold s1_geocode_slc_run, journal_log.
  emits_with ltac:(by constructor).
  apply emits_for_in_elem. intros acc b Hb.
  unfold geocode_slc_burst, call_s1_geocode_metadata_run, raster_open,
    as_isce3_radargrid.
  emits_with ltac:(in_forms b).
Qed.

Lemma emits_written {A} (P : string -> Prop) (m : M A) h s :
  emits (fun ev => Forall P (written ev)) m ->
  Forall P (flat_map written (events (m h s))).
Proof.
  intros Hm. specialize (Hm h s).
  induction Hm as [|ev evs Hev _ IH]; simpl; [done|].
  apply Forall_app. by split.
Qed.

Lemma flat_map_key {B I X} (key : B -> I) (f : I -> list X)
    (bs1 bs2 : list B) :
  map key bs1 = map key bs2 ->
  flat_map (fun b => f (key b)) bs1 = flat_map (fun b => f (key b)) bs2.
Proof.
  revert bs2. induction bs1 as [|b1 bs1 IH]; intros [|b2 bs2]; simpl;
    try done.
  intros H. injection H as Hi Hr. rewrite Hi. f_equal. by apply IH.
Qed.

Lemma flat_map_key2 {B I X} (key : B -> I) (f : I -> bool -> list X)
    (e1 e2 : B -> bool) (bs1 bs2 : list B) :
  map key bs1 = map key bs2 -> map e1 bs1 = map e2 bs2 ->
  flat_map (fun b => f (key b) (e1 b)) bs1 =
  flat_map (fun b => f (key b) (e2 b)) bs2.
Proof.
  revert bs2. induction bs1 as [|b1 bs1 IH]; intros [|b2 bs2]; simpl;
    try done.
  intros H H'. injection H as Hi Hr. injection H' as He He'.
  rewrite Hi, He. f_equal. by apply IH.
Qed.

Lemma map_id_date_identity bs1 bs2 :
  map identity bs1 = map identity bs2 ->
  map id_date_of bs1 = map id_date_of bs2.
Proof.
  intros H. apply (f_equal (map fst)) in H. rewrite !map_map in H.
  exact H.
Qed.

Lemma traced_bind_lookup_output_paths {B X} (g : Event -> list X) l cfg key
    (k : OutPaths -> M B) :
  (forall op, output_paths cfg !! key = Some op -> traced g l (k op)) ->
  traced g l (bind (lookup_output_paths cfg key) k).
Proof.
  intros Hk h s. unfold lookup_output_paths.
  destruct (output_paths cfg !! key) as [op|] eqn:E.
  - rewrite bind_ret. by apply Hk.
  - rewrite bind_raise. by intros [? ?].
Qed.

Lemma s1_geocode_metadata_run_written_as cfg burst fetch l :
  (forall op, output_paths cfg !! id_date_of burst = Some op ->
              l = [output_directory op +:+ "/topo.h5"]) ->
  traced written l (s1_geocode_metadata_run L cfg burst fetch).
Proof.
  intros Hl.
  unfold s1_geocode_metadata_run, journal_log, raster_open,
    as_isce3_radargrid.
  do 5 (apply (traced_bind_call L written [] l); [reflexivity|]).
  cbv beta zeta.
  apply traced_bind_lookup_geogrid; intros geo_grid.
  apply (traced_bind_call L written [] l); [reflexivity|]. cbv beta zeta.
  apply traced_bind_lookup_output_paths. intros op Hop.
  rewrite (Hl op Hop).
  do 7 (apply (traced_bind_call L written [] [_]); [reflexivity|]).
  cbv beta zeta.
  eapply traced_eq.
  - apply traced_bind; [|intros; by apply traced_call].
    apply traced_with; [reflexivity | reflexivity |].
    apply (traced_for_in _ (fun _ => [])).
    intros _ [name enabled]. unfold geocode_layer, raster_open.
    traced_with ltac:(simpl; repeat case_match; simpl in *; done).
  - generalize (meta_layers cfg). intros ls. simpl.
    induction ls; simpl; congruence.
Qed.

Lemma s1_geocode_metadata_run_written cfg burst fetch h s :
  returned (s1_geocode_metadata_run L cfg burst fetch h s) ->
  exists op, output_paths cfg !! id_date_of burst = Some op /\
    flat_map written (events (s1_geocode_metadata_run L cfg burst fetch h s))
    = [output_directory op +:+ "/topo.h5"].
Proof.
  intros Hr. destruct (output_paths cfg !! id_date_of burst) as [op|] eqn:E.
  - exists op. split; [done|].
    apply (s1_geocode_metadata_run_written_as cfg burst fetch); [|done].
    intros op' Hop. congruence.
  - pose proof (s1_geocode_metadata_run_written_as cfg burst fetch []
                  ltac:(intros; congruence) h s Hr) as H1.
    pose proof (s1_geocode_metadata_run_written_as cfg burst fetch [""]
                  ltac:(intros; congruence) h s Hr) as H2.
    congruence.
Qed.

End Paths.

(** ** The claims *)

(** C1.  [s1_cslc.run] dispatches on [cfg.is_reference] alone.  When it
    is true the run consists of the topography stage ([s1_rdr2geo.run])
    and of nothing else, so neither geo2rdr nor resample executes.  When
    it is false the run is the whole of [s1_geo2rdr.run], which starts
    with its journal entry, followed, once geo2rdr has returned, by the
    resample stage ([s1_resample.run]); the topography stage is not
    entered, and resample is not entered before geo2rdr is over. *)
Theorem s1_cslc_run_dispatch (L : Library) (cfg : RunConfig)
    (h : list Event) (s : State) :
  let r := s1_cslc_run L cfg h s in
  let g := s1_geo2rdr_run L cfg h s in
  (is_reference cfg = true ->
     exists o, events r = [Ev (RunStage Rdr2geo cfg false) o]) /\
  (is_reference cfg = false ->
     count (is_stage Rdr2geo) (events r) = 0%nat /\
     count (is_stage Resample) (events g) = 0%nat /\
     (exists o evs, events g =
        Ev (JournalLog "s1_geo2rdr.run" "Starting s1_geo2rdr burst") o :: evs) /\
     (returned g ->
        exists o, events r = events g ++ [Ev (RunStage Resample cfg false) o]) /\
     (forall e, result g = inl e -> events r = events g /\ result r = inl e)).
Proof.
  intros r g. subst r g. unfold s1_cslc_run. split; intros ->; cbv iota.
  { rewrite run_call. case_match; eauto. }
  assert (Hg : forall st, count (is_stage st)
                            (events (s1_geo2rdr_run L cfg h s)) = 0%nat).
  { intros st. apply emits_count, s1_geo2rdr_run_emits. intros c o.
    by destruct c. }
  split; [|split; [apply Hg|split; [|split]]].
  - destruct (bind_cases (s1_geo2rdr_run L cfg)
      (fun _ => call L (RunStage Resample cfg false) tt) h s)
      as [(e & He & ->) | (a & Ha & ->)]; simpl; [apply Hg|].
    rewrite count_app, Hg, run_call. by case_match.
  - unfold s1_geo2rdr_run, journal_log. rewrite bind_call.
    case_match; simpl; eauto.
  - intros [a Ha]. rewrite (bind_continued _ _ _ _ _ Ha). simpl.
    rewrite run_call. case_match; eauto.
  - intros e He. by rewrite (bind_raised _ _ _ _ _ He).
Qed.

Lemma s1_cslc_run_dispatch_witness :
  (exists o, events (s1_cslc_run sample_library sample_reference_cfg []
                       sample_state) =
             [Ev (RunStage Rdr2geo sample_reference_cfg false) o]) /\
  (exists o,
     events (s1_cslc_run sample_library sample_cfg [] sample_state) =
     events (s1_geo2rdr_run sample_library sample_cfg [] sample_state) ++
     [Ev (RunStage Resample sample_cfg false) o]).
Proof.
  split.
  - apply (s1_cslc_run_dispatch sample_library sample_reference_cfg []
             sample_state). reflexivity.
  - apply (s1_cslc_run_dispatch sample_library sample_cfg [] sample_state).
    + reflexivity.
    + exists tt. vm_compute. reflexivity.
Defined.

(** C2.  When [N >= 1] bursts of the run configuration share a
    (burst id, sensing date string) pair, [s1_geo2rdr.run] constructs the
    geo2rdr engine object for that pair at most once and invokes its
    [geo2rdr] method at most once in any execution, and exactly once each
    in an execution that returns; the number [N] plays no part. *)
Theorem geo2rdr_once_per_id_date (L : Library) (cfg : RunConfig)
    (h : list Event) (s : State) (p : string * string) (N : nat) :
  length (List.filter (fun b => bool_decide (id_date_of b = p)) (bursts cfg))
    = N ->
  (1 <= N)%nat ->
  let r := s1_geo2rdr_run L cfg h s in
  ((count (is_geo2rdr_init p) (events r) <= 1)%nat /\
   (count (is_geo2rdr_run p) (events r) <= 1)%nat) /\
  (returned r ->
   count (is_geo2rdr_init p) (events r) = 1%nat /\
   count (is_geo2rdr_run p) (events r) = 1%nat).
Proof.
  intros HN Hpos r.
  assert (Hin : p ∈ map id_date_of (bursts cfg)).
  { subst N. induction (bursts cfg) as [|b bs IH]; simpl in *; [lia|].
    case_bool_decide; [subst p; left | right; by apply IH]. }
  destruct (s1_geo2rdr_run_count L cfg p (is_geo2rdr_init p)
              ltac:(by left) h s) as [Hi Hi'].
  destruct (s1_geo2rdr_run_count L cfg p (is_geo2rdr_run p)
              ltac:(by right) h s) as [Hr Hr'].
  rewrite bool_decide_eq_true_2 in Hi, Hi', Hr, Hr' by done.
  fold r in Hi, Hi', Hr, Hr'. repeat split; auto.
Qed.

Lemma geo2rdr_once_per_id_date_witness :
  let r := s1_geo2rdr_run sample_library sample_cfg [] sample_state in
  ((count (is_geo2rdr_init ("t071_151200_iw1", "20220105")) (events r) <= 1)%nat /\
   (count (is_geo2rdr_run ("t071_151200_iw1", "20220105")) (events r) <= 1)%nat) /\
  (count (is_geo2rdr_init ("t071_151200_iw1", "20220105")) (events r) = 1%nat /\
   count (is_geo2rdr_run ("t071_151200_iw1", "20220105")) (events r) = 1%nat).
Proof.
  intros r.
  destruct (geo2rdr_once_per_id_date sample_library sample_cfg [] sample_state
              ("t071_151200_iw1", "20220105") 2) as [Hle Hret].
  - vm_compute. reflexivity.
  - lia.
  - split; [exact Hle|]. apply Hret. exists tt. vm_compute. reflexivity.
Defined.

(** C3, as worded, fails on [s1_geocode_slc.run]: the two polarizations
    of the sample burst share their (burst id, date) pair, and the run
    returns after having invoked the engine twice for it. *)
Lemma geocode_slc_processes_pair_twice :
  returned (s1_geocode_slc_run sample_library sample_cfg [] sample_state) /\
  ~ at_most_once_per_pair
      (events (s1_geocode_slc_run sample_library sample_cfg [] sample_state)).
Proof.
  split; [exists tt; vm_compute; reflexivity|].
  intros H. specialize (H ("t071_151200_iw1", "20220105")).
  vm_compute in H. lia.
Qed.

(** C3, amended.  [s1_geo2rdr.run] checks each (burst id, date) pair
    against the pairs already processed before it touches the engine: in
    any execution the engine object is built at most once and invoked at
    most once for a pair.  [s1_geocode_slc.run] has no such check: when it
    returns, it has invoked the engine for a pair once for every
    configured burst that has this pair.  [s1_geocode_metadata.run]
    handles the one burst it is given and invokes the engine for no other
    pair. *)
Theorem engine_calls_per_pair (L : Library) (cfg : RunConfig) (burst : Burst)
    (fetch_from_scratch : bool) (h : list Event) (s : State)
    (p : string * string) :
  let geo2rdr := s1_geo2rdr_run L cfg h s in
  let slc := s1_geocode_slc_run L cfg h s in
  let meta := s1_geocode_metadata_run L cfg burst fetch_from_scratch h s in
  ((count (is_geo2rdr_init p) (events geo2rdr) <= 1)%nat /\
   (count (is_engine_call p) (events geo2rdr) <= 1)%nat) /\
  (returned slc ->
   count (is_engine_call p) (events slc) =
   length (List.filter (fun b => bool_decide (id_date_of b = p))
                       (bursts cfg))) /\
  (p <> id_date_of burst -> count (is_engine_call p) (events meta) = 0%nat).
Proof.
  intros geo2rdr slc meta. subst geo2rdr slc meta.
  split; [|split].
  - rewrite s1_geo2rdr_run_engine_calls.
    destruct (s1_geo2rdr_run_count L cfg p (is_geo2rdr_init p)
                ltac:(by left) h s) as [Hi _].
    destruct (s1_geo2rdr_run_count L cfg p (is_geo2rdr_run p)
                ltac:(by right) h s) as [Hr _].
    split; [etrans; [exact Hi|] | etrans; [exact Hr|]];
      case_bool_decide; lia.
  - apply s1_geocode_slc_run_calls.
  - intros Hp. by apply emits_count, s1_geocode_metadata_run_other.
Qed.

Lemma engine_calls_per_pair_witness :
  let p := ("t071_151200_iw1", "20220105") in
  count (is_engine_call p)
        (events (s1_geocode_slc_run sample_library sample_cfg [] sample_state))
    = 2%nat /\
  count (is_engine_call ("t999_000000_iw3", "20220105"))
        (events (s1_geocode_metadata_run sample_library sample_cfg burst_vv
                   false [] sample_state)) = 0%nat.
Proof.
  intros p. split.
  - apply (engine_calls_per_pair sample_library sample_cfg burst_vv false []
             sample_state p).
    exists tt. vm_compute. reflexivity.
  - apply (engine_calls_per_pair sample_library sample_cfg burst_vv false []
             sample_state ("t999_000000_iw3", "20220105")).
    vm_compute. discriminate.
Defined.

(** C4.  In any execution of [s1_geo2rdr.run] or [s1_geocode_slc.run],
    whether it returns or raises, no directory is made more than once.
    When the stage returns, each output directory of each configured
    burst exists, and one that did not exist at the start was made
    exactly once.  Making a directory that already exists changes nothing
    in the file system and, unless the operating system itself fails,
    does not raise. *)
Theorem output_dirs_created_once (L : Library) (cfg : RunConfig)
    (h : list Event) (s : State) :
  let geo2rdr := s1_geo2rdr_run L cfg h s in
  let slc := s1_geocode_slc_run L cfg h s in
  (forall p, (count (is_created p) (events geo2rdr) <= 1)%nat /\
             (count (is_created p) (events slc) <= 1)%nat) /\
  (returned geo2rdr ->
   forall b d, b ∈ bursts cfg ->
     d ∈ [top_output_path cfg b; burst_output_path cfg b] ->
     fs (final geo2rdr) !! d = Some Dir /\
     (fs s !! d = None -> count (is_created d) (events geo2rdr) = 1%nat)) /\
  (returned slc ->
   forall b d, b ∈ bursts cfg ->
     d ∈ [product_dir cfg b; scratch_dir cfg b] ->
     fs (final slc) !! d = Some Dir /\
     (fs s !! d = None -> count (is_created d) (events slc) = 1%nat)) /\
  (forall p h', fs s !! p = Some Dir ->
     final (makedirs L p h' s) = s /\
     (fault L h' (Makedirs p) = None ->
      makedirs L p h' s = mk_run [Ev (Makedirs p) Returned] s (inr tt))).
Proof.
  simpl.
  pose proof (s1_geo2rdr_run_frames L cfg h s) as Hf1.
  pose proof (s1_geocode_slc_run_frames L cfg h s) as Hf2.
  split; [|split; [|split]].
  - intros p. split; eapply tracked_created_once; eauto.
  - intros Hr b d Hb Hd.
    destruct (s1_geo2rdr_run_dirs L cfg b Hb) as [H1 H2].
    assert (Hdir : fs (final (s1_geo2rdr_run L cfg h s)) !! d = Some Dir).
    { apply elem_of_cons in Hd as [->|Hd]; [by apply H1|].
      apply list_elem_of_singleton in Hd as ->. by apply H2. }
    split; [done|]. intros Hnew. by eapply tracked_fresh_dir.
  - intros Hr b d Hb Hd.
    destruct (s1_geocode_slc_run_dirs L cfg b Hb) as [H1 H2].
    assert (Hdir : fs (final (s1_geocode_slc_run L cfg h s)) !! d = Some Dir).
    { apply elem_of_cons in Hd as [->|Hd]; [by apply H1|].
      apply list_elem_of_singleton in Hd as ->. by apply H2. }
    split; [done|]. intros Hnew. by eapply tracked_fresh_dir.
  - intros p h' Hp. unfold makedirs. rewrite Hp.
    split; [by case_match | by intros ->].
Qed.

Lemma output_dirs_created_once_witness :
  let geo2rdr := s1_geo2rdr_run sample_library sample_cfg [] sample_state in
  let slc := s1_geocode_slc_run sample_library sample_cfg [] sample_state in
  count (is_created "scratch/t071_151200_iw1") (events geo2rdr) = 1%nat /\
  count (is_created "scratch/t071_151200_iw1/20220105") (events geo2rdr)
    = 1%nat /\
  count (is_created "product/t071_151200_iw1/20220105") (events slc) = 1%nat /\
  fs (final slc) !! "scratch/t071_151200_iw1/20220105" = Some Dir /\
  final (makedirs sample_library "scratch/t071_151200_iw1" [] (final geo2rdr))
    = final geo2rdr.
Proof.
  intros geo2rdr slc.
  destruct (output_dirs_created_once sample_library sample_cfg [] sample_state)
    as (_ & Hg & Hs & _).
  destruct (output_dirs_created_once sample_library sample_cfg []
              (final geo2rdr)) as (_ & _ & _ & Hidem).
  assert (Hrg : returned geo2rdr) by (exists tt; vm_compute; reflexivity).
  assert (Hrs : returned slc) by (exists tt; vm_compute; reflexivity).
  assert (Hvv : burst_vv ∈ bursts sample_cfg) by left.
  split; [|split; [|split; [|split]]].
  - apply (Hg Hrg burst_vv _ Hvv); [left | reflexivity].
  - apply (Hg Hrg burst_vv _ Hvv); [right; left | reflexivity].
  - apply (Hs Hrs burst_vv _ Hvv); [left | reflexivity].
  - apply (Hs Hrs burst_vv _ Hvv). right; left.
  - apply Hidem. vm_compute. reflexivity.
Defined.




(** C6, as worded, fails on [s1_geocode_metadata.run]: given one burst of
    the sample configuration, with its seven metadata layers enabled, in a
    state in which the output directory of the burst and the seven layers
    of its topography are there, the run returns after seven invocations
    of the engine for the one pair of the configured bursts. *)
Lemma geocode_metadata_invokes_engine_per_layer :
  returned (s1_geocode_metadata_run sample_library sample_cfg burst_vv false
              [] ready_state) /\
  count (is_engine_call ("t071_151200_iw1", "20220105"))
        (events (s1_geocode_metadata_run sample_library sample_cfg burst_vv
                   false [] ready_state)) = 7%nat /\
  ~ one_engine_call_per_pair sample_cfg
      (events (s1_geocode_metadata_run sample_library sample_cfg burst_vv
                 false [] ready_state)).
Proof.
  split; [exists tt; vm_compute; reflexivity|].
  split; [vm_compute; reflexivity|].
  intros H. specialize (H ("t071_151200_iw1", "20220105")).
  assert (Hin : ("t071_151200_iw1", "20220105")
                ∈ map id_date_of (bursts sample_cfg)) by left.
  specialize (H Hin). vm_compute in H. discriminate.
Qed.

(** C6, amended.  In a run that returns: [s1_geo2rdr.run] has built, for
    the configured bursts in order, the directory [scratch_path/burst_id]
    of each burst and, for the first burst of each (burst id, date) pair,
    the directory [scratch_path/burst_id/date] it hands to the engine, has
    built one engine object and invoked its one method once for each
    pair; [s1_geocode_slc.run] has built, for each configured burst in
    order, its product and scratch directories and the paths of its
    files, has built no engine object and has called the engine's
    [geocode_slc] once for each configured burst, each polarization
    counting as a burst; [s1_geocode_metadata.run], which is handed a
    single burst and does not iterate over the configured ones, has made
    no directory: it has taken the output directory of the burst from
    [cfg.output_paths] and written the one file [topo.h5] in it, has built
    one geocoding object and invoked its [geocode] method once for each
    enabled metadata layer, always on the radar grid of that burst. *)
Theorem wrappers_engine_use (L : Library) (cfg : RunConfig) (burst : Burst)
    (fetch_from_scratch : bool) (h : list Event) (s : State) :
  let geo2rdr := s1_geo2rdr_run L cfg h s in
  let slc := s1_geocode_slc_run L cfg h s in
  let meta := s1_geocode_metadata_run L cfg burst fetch_from_scratch h s in
  let eap (b : Burst) :=
    phase_correction (is_eap_correction_necessary L (ipf_version b)) in
  (returned geo2rdr ->
   (forall p, p ∈ map id_date_of (bursts cfg) ->
      count (is_geo2rdr_init p) (events geo2rdr) = 1%nat /\
      count (is_engine_call p) (events geo2rdr) = 1%nat) /\
   flat_map written (events geo2rdr) =
     geo2rdr_paths (scratch_path cfg) (map id_date_of (bursts cfg)) []) /\
  (returned slc ->
   count is_engine_init (events slc) = 0%nat /\
   flat_map geocode_slc_grid (events slc) = map RadarGridOf (bursts cfg) /\
   flat_map written (events slc) =
     flat_map (fun b => slc_burst_paths (scratch_path cfg) (product_path cfg)
                          (identity b) (eap b)) (bursts cfg)) /\
  (returned meta ->
   count is_engine_init (events meta) = 1%nat /\
   flat_map geocode_run_grid (events meta) =
     map (fun _ => RadarGridOf burst) (List.filter snd (meta_layers cfg)) /\
   exists op, output_paths cfg !! id_date_of burst = Some op /\
     flat_map written (events meta) = [output_directory op +:+ "/topo.h5"]).
Proof.
  intros geo2rdr slc meta eap. subst geo2rdr slc meta eap.
  split; [|split].
  - intros Hr. split; [|by apply s1_geo2rdr_run_written].
    intros p Hp. rewrite s1_geo2rdr_run_engine_calls.
    destruct (s1_geo2rdr_run_count L cfg p (is_geo2rdr_init p)
                ltac:(by left) h s) as [_ Hi].
    destruct (s1_geo2rdr_run_count L cfg p (is_geo2rdr_run p)
                ltac:(by right) h s) as [_ Hc].
    rewrite bool_decide_eq_true_2 in Hi, Hc by done. auto.
  - intros Hr. split; [|split].
    + apply emits_count, s1_geocode_slc_run_no_init.
    + by apply s1_geocode_slc_run_grid.
    + exact (s1_geocode_slc_run_traced L written _ cfg
               ltac:(intros c o; by destruct c)
               (geocode_slc_burst_written L cfg) h s Hr).
  - intros Hr. split; [|split].
    + rewrite (count_ext is_engine_init is_geocode_init).
      * rewrite count_flat_map.
        by rewrite (s1_geocode_metadata_run_init L cfg burst
                      fetch_from_scratch h s Hr).
      * apply (s1_geocode_metadata_run_emits L). intros c o. by destruct c.
    + by apply s1_geocode_metadata_run_grid.
    + by apply s1_geocode_metadata_run_written.
Qed.

Lemma wrappers_engine_use_witness :
  flat_map geocode_slc_grid
    (events (s1_geocode_slc_run sample_library sample_cfg [] sample_state)) =
    [RadarGridOf burst_vv; RadarGridOf burst_vh] /\
  length (flat_map geocode_run_grid
            (events (s1_geocode_metadata_run sample_library sample_cfg
                       burst_vv false [] ready_state))) = 7%nat /\
  flat_map written
    (events (s1_geocode_metadata_run sample_library sample_cfg burst_vv
               false [] ready_state)) =
    ["product/t071_151200_iw1/20220105/topo.h5"] /\
  count (is_engine_call ("t071_151200_iw1", "20220105"))
        (events (s1_geo2rdr_run sample_library sample_cfg [] sample_state))
    = 1%nat.
Proof.
  destruct (wrappers_engine_use sample_library sample_cfg burst_vv false []
              sample_state) as (Hg & Hs & _).
  destruct (wrappers_engine_use sample_library sample_cfg burst_vv false []
              ready_state) as (_ & _ & Hm).
  destruct Hm as (_ & Hm & op & Hop & Hw); [exists tt; vm_compute; reflexivity|].
  split; [|split; [|split]].
  - apply Hs. exists tt. vm_compute. reflexivity.
  - rewrite Hm. reflexivity.
  - rewrite Hw. injection Hop as <-. reflexivity.
  - apply Hg; [exists tt; vm_compute; reflexivity | left].
Defined.

(** C7.  No wrapper intercepts an exception.  If, in a run of a stage
    wrapper or of [compute_geocoding_correction_luts], call number [i]
    raises [e], then the run raises that same [e]; every call before it
    had returned, and no call is made after it: in [s1_geo2rdr.run],
    [s1_cslc.run] and the LUT helper it is the last event, and in
    [s1_geocode_slc.run] and [s1_geocode_metadata.run] it is followed by
    nothing but the closing of the file a [with] statement had open.
    Conversely the exception a run raises is either the one a call
    raised or one the wrapper raises itself (a missing DEM argument, a
    missing entry of the configuration), no call having raised. *)
Theorem errors_propagate (L : Library) (cfg : RunConfig) (burst : Burst)
    (fetch_from_scratch : bool) (rg_step az_step : Q)
    (dem_path scratch_path : option string) (h : list Event) (s : State)
    (i : nat) (c : Call) (e : Exn) :
  let geo2rdr := s1_geo2rdr_run L cfg h s in
  let cslc := s1_cslc_run L cfg h s in
  let luts := compute_geocoding_correction_luts L burst rg_step az_step
                dem_path scratch_path h s in
  let slc := s1_geocode_slc_run L cfg h s in
  let meta := s1_geocode_metadata_run L cfg burst fetch_from_scratch h s in
  (raised_at geo2rdr i c e -> ends_at geo2rdr i e /\ stops_at geo2rdr i e) /\
  (raised_at cslc i c e -> ends_at cslc i e /\ stops_at cslc i e) /\
  (raised_at luts i c e -> ends_at luts i e /\ stops_at luts i e) /\
  (raised_at slc i c e -> stops_at slc i e) /\
  (raised_at meta i c e -> stops_at meta i e) /\
  (error_source geo2rdr /\ error_source cslc /\ error_source luts /\
   error_source slc /\ error_source meta).
Proof.
  intros geo2rdr cslc luts slc meta.
  assert (Hnc : forall (Q : Event -> Prop) c' o,
            Q = (fun ev => ~ closing ev) ->
            match c' with H5Close _ | FileClose _ => True | _ => Q (Ev c' o)
            end).
  { intros Q c' o ->. destruct o; simpl; destruct c'; tauto. }
  split; [|split; [|split; [|split; [|split]]]]; try intros Hi.
  6: { repeat split; apply propagates_source;
         [ apply s1_geo2rdr_run_propagates | apply s1_cslc_run_propagates
         | apply compute_luts_propagates | apply s1_geocode_slc_run_propagates
         | apply s1_geocode_metadata_run_propagates ]. }
  - split; [eapply propagates_ends | eapply propagates_stops]; eauto;
      try apply s1_geo2rdr_run_propagates.
    apply s1_geo2rdr_run_emits. intros c' o.
    specialize (Hnc _ c' o eq_refl). by destruct c'.
  - split; [eapply propagates_ends | eapply propagates_stops]; eauto;
      try apply s1_cslc_run_propagates.
    apply s1_cslc_run_emits. intros c' o.
    specialize (Hnc _ c' o eq_refl). by destruct c'.
  - split; [eapply propagates_ends | eapply propagates_stops]; eauto;
      try apply compute_luts_propagates.
    apply compute_luts_emits. intros c' o.
    specialize (Hnc _ c' o eq_refl). by destruct c'.
  - eapply propagates_stops; eauto. apply s1_geocode_slc_run_propagates.
  - eapply propagates_stops; eauto. apply s1_geocode_metadata_run_propagates.
Qed.

Lemma errors_propagate_witness :
  ends_at (s1_geo2rdr_run failing_library sample_cfg [] sample_state)
          11 (ExtError 7) /\
  ends_at (compute_geocoding_correction_luts failing_library burst_vv
             default_rg_step default_az_step (Some "missing.tif") None
             [] sample_state) 2 (ExtError 7) /\
  stops_at (s1_geocode_slc_run failing_library sample_cfg [] sample_state)
           23 (ExtError 7) /\
  stops_at (s1_geocode_metadata_run failing_library sample_cfg burst_vv false
              [] sample_state) 18 (ExtError 7).
Proof.
  split; [|split; [|split]].
  - eapply (errors_propagate failing_library sample_cfg burst_vv false
              default_rg_step default_az_step None None [] sample_state 11).
    vm_compute. reflexivity.
  - eapply (errors_propagate failing_library sample_cfg burst_vv false
              default_rg_step default_az_step (Some "missing.tif") None []
              sample_state 2).
    vm_compute. reflexivity.
  - eapply (errors_propagate failing_library sample_cfg burst_vv false
              default_rg_step default_az_step None None [] sample_state 23).
    vm_compute. reflexivity.
  - eapply (errors_propagate failing_library sample_cfg burst_vv false
              default_rg_step default_az_step None None [] sample_state 18).
    vm_compute. reflexivity.
Defined.

(** C8.  No stage writes a GeoGrid: at the end of [s1_geocode_slc.run],
    of [s1_geocode_metadata.run], of [s1_geo2rdr.run] and of
    [s1_cslc.run], whether the run returned or raised, the grids are the
    ones of the start, field by field; in particular the grid looked up
    for any burst is the same record before and after.  The stages only
    read: whatever they hand to the engine of a grid (the grid itself in
    [geocode_slc], its width and length in the output raster, its seven
    fields in the [geogrid] method) is what was stored for the burst at
    the start. *)
Theorem geogrid_never_mutated (L : Library) (cfg : RunConfig) (burst : Burst)
    (fetch_from_scratch : bool) (h : list Event) (s : State) (b : Burst) :
  let slc := s1_geocode_slc_run L cfg h s in
  let meta := s1_geocode_metadata_run L cfg burst fetch_from_scratch h s in
  let geo2rdr := s1_geo2rdr_run L cfg h s in
  let cslc := s1_cslc_run L cfg h s in
  (geogrids (final slc) = geogrids s /\
   geogrids (final slc) !! burst_id b = geogrids s !! burst_id b) /\
  (geogrids (final meta) = geogrids s /\
   geogrids (final meta) !! burst_id b = geogrids s !! burst_id b) /\
  (geogrids (final geo2rdr) = geogrids s /\
   geogrids (final geo2rdr) !! burst_id b = geogrids s !! burst_id b) /\
  (geogrids (final cslc) = geogrids s /\
   geogrids (final cslc) !! burst_id b = geogrids s !! burst_id b) /\
  Forall (grid_as_stored (burst_id b) (geogrids s)) (events slc) /\
  Forall (grid_as_stored (burst_id burst) (geogrids s)) (events meta).
Proof.
  simpl.
  destruct (s1_geocode_slc_run_frames L cfg h s) as [H1 _].
  destruct (s1_geocode_metadata_run_frames L cfg burst fetch_from_scratch h s)
    as [H2 _].
  destruct (s1_geo2rdr_run_frames L cfg h s) as [H3 _].
  destruct (s1_cslc_run_frames L cfg h s) as [H4 _].
  rewrite H1, H2, H3, H4. repeat split.
  - apply (s1_geocode_slc_run_reads L cfg (burst_id b) h s).
  - apply (s1_geocode_metadata_run_reads L cfg burst fetch_from_scratch h s).
Qed.

(** C9.  In [compute_geocoding_correction_luts], once the two LUTs of the
    burst have been obtained, the function's own [ValueError] is raised
    if and only if [dem_path] is [None]; otherwise its own
    [FileNotFoundError] is raised if and only if the file at [dem_path]
    exists, and [az_fm_rate_mismatch_mitigation] is called if and only if
    that file does not exist. *)
Theorem compute_luts_dem_checks (L : Library) (burst : Burst)
    (rg_step az_step : Q) (dem_path scratch_path : option string)
    (h : list Event) (s : State) :
  let r := compute_geocoding_correction_luts L burst rg_step az_step
             dem_path scratch_path h s in
  let e1 := Ev (BistaticDelay burst rg_step az_step) Returned in
  fault L h (BistaticDelay burst rg_step az_step) = None ->
  fault L (h ++ [e1]) (GeometricalAndSteeringDoppler burst rg_step az_step)
    = None ->
  ((exists msg, result r = inl (ValueError msg)) <-> dem_path = None) /\
  (forall p, dem_path = Some p ->
     ((exists msg, result r = inl (FileNotFoundError msg)) <->
      is_Some (fs s !! p)) /\
     (count is_az_fm_rate_mismatch (events r) = 1%nat <->
      ~ is_Some (fs s !! p))) /\
  (dem_path = None -> count is_az_fm_rate_mismatch (events r) = 0%nat).
Proof.
  intros r e1 H1 H2. subst r e1. unfold compute_geocoding_correction_luts.
  rewrite bind_call, H1, bind_call, H2.
  destruct dem_path as [p|]; cbv beta zeta iota.
  - rewrite bind_path_exists.
    destruct (bool_decide_reflect (is_Some (fs s !! p))) as [Hex|Hex].
    + simpl. naive_solver.
    + exec_with ltac:(simpl; naive_solver).
  - simpl. naive_solver.
Qed.

Lemma compute_luts_dem_checks_witness :
  let r dem := compute_geocoding_correction_luts sample_library burst_vv
                 default_rg_step default_az_step dem None [] sample_state in
  (exists msg, result (r None) = inl (ValueError msg)) /\
  (exists msg, result (r (Some "dem.tif")) = inl (FileNotFoundError msg)) /\
  count is_az_fm_rate_mismatch (events (r (Some "missing.tif"))) = 1%nat.
Proof.
  intros r. subst r. cbv beta.
  destruct (compute_luts_dem_checks sample_library burst_vv default_rg_step
              default_az_step None None [] sample_state eq_refl eq_refl)
    as (Hnone & _ & _).
  destruct (compute_luts_dem_checks sample_library burst_vv default_rg_step
              default_az_step (Some "dem.tif") None [] sample_state
              eq_refl eq_refl) as (_ & Hdem & _).
  destruct (compute_luts_dem_checks sample_library burst_vv default_rg_step
              default_az_step (Some "missing.tif") None [] sample_state
              eq_refl eq_refl) as (_ & Hmiss & _).
  split; [|split].
  - apply Hnone. reflexivity.
  - apply (Hdem "dem.tif" eq_refl). vm_compute. eauto.
  - apply (Hmiss "missing.tif" eq_refl). vm_compute. by intros [? ?].
Defined.

(** C10.  Whenever [compute_geocoding_correction_luts] returns a pair
    [(rg_lut, az_lut)], the azimuth LUT was rebuilt with the x spacing of
    the bistatic-delay LUT in both spacing slots: its y spacing equals
    its x spacing, whatever the y spacing of the bistatic-delay LUT. *)
Theorem compute_luts_az_spacing (L : Library) (burst : Burst)
    (rg_step az_step : Q) (dem_path scratch_path : option string)
    (h : list Event) (s : State) (rg_lut az_lut : LUT2d) :
  result (compute_geocoding_correction_luts L burst rg_step az_step
            dem_path scratch_path h s) = inr (rg_lut, az_lut) ->
  y_spacing az_lut = x_spacing az_lut /\
  x_spacing az_lut = x_spacing (bistatic_delay L burst rg_step az_step) /\
  x_start az_lut = x_start (bistatic_delay L burst rg_step az_step) /\
  y_start az_lut = y_start (bistatic_delay L burst rg_step az_step).
Proof.
  unfold compute_geocoding_correction_luts. destruct dem_path as [p|].
  - exec_with ltac:(simpl; try done).
    destruct (bool_decide (is_Some (fs s !! p)));
      exec_with ltac:(simpl; try done).
    by intros [= <- <-].
  - exec_with ltac:(simpl; done).
Qed.

Lemma compute_luts_az_spacing_witness :
  exists rg_lut az_lut,
    result (compute_geocoding_correction_luts sample_library burst_vv
              default_rg_step default_az_step (Some "missing.tif") None
              [] sample_state) = inr (rg_lut, az_lut) /\
    y_spacing (bistatic_delay sample_library burst_vv default_rg_step
                 default_az_step) = 3%Q /\
    y_spacing az_lut = x_spacing az_lut /\
    x_spacing az_lut = (1 # 2)%Q.
Proof.
  eexists _, _. split; [vm_compute; reflexivity|]. split; [reflexivity|].
  split.
  - eapply (compute_luts_az_spacing sample_library burst_vv default_rg_step
              default_az_step (Some "missing.tif") None [] sample_state).
    vm_compute. reflexivity.
  - reflexivity.
Defined.

(** ** Further properties of the wrappers *)

(** *** Rules for monitors *)

Section Monitor.
Context (L : Library).
Context {T : Type} (step : T -> Event -> T) (R : T -> Event -> Prop).

Lemma watch_app t evs1 evs2 :
  watch step t (evs1 ++ evs2) = watch step (watch step t evs1) evs2.
Proof. apply fold_left_app. Qed.

Lemma monitored_ret {A} t (a : A) (J : A -> T -> Prop) X :
  J a t -> monitored step R t (ret a) J X.
Proof. intros HJ h s. split; [by intros i ev Hi|done]. Qed.

Lemma monitored_raise {A} t e (J : A -> T -> Prop) (X : T -> Prop) :
  X t -> monitored step R t (raise e) J X.
Proof. intros HX h s. split; [by intros i ev Hi|done]. Qed.

Lemma monitored_lookup_geogrid t id (J : GeoGrid -> T -> Prop) (X : T -> Prop) :
  (forall g, J g t) -> X t -> monitored step R t (lookup_geogrid id) J X.
Proof.
  intros HJ HX h s. unfold lookup_geogrid.
  destruct (geogrids s !! id); (split; [by intros i ev Hi|simpl; auto]).
Qed.

Lemma monitored_lookup_output_paths t cfg key (J : OutPaths -> T -> Prop)
    (X : T -> Prop) :
  (forall p, J p t) -> X t ->
  monitored step R t (lookup_output_paths cfg key) J X.
Proof.
  intros HJ HX h s. unfold lookup_output_paths.
  destruct (output_paths cfg !! key); (split; [by intros i ev Hi|simpl; auto]).
Qed.

Lemma monitored_call {A} t c (v : A) (J : A -> T -> Prop) (X : T -> Prop) :
  (forall o, R t (Ev c o)) ->
  J v (step t (Ev c Returned)) ->
  (forall e, X (step t (Ev c (Raised e)))) ->
  monitored step R t (call L c v) J X.
Proof.
  intros HR HJ HX h s. rewrite run_call.
  destruct (fault L h c); simpl; (split; [|by auto]);
    intros [|i] ev Hi; simplify_eq/=; auto.
Qed.

Lemma monitored_bind {A B} t (m : M A) (k : A -> M B) J K X :
  monitored step R t m J X ->
  (forall a t', J a t' -> monitored step R t' (k a) K X) ->
  monitored step R t (bind m k) K X.
Proof.
  intros Hm Hk h s. destruct (Hm h s) as [Hm1 Hm2].
  destruct (bind_cases m k h s) as [(e & He & ->) | (a & Ha & ->)]; simpl.
  - rewrite He in Hm2. by split.
  - rewrite Ha in Hm2.
    destruct (Hk a _ Hm2 (h ++ events (m h s)) (final (m h s))) as [Hk1 Hk2].
    split.
    + intros i ev Hi.
      destruct (decide (i < length (events (m h s)))%nat) as [Hlt|Hge].
      * rewrite lookup_app_l in Hi by done.
        rewrite take_app_le by lia. by apply Hm1.
      * rewrite lookup_app_r in Hi by lia.
        rewrite take_app_ge by lia. rewrite watch_app. by apply Hk1.
    + by rewrite watch_app.
Qed.

Lemma monitored_bind_call {A B} t c (v : A) (k : A -> M B) K (X : T -> Prop) :
  (forall o, R t (Ev c o)) ->
  (forall e, X (step t (Ev c (Raised e)))) ->
  monitored step R (step t (Ev c Returned)) (k v) K X ->
  monitored step R t (bind (call L c v) k) K X.
Proof.
  intros HR HX Hk.
  apply monitored_bind with (J := fun a t' => a = v /\ t' = step t (Ev c Returned)).
  - by apply monitored_call.
  - by intros a t' [-> ->].
Qed.

Lemma monitored_makedirs t p (J : unit -> T -> Prop) (X : T -> Prop) :
  (forall o, R t (Ev (Makedirs p) o)) ->
  J tt (step t (Ev (Makedirs p) Returned)) ->
  J tt (step t (Ev (Makedirs p) Created)) ->
  (forall e, X (step t (Ev (Makedirs p) (Raised e)))) ->
  monitored step R t (makedirs L p) J X.
Proof.
  intros HR HJ1 HJ2 HX h s. unfold makedirs.
  destruct (fault L h (Makedirs p)); [|destruct (fs s !! p) as [[]|]]; simpl;
    (split; [|by auto]); intros [|i] ev Hi; simplify_eq/=; auto.
Qed.

Lemma monitored_bind_makedirs {B} t p (k : unit -> M B) K (X : T -> Prop) :
  (forall o, R t (Ev (Makedirs p) o)) ->
  (forall e, X (step t (Ev (Makedirs p) (Raised e)))) ->
  step t (Ev (Makedirs p) Created) = step t (Ev (Makedirs p) Returned) ->
  monitored step R (step t (Ev (Makedirs p) Returned)) (k tt) K X ->
  monitored step R t (bind (makedirs L p) k) K X.
Proof.
  intros HR HX Hs Hk.
  apply monitored_bind with
    (J := fun _ t' => t' = step t (Ev (Makedirs p) Returned)).
  - apply monitored_makedirs; auto.
  - by intros [] t' ->.
Qed.

Lemma monitored_bind_same {A B} t (m : M A) (k : A -> M B) K (X : T -> Prop) :
  monitored step R t m (fun _ t' => t' = t) X ->
  (forall a, monitored step R t (k a) K X) ->
  monitored step R t (bind m k) K X.
Proof.
  intros Hm Hk. eapply monitored_bind; [exact Hm|]. intros a t' ->. apply Hk.
Qed.

Lemma monitored_with {A} t o c (body : M A) (J J' : A -> T -> Prop)
    (X X' : T -> Prop) :
  (forall x, R t (Ev o x)) ->
  (forall e, X (step t (Ev o (Raised e)))) ->
  monitored step R (step t (Ev o Returned)) body J' X' ->
  (forall t', R t' (Ev c Returned)) ->
  (forall a t', J' a t' -> J a (step t' (Ev c Returned))) ->
  (forall t', X' t' -> X (step t' (Ev c Returned))) ->
  monitored step R t (with_ L o c body) J X.
Proof.
  intros Ho HoX Hb Hc HJ HX h s. rewrite run_with.
  destruct (fault L h o); simpl.
  - split; [|by auto]. intros [|i] ev Hi; simplify_eq/=; auto.
  - destruct (Hb (h ++ [Ev o Returned]) s) as [Hb1 Hb2].
    set (r := body (h ++ [Ev o Returned]) s) in *.
    split.
    + intros [|i] ev Hi; simpl in *; [by simplify_eq|].
      destruct (decide (i < length (events r))%nat) as [Hlt|Hge].
      * rewrite lookup_app_l in Hi by done.
        rewrite take_app_le by lia. by apply Hb1.
      * rewrite lookup_app_r in Hi by lia.
        destruct (i - length (events r))%nat; simplify_eq/=. apply Hc.
    + unfold watch in *. simpl. rewrite fold_left_app. simpl.
      destruct (result r); auto.
Qed.

Lemma monitored_for_in {X0 S} (xs : list X0) (body : S -> X0 -> M S)
    (Inv : S -> T -> Prop) (X : T -> Prop) acc t :
  (forall acc t x, Inv acc t -> monitored step R t (body acc x) Inv X) ->
  Inv acc t -> monitored step R t (for_in xs body acc) Inv X.
Proof.
  intros Hb. revert acc t. induction xs as [|x xs IH]; intros acc t Ht; simpl.
  - by apply monitored_ret.
  - eapply monitored_bind; [by apply Hb|]. intros acc' t' Ht'. by apply IH.
Qed.

Lemma monitored_weaken {A} t (m : M A) (J J' : A -> T -> Prop)
    (X X' : T -> Prop) :
  monitored step R t m J X ->
  (forall a t', J a t' -> J' a t') -> (forall t', X t' -> X' t') ->
  monitored step R t m J' X'.
Proof.
  intros Hm HJ HX h s. destruct (Hm h s) as [H1 H2]. split; [done|].
  destruct (result (m h s)); auto.
Qed.

Lemma monitored_ext {A} t (m m' : M A) (J : A -> T -> Prop) (X : T -> Prop) :
  (forall h s, m' h s = m h s) ->
  monitored step R t m J X -> monitored step R t m' J X.
Proof. intros He Hm h s. rewrite He. apply Hm. Qed.

Lemma monitored_bind_ret {A B} t (a : A) (k : A -> M B) K (X : T -> Prop) :
  monitored step R t (k a) K X -> monitored step R t (bind (ret a) k) K X.
Proof. apply monitored_ext. intros h s. apply bind_ret. Qed.

Lemma monitored_bind_raise {A B} t e (k : A -> M B) (K : B -> T -> Prop)
    (X : T -> Prop) :
  X t -> monitored step R t (bind (raise e) k) K X.
Proof.
  intros HX. apply (monitored_ext t (raise e)); [done|].
  by apply monitored_raise.
Qed.

Lemma monitored_bind_assoc {A B C} t (m : M A) (k1 : A -> M B)
    (k2 : B -> M C) K (X : T -> Prop) :
  monitored step R t (bind m (fun a => bind (k1 a) k2)) K X ->
  monitored step R t (bind (bind m k1) k2) K X.
Proof. apply monitored_ext. intros h s. apply bind_assoc. Qed.

Lemma monitored_bind_lookup_geogrid {B} t id (k : GeoGrid -> M B) K
    (X : T -> Prop) :
  X t -> (forall g, monitored step R t (k g) K X) ->
  monitored step R t (bind (lookup_geogrid id) k) K X.
Proof.
  intros HX Hk.
  apply monitored_bind with (J := fun _ t' => t' = t).
  - by apply monitored_lookup_geogrid.
  - intros g t' ->. apply Hk.
Qed.

Lemma monitored_bind_lookup_output_paths {B} t cfg key (k : OutPaths -> M B)
    K (X : T -> Prop) :
  X t -> (forall p, monitored step R t (k p) K X) ->
  monitored step R t (bind (lookup_output_paths cfg key) k) K X.
Proof.
  intros HX Hk.
  apply monitored_bind with (J := fun _ t' => t' = t).
  - by apply monitored_lookup_output_paths.
  - intros g t' ->. apply Hk.
Qed.

Lemma monitored_for_in_elem {X0 S} (xs : list X0) (body : S -> X0 -> M S)
    (Inv : S -> T -> Prop) (X : T -> Prop) acc t :
  (forall acc t x, x ∈ xs -> Inv acc t -> monitored step R t (body acc x) Inv X) ->
  Inv acc t -> monitored step R t (for_in xs body acc) Inv X.
Proof.
  revert acc t. induction xs as [|x xs IH]; intros acc t Hb Ht; simpl.
  - by apply monitored_ret.
  - eapply monitored_bind; [apply Hb; [left|done]|].
    intros acc' t' Ht'. apply IH; [|done].
    intros acc0 t0 x0 Hx0. apply Hb. by right.
Qed.

(** The same rules with the next state of the monitor named, so that a
    walk can keep the state in normal form. *)
Lemma monitored_bind_call_to {A B} t t' c (v : A) (k : A -> M B) K
    (X : T -> Prop) :
  (forall o, R t (Ev c o)) ->
  (forall e, X (step t (Ev c (Raised e)))) ->
  step t (Ev c Returned) = t' ->
  monitored step R t' (k v) K X ->
  monitored step R t (bind (call L c v) k) K X.
Proof. intros HR HX <-. by apply monitored_bind_call. Qed.

Lemma monitored_bind_makedirs_to {B} t t' p (k : unit -> M B) K
    (X : T -> Prop) :
  (forall o, R t (Ev (Makedirs p) o)) ->
  (forall e, X (step t (Ev (Makedirs p) (Raised e)))) ->
  step t (Ev (Makedirs p) Created) = t' ->
  step t (Ev (Makedirs p) Returned) = t' ->
  monitored step R t' (k tt) K X ->
  monitored step R t (bind (makedirs L p) k) K X.
Proof.
  intros HR HX H1 <-. by apply monitored_bind_makedirs.
Qed.

End Monitor.

(** One step along the structure of a wrapper; [side] settles what is
    asked of single events.  A conditional in front of a [bind] is either
    split with what follows it ([monitored_with]), or walked on its own
    when it leaves the monitor where it was ([monitored_quiet]). *)
Ltac monitored_call_step side :=
  first
    [ apply monitored_bind_assoc
    | apply monitored_bind_ret
    | apply monitored_bind_raise; side
    | apply monitored_bind_call; [intros; side | intros; side | ]
    | apply monitored_bind_makedirs; [intros; side | intros; side | side | ]
    | apply monitored_bind_lookup_geogrid; [side | intros ?]
    | apply monitored_bind_lookup_output_paths; [side | intros ?]
    | apply monitored_call; [intros; side | side | intros; side]
    | apply monitored_makedirs; [intros; side | side | side | intros; side]
    | apply monitored_ret; side
    | apply monitored_raise; side
    | match goal with
      | |- monitored _ _ _ (if ?b then _ else _) _ _ => destruct b eqn:?
      | |- monitored _ _ _ (match ?x with _ => _ end) _ _ => destruct x eqn:?
      end ].

Ltac monitored_split_step :=
  match goal with
  | |- monitored _ _ _ (bind (if ?b then _ else _) _) _ _ => destruct b eqn:?
  | |- monitored _ _ _ (bind (match ?x with _ => _ end) _) _ _ =>
      destruct x eqn:?
  end.

Ltac monitored_same_step :=
  match goal with
  | |- monitored _ _ _ (bind (if _ then _ else _) _) _ _ =>
      apply monitored_bind_same; [ | intros ?]
  end.

Ltac monitored_with side :=
  repeat (cbv beta zeta;
          first [monitored_call_step side | monitored_split_step]).

Ltac monitored_quiet side :=
  repeat (cbv beta zeta;
          first [monitored_call_step side | monitored_same_step]).

(** The walk with the state of the monitor brought to normal form by
    [norm] after every call. *)
Ltac monitored_norm_step side norm :=
  first
    [ apply monitored_bind_assoc
    | apply monitored_bind_ret
    | apply monitored_bind_raise; side
    | eapply monitored_bind_call_to; [intros; side | intros; side | norm | ]
    | eapply monitored_bind_makedirs_to;
        [intros; side | intros; side | norm | norm | ]
    | apply monitored_bind_lookup_geogrid; [side | intros ?]
    | apply monitored_bind_lookup_output_paths; [side | intros ?]
    | apply monitored_call; [intros; side | side | intros; side]
    | apply monitored_makedirs; [intros; side | side | side | intros; side]
    | apply monitored_ret; side
    | apply monitored_raise; side
    | match goal with
      | |- monitored _ _ _ (if ?b then _ else _) _ _ => destruct b eqn:?
      | |- monitored _ _ _ (match ?x with _ => _ end) _ _ => destruct x eqn:?
      | |- monitored _ _ _ (bind (if _ then _ else _) _) _ _ =>
          apply monitored_bind_same; [ | intros ?]
      end ].

Ltac monitored_norm side norm :=
  repeat (cbv beta zeta; monitored_norm_step side norm).

(** *** s1_geo2rdr.run: output directories and the CUDA device *)

Lemma watch_ensured evs t d :
  d ∈ watch ensured t evs ->
  d ∈ t \/ exists j o, evs !! j = Some (Ev (Makedirs d) o) /\
                       not_raised (Ev (Makedirs d) o).
Proof.
  revert t. induction evs as [|ev evs IH]; intros t; simpl; [auto|].
  intros Hd. apply IH in Hd as [Hd | (j & o & Hj & Ho)].
  - destruct ev as [[] []]; simpl in Hd; auto.
    all: apply elem_of_cons in Hd as [-> | Hd]; auto.
    all: right; by eexists 0%nat, _.
  - right. by exists (S j), o.
Qed.

Section Ready.
Context (L : Library).

Lemma geo2rdr_burst_ready cfg on_gpu ell thr it bl processed b t :
  monitored ensured (geo2rdr_ready cfg) t
    (geo2rdr_burst L cfg on_gpu ell thr it bl processed b)
    (fun _ _ => True) (fun _ => True).
Proof.
  unfold geo2rdr_burst.
  monitored_with ltac:(simpl; try done).
  all: repeat split; set_solver.
Qed.

Lemma s1_geo2rdr_run_ready cfg :
  monitored ensured (geo2rdr_ready cfg) []
    (s1_geo2rdr_run L cfg) (fun _ _ => True) (fun _ => True).
Proof.
  unfold s1_geo2rdr_run.
  monitored_with ltac:(simpl; try done).
  all: eapply monitored_bind with (J := fun _ _ => True);
    [ apply monitored_for_in; [intros; apply geo2rdr_burst_ready | done]
    | intros; monitored_with ltac:(simpl; try done) ].
Qed.

End Ready.

(** X1.  Whenever [s1_geo2rdr.run] invokes the engine, the output
    directory it passes is [scratch_path/burst_id/date] of the burst
    whose radar grid the engine object holds, the topography raster is
    [topo.vrt] of the reference directory, and an earlier [os.makedirs]
    of the same run, which did not raise, has ensured that very
    directory. *)
Theorem geo2rdr_output_dir_ready (L : Library) (cfg : RunConfig)
    (h : list Event) (s : State) (i : nat) (o : Geo2RdrObj) (topo : Raster)
    (d : string) (out : Outcome) :
  let r := s1_geo2rdr_run L cfg h s in
  events r !! i = Some (Ev (Geo2RdrRun o topo d) out) ->
  d = burst_output_path cfg (grid_burst (g_radar_grid o)) /\
  topo = RasterAt (reference_radar_info_path cfg +:+ "/topo.vrt") /\
  made_before (events r) i d.
Proof.
  intros r Hi. destruct (s1_geo2rdr_run_ready L cfg h s) as [H _].
  apply H in Hi as (Hd & -> & ->). split; [done|]. split; [done|].
  apply watch_ensured in Hd as [Hd | (j & o' & Hj & Ho)]; [set_solver|].
  apply lookup_take_Some in Hj as [Hj Hlt]. by exists j, o'.
Qed.

Lemma geo2rdr_output_dir_ready_witness :
  made_before (events (s1_geo2rdr_run sample_library sample_cfg [] sample_state))
    11 "scratch/t071_151200_iw1/20220105".
Proof.
  edestruct (geo2rdr_output_dir_ready sample_library sample_cfg []
               sample_state 11) as (_ & _ & H); [reflexivity|]. exact H.
Defined.

Section Device.
Context (L : Library).

Lemma geo2rdr_burst_device cfg g ell thr it bl processed b :
  monitored device_set (device_first (gpu_id cfg) g) g
    (geo2rdr_burst L cfg g ell thr it bl processed b)
    (fun _ t => t = g) (fun _ => True).
Proof.
  unfold geo2rdr_burst. monitored_with ltac:(simpl; try done).
Qed.

Lemma s1_geo2rdr_run_device cfg :
  monitored device_set
    (device_first (gpu_id cfg) (use_gpu L (gpu_enabled cfg) (gpu_id cfg)))
    false (s1_geo2rdr_run L cfg) (fun _ _ => True) (fun _ => True).
Proof.
  unfold s1_geo2rdr_run.
  monitored_with ltac:(simpl; try done).
  all: eapply monitored_bind with
         (J := fun _ t => t = use_gpu L (gpu_enabled cfg) (gpu_id cfg));
    [ apply monitored_for_in;
      [intros ? ? ? ->; rewrite ?Heqb; apply geo2rdr_burst_device
      |simpl; by rewrite ?Heqb]
    | intros; monitored_with ltac:(simpl; try done) ].
Qed.

Lemma watch_device_set evs :
  watch device_set false evs = true ->
  exists j id, evs !! j = Some (Ev (CudaSetDevice id) Returned).
Proof.
  induction evs as [|ev evs IH] using rev_ind; [done|].
  rewrite watch_app. simpl. intros Hw.
  destruct (watch device_set false evs) eqn:Hprev.
  - destruct IH as (j & id & Hj); [done|]. exists j, id.
    by apply lookup_app_l_Some.
  - destruct ev as [[] []]; simpl in Hw; try done.
    eexists (length evs), _. by rewrite list_lookup_middle.
Qed.

End Device.

Lemma watch_tally f n evs : watch (tally f) n evs = (n + count f evs)%nat.
Proof.
  revert n. induction evs as [|ev evs IH]; intros n; simpl; [lia|].
  rewrite IH. unfold tally. destruct (f ev); lia.
Qed.

Section Tally.
Context (L : Library).

(** A loop whose turns each add [k] to the tally adds [k] for each
    element; a loop that stops early adds no more. *)
Lemma monitored_for_in_tally {X0 S} f (k : nat) (xs : list X0)
    (body : S -> X0 -> M S) acc t :
  (forall acc t x, x ∈ xs ->
     monitored (tally f) (fun _ _ => True) t (body acc x)
       (fun _ t' => t' = (t + k)%nat) (fun t' => (t' <= t + k)%nat)) ->
  monitored (tally f) (fun _ _ => True) t (for_in xs body acc)
    (fun _ t' => t' = (t + k * length xs)%nat)
    (fun t' => (t' <= t + k * length xs)%nat).
Proof.
  revert acc t. induction xs as [|x xs IH]; intros acc t Hb; simpl.
  - apply monitored_ret. lia.
  - eapply monitored_bind.
    + eapply monitored_weaken; [apply Hb; left | done | simpl; intros; lia].
    + intros acc' t' ->. simpl.
      eapply monitored_weaken;
        [apply IH; intros; apply Hb; by right | |]; simpl; intros; lia.
Qed.

Lemma geo2rdr_burst_no_device cfg g ell thr it bl processed b t :
  monitored (tally is_cuda_device) (fun _ _ => True) t
    (geo2rdr_burst L cfg g ell thr it bl processed b)
    (fun _ t' => t' = (t + 0)%nat) (fun t' => (t' <= t + 0)%nat).
Proof.
  unfold geo2rdr_burst.
  monitored_with ltac:(simpl; unfold tally; simpl; try done; try lia).
Qed.

Lemma s1_geo2rdr_run_device_tally cfg :
  let n := if use_gpu L (gpu_enabled cfg) (gpu_id cfg) then 2%nat else 0%nat in
  monitored (tally is_cuda_device) (fun _ _ => True) 0%nat
    (s1_geo2rdr_run L cfg) (fun _ t => t = n) (fun t => (t <= n)%nat).
Proof.
  unfold s1_geo2rdr_run.
  monitored_with ltac:(simpl; unfold tally; simpl; try done; try lia).
  all: eapply monitored_bind;
    [ eapply monitored_weaken;
      [ apply (monitored_for_in_tally is_cuda_device 0);
        intros; apply geo2rdr_burst_no_device
      | simpl; intros ? ? H; exact H
      | unfold tally; simpl; intros; lia ]
    | simpl; intros ? ? ->;
      monitored_with ltac:(simpl; unfold tally; simpl; try done; try lia) ].
Qed.

End Tally.

(** X2.  [s1_geo2rdr.run] touches the CUDA device only when [use_gpu]
    says so: without it no [Device] and no [set_device] call is made; with
    it at most two such calls are made in any execution and exactly two in
    one that returns, each of them for [cfg.gpu_id].  Every engine object
    is of the CUDA class exactly when [use_gpu] holds, and is then built
    after [set_device] has returned for [cfg.gpu_id]. *)
Theorem geo2rdr_device_selection (L : Library) (cfg : RunConfig)
    (h : list Event) (s : State) :
  let r := s1_geo2rdr_run L cfg h s in
  let g := use_gpu L (gpu_enabled cfg) (gpu_id cfg) in
  (count is_cuda_device (events r) <= if g then 2 else 0)%nat /\
  (returned r -> count is_cuda_device (events r) = if g then 2%nat else 0%nat) /\
  (forall i id out,
     events r !! i = Some (Ev (CudaDevice id) out) \/
     events r !! i = Some (Ev (CudaSetDevice id) out) -> id = gpu_id cfg) /\
  (forall i o out,
     events r !! i = Some (Ev (Geo2RdrInit o) out) ->
     g_on_gpu o = g /\
     (g = true -> exists j, (j < i)%nat /\
        events r !! j = Some (Ev (CudaSetDevice (gpu_id cfg)) Returned))).
Proof.
  intros r g.
  destruct (s1_geo2rdr_run_device_tally L cfg h s) as [_ Hn].
  destruct (s1_geo2rdr_run_device L cfg h s) as [Hd _].
  fold r in Hn, Hd. rewrite watch_tally in Hn. simpl in Hn. fold g in Hn, Hd.
  split; [|split; [|split]].
  - destruct (result r); lia.
  - intros [a Ha]. by rewrite Ha in Hn.
  - intros i id out [Hi | Hi]; apply Hd in Hi; simpl in Hi; tauto.
  - intros i o out Hi. pose proof (Hd _ _ Hi) as [Ho Ht]. split; [done|].
    intros Hg. rewrite Hg in Ht.
    apply watch_device_set in Ht as (j & id & Hj).
    apply lookup_take_Some in Hj as [Hj Hlt]. exists j. split; [done|].
    pose proof (Hd _ _ Hj) as [-> _]. done.
Qed.

Lemma geo2rdr_device_selection_witness :
  exists j, (j < 12)%nat /\
    events (s1_geo2rdr_run other_library other_cfg [] other_state) !! j =
      Some (Ev (CudaSetDevice 1) Returned).
Proof.
  destruct (geo2rdr_device_selection other_library other_cfg [] other_state)
    as (_ & _ & _ & H).
  edestruct (H 12%nat) as [_ Hset]; [reflexivity|]. by apply Hset.
Defined.

(** *** Directories and files of the geocoding wrappers *)

Section SlcReady.
Context (L : Library).

Lemma geocode_slc_burst_ready cfg thr it bl fl b t :
  b ∈ bursts cfg ->
  monitored ensured (slc_ready cfg) t
    (geocode_slc_burst L cfg thr it bl fl b)
    (fun _ _ => True) (fun _ => True).
Proof.
  intros Hb. unfold geocode_slc_burst, call_s1_geocode_metadata_run.
  monitored_quiet ltac:(simpl; try done).
  all: try (apply monitored_with with
              (J' := fun _ _ => True) (X' := fun _ => True);
            [..|done|done]; intros; simpl; try done;
            try (monitored_quiet ltac:(simpl; try done))).
  all: unfold scratch_dir, product_dir, id_pol; try (split; [set_solver|done]).
  all: try (exists b; (split; [done|]); split; [set_solver|done]).
Qed.

Lemma s1_geocode_slc_run_ready cfg :
  monitored ensured (slc_ready cfg) []
    (s1_geocode_slc_run L cfg) (fun _ _ => True) (fun _ => True).
Proof.
  unfold s1_geocode_slc_run.
  monitored_with ltac:(simpl; try done).
  eapply monitored_bind with (J := fun _ _ => True);
    [ apply monitored_for_in_elem;
      [intros; by apply geocode_slc_burst_ready | done]
    | intros; monitored_with ltac:(simpl; try done) ].
Qed.

End SlcReady.

Section Handles.
Context (L : Library).

Lemma opened_closed (p : string) : filter (fun q => q <> p) [p] = [].
Proof. rewrite filter_cons_False; [done|]. intros H. by apply H. Qed.

Ltac handles_side :=
  simpl; try done;
  try (intros ? ?; set_solver);
  try apply opened_closed.

Lemma geocode_layer_handles h5 input rg dem bs shape gt code layer :
  monitored opened while_open [h5]
    (geocode_layer L h5 input rg dem bs shape gt code layer)
    (fun _ t => t = [h5]) (fun t => t = [h5]).
Proof.
  unfold geocode_layer. destruct layer as [layer_name enabled].
  monitored_with ltac:(handles_side).
Qed.

Lemma s1_geocode_metadata_run_handles cfg burst fetch :
  monitored opened while_open []
    (s1_geocode_metadata_run L cfg burst fetch)
    (fun _ t => t = []) (fun t => t = []).
Proof.
  unfold s1_geocode_metadata_run.
  monitored_with ltac:(handles_side).
  eapply monitored_bind with (J := fun _ t => t = []).
  - eapply monitored_with with
      (J' := fun _ t => t = [p.(output_directory) +:+ "/topo.h5"])
      (X' := fun t => t = [p.(output_directory) +:+ "/topo.h5"]).
    1, 2, 4: handles_side.
    + apply monitored_for_in; [|done].
      intros [] t x ->. apply geocode_layer_handles.
    + intros [] t ->. handles_side.
    + intros t ->. handles_side.
  - intros [] t ->. monitored_with ltac:(handles_side).
Qed.

Lemma geocode_slc_burst_handles cfg thr it bl fl b :
  monitored opened while_open []
    (geocode_slc_burst L cfg thr it bl fl b)
    (fun _ t => t = []) (fun t => t = []).
Proof.
  unfold geocode_slc_burst, call_s1_geocode_metadata_run.
  monitored_quiet ltac:(handles_side).
  eapply monitored_with with
    (J' := fun _ t => t = [product_dir cfg b +:+ "/" +:+ id_pol b +:+ ".json"])
    (X' := fun t => t = [product_dir cfg b +:+ "/" +:+ id_pol b +:+ ".json"]).
  1, 2, 4: handles_side.
  - monitored_with ltac:(handles_side).
  - intros [] t ->. handles_side.
  - intros t ->. handles_side.
Qed.

Lemma s1_geocode_slc_run_handles cfg :
  monitored opened while_open []
    (s1_geocode_slc_run L cfg) (fun _ t => t = []) (fun t => t = []).
Proof.
  unfold s1_geocode_slc_run.
  monitored_with ltac:(handles_side).
  eapply monitored_bind with (J := fun _ t => t = []).
  - apply monitored_for_in; [|done].
    intros [] t x ->. apply geocode_slc_burst_handles.
  - intros [] t ->. monitored_with ltac:(handles_side).
Qed.

End Handles.

(** X3.  [s1_geocode_slc.run] and [s1_geocode_metadata.run] leave no
    file open, whether they return or raise: what a [with] statement has
    opened is closed when the run ends.  The datasets, attributes and
    rasters of the HDF5 file, and the metadata written to the JSON file,
    are worked on while their file is open; both kinds of file are opened
    in mode [w]. *)
Theorem files_closed_and_used_while_open (L : Library) (cfg : RunConfig)
    (burst : Burst) (fetch_from_scratch : bool) (h : list Event) (s : State) :
  let slc := s1_geocode_slc_run L cfg h s in
  let meta := s1_geocode_metadata_run L cfg burst fetch_from_scratch h s in
  open_files (events slc) = [] /\
  open_files (events meta) = [] /\
  (forall i ev p, events slc !! i = Some ev -> p ∈ file_used ev ->
                  p ∈ open_files (take i (events slc))) /\
  (forall i ev p, events meta !! i = Some ev -> p ∈ file_used ev ->
                  p ∈ open_files (take i (events meta))) /\
  (forall i p mode o,
     events slc !! i = Some (Ev (FileOpen p mode) o) \/
     events meta !! i = Some (Ev (H5Open p mode) o) -> mode = "w").
Proof.
  intros slc meta.
  destruct (s1_geocode_slc_run_handles L cfg h s) as [Hs1 Hs2].
  destruct (s1_geocode_metadata_run_handles L cfg burst fetch_from_scratch h s)
    as [Hm1 Hm2].
  fold slc in Hs1, Hs2. fold meta in Hm1, Hm2.
  split; [by destruct (result slc)|]. split; [by destruct (result meta)|].
  split; [|split].
  - intros i ev p Hi Hp. specialize (Hs1 i ev Hi).
    destruct ev as [[] ?]; simpl in *; try done;
      first [by apply Hs1 | by apply elem_of_nil in Hp].
  - intros i ev p Hi Hp. specialize (Hm1 i ev Hi).
    destruct ev as [[] ?]; simpl in *; try done;
      first [by apply Hm1 | by apply elem_of_nil in Hp].
  - intros i p mode o [Hi | Hi]; [apply Hs1 in Hi | apply Hm1 in Hi];
      simpl in Hi; tauto.
Qed.

(** *** The interpolator of the layers and the DEM of the bursts *)

Lemma watch_nearest evs :
  watch nearest false evs = true <->
  exists j, evs !! j = Some (Ev (GeocodeSetAttr "data_interpolator") Returned).
Proof.
  induction evs as [|ev evs IH] using rev_ind.
  { split; [done | by intros [j ?]]. }
  rewrite watch_app. simpl. split.
  - intros Hw. destruct (watch nearest false evs) eqn:Hprev.
    + destruct IH as [IH _]. destruct IH as [j Hj]; [done|].
      exists j. by apply lookup_app_l_Some.
    + destruct ev as [[] []]; simpl in Hw; try done.
      destruct (String.eqb attr "data_interpolator") eqn:E; [|done].
      apply String.eqb_eq in E as ->.
      exists (length evs). by rewrite list_lookup_middle.
  - intros [j Hj].
    destruct (decide (j < length evs)%nat) as [Hlt|Hge].
    + rewrite lookup_app_l in Hj by done.
      destruct IH as [_ IH]. rewrite IH by eauto.
      destruct ev as [[] []]; simpl; try done. by case_match.
    + rewrite lookup_app_r in Hj by lia.
      destruct (j - length evs)%nat; simplify_eq/=. done.
Qed.

Section Interpolation.
Context (L : Library).

Lemma geocode_layer_plain h5 input rg dem bs shape gt code name enabled :
  name <> "layover_shadow_mask" ->
  monitored nearest layer_interpolation false
    (geocode_layer L h5 input rg dem bs shape gt code (name, enabled))
    (fun _ t => t = false) (fun _ => True).
Proof.
  intros Hn. unfold geocode_layer.
  rewrite bool_decide_eq_false_2 by done.
  apply String.eqb_neq in Hn.
  monitored_with ltac:(simpl; rewrite ?Hn; try done).
Qed.

Lemma geocode_layer_mask h5 input rg dem bs shape gt code enabled :
  monitored nearest layer_interpolation false
    (geocode_layer L h5 input rg dem bs shape gt code
       ("layover_shadow_mask", enabled))
    (fun _ _ => True) (fun _ => True).
Proof.
  unfold geocode_layer. rewrite bool_decide_eq_true_2 by done.
  monitored_with ltac:(simpl; try done).
Qed.

Lemma s1_geocode_metadata_run_interpolation cfg burst fetch :
  monitored nearest layer_interpolation false
    (s1_geocode_metadata_run L cfg burst fetch)
    (fun _ _ => True) (fun _ => True).
Proof.
  unfold s1_geocode_metadata_run.
  monitored_with ltac:(simpl; try done).
  eapply monitored_bind with (J := fun _ _ => True).
  - eapply monitored_with with (J' := fun _ _ => True) (X' := fun _ => True);
      try done.
    unfold meta_layers. cbn [for_in nearest String.eqb Ascii.eqb Bool.eqb].
    do 6 (apply monitored_bind_same;
          [by apply geocode_layer_plain | intros _]).
    eapply monitored_bind; [apply geocode_layer_mask|].
    intros. by apply monitored_ret.
  - intros. monitored_with ltac:(simpl; try done).
Qed.

End Interpolation.

(** X4.  [s1_geocode_metadata.run] geocodes every layer into a dataset
    of the HDF5 file.  When a layer is geocoded, the attribute
    [data_interpolator] of the geocoding object has been set earlier in
    the run exactly when the layer is [layover_shadow_mask]: the mask, the
    last of the layers, is the only one geocoded with the nearest
    neighbour.  The dataset of the mask is created as bytes, every other
    one as single precision floats. *)
Theorem nearest_neighbour_for_mask_only (L : Library) (cfg : RunConfig)
    (burst : Burst) (fetch_from_scratch : bool) (h : list Event) (s : State) :
  let r := s1_geocode_metadata_run L cfg burst fetch_from_scratch h s in
  (forall i rg input output dem_raster bs out,
     events r !! i = Some (Ev (GeocodeRun rg input output dem_raster bs) out) ->
     exists h5 ds, output = RasterH5 h5 ds /\
       ((exists j, (j < i)%nat /\
           events r !! j =
             Some (Ev (GeocodeSetAttr "data_interpolator") Returned)) <->
        ds = "layover_shadow_mask")) /\
  (forall i h5 ds dtype shape out,
     events r !! i = Some (Ev (H5CreateDataset h5 ds dtype shape) out) ->
     (ds = "layover_shadow_mask" -> dtype = "byte") /\
     (ds <> "layover_shadow_mask" -> dtype = "single")).
Proof.
  intros r.
  destruct (s1_geocode_metadata_run_interpolation L cfg burst
              fetch_from_scratch h s) as [H _]. fold r in H.
  split.
  - intros i rg input output dem_raster bs out Hi.
    pose proof (H _ _ Hi) as Ht. simpl in Ht.
    destruct output as [| |h5 ds|]; try done. exists h5, ds. split; [done|].
    rewrite <- String.eqb_eq, <- Ht, watch_nearest. split.
    + intros (j & Hlt & Hj). exists j. by apply lookup_take_Some.
    + intros (j & Hj). apply lookup_take_Some in Hj as [Hj Hlt]. eauto.
  - intros i h5 ds dtype shape out Hi.
    pose proof (H _ _ Hi) as Ht. simpl in Ht. split.
    + intros ->. done.
    + intros Hn. apply String.eqb_neq in Hn. by rewrite Hn in Ht.
Qed.

Lemma watch_dem_fresh dem t evs i ev :
  watch (dem_fresh dem) t evs = true ->
  evs !! i = Some ev -> is_geocode_slc ev = true ->
  exists k, (i < k)%nat /\ evs !! k = Some (Ev (RasterOpen dem) Returned).
Proof.
  revert i ev. induction evs as [|ev' evs IH] using rev_ind; [done|].
  intros i ev. rewrite watch_app. simpl. intros Hw Hi Hev.
  assert (Hin : (i < length evs)%nat).
  { destruct (decide (i < length evs)%nat) as [|Hge]; [done|].
    rewrite lookup_app_r in Hi by lia.
    destruct (i - length evs)%nat; simplify_eq/=.
    destruct ev as [[] ?]; simplify_eq/=. }
  rewrite lookup_app_l in Hi by done.
  destruct (watch (dem_fresh dem) t evs) eqn:Hprev.
  - destruct (IH i ev eq_refl Hi Hev) as (k & Hk & Hopen).
    exists k. split; [done|]. by apply lookup_app_l_Some.
  - destruct ev' as [[] []]; simpl in Hw; try done.
    destruct (String.eqb path dem) eqn:E; [|done].
    apply String.eqb_eq in E as ->.
    exists (length evs). split; [done|]. by rewrite list_lookup_middle.
Qed.

Section Dem.
Context (L : Library).

Ltac dem_side :=
  simpl; rewrite ?String.eqb_refl; try done;
  try (split; [by repeat case_match | done]).

Lemma geocode_slc_burst_dem cfg thr it bl fl b t :
  monitored (dem_fresh (dem cfg)) (dem_reopened (dem cfg)) t
    (geocode_slc_burst L cfg thr it bl fl b)
    (fun _ _ => True) (fun _ => True).
Proof.
  unfold geocode_slc_burst, call_s1_geocode_metadata_run.
  monitored_with ltac:(dem_side).
  all: apply monitored_with with (J' := fun _ _ => True) (X' := fun _ => True);
    try done; monitored_with ltac:(dem_side).
Qed.

Lemma s1_geocode_slc_run_dem cfg t :
  monitored (dem_fresh (dem cfg)) (dem_reopened (dem cfg)) t
    (s1_geocode_slc_run L cfg) (fun _ _ => True) (fun _ => True).
Proof.
  unfold s1_geocode_slc_run.
  monitored_with ltac:(dem_side).
  eapply monitored_bind with (J := fun _ _ => True).
  - apply monitored_for_in; [|done]. intros. apply geocode_slc_burst_dem.
  - intros. monitored_with ltac:(dem_side).
Qed.

End Dem.

(** X5.  [s1_geocode_slc.run] passes to every call of [geocode_slc] the
    raster of [cfg.dem], and opens the DEM anew between any two such
    calls: no DEM raster serves two bursts. *)
Theorem dem_reopened_for_every_burst (L : Library) (cfg : RunConfig)
    (h : list Event) (s : State) :
  let r := s1_geocode_slc_run L cfg h s in
  (forall j out_raster in_raster dem_raster rg sl g orb dop ell thr it bl fl out,
     events r !! j =
       Some (Ev (GeocodeSlcCall out_raster in_raster dem_raster rg sl g orb dop
                   ell thr it bl fl) out) ->
     dem_raster = RasterAt (dem cfg)) /\
  (forall i j ev ev', (i < j)%nat ->
     events r !! i = Some ev -> is_geocode_slc ev = true ->
     events r !! j = Some ev' -> is_geocode_slc ev' = true ->
     exists k, (i < k < j)%nat /\
       events r !! k = Some (Ev (RasterOpen (dem cfg)) Returned)).
Proof.
  intros r.
  destruct (s1_geocode_slc_run_dem L cfg false h s) as [H _]. fold r in H.
  split.
  - intros j ? ? ? ? ? ? ? ? ? ? ? ? ? out Hj. apply H in Hj. apply Hj.
  - intros i j ev ev' Hij Hi Hev Hj Hev'.
    pose proof (H _ _ Hj) as Ht.
    destruct ev' as [[] ?]; simplify_eq/=. destruct Ht as [Ht _].
    destruct (watch_dem_fresh (dem cfg) false (take j (events r)) i ev Ht)
      as (k & Hik & Hk); [by apply lookup_take_Some | done |].
    apply lookup_take_Some in Hk as [Hk Hkj]. exists k. split; [lia|done].
Qed.

(** *** How the geocoding wrappers end *)

Section Ends.
Context (L : Library).
Context (Q : gmap string GeoGrid -> Exn -> Prop).

Lemma ends_ret {A} (Pre P : gmap string GeoGrid -> Prop) (a : A) :
  (forall G, Pre G -> P G) -> ends Pre Q P (ret a).
Proof. intros HP h s Hs. split; [done|]. by apply HP. Qed.

Lemma ends_raise {A} (Pre P : gmap string GeoGrid -> Prop) e :
  (forall G, Pre G -> Q G e) -> ends Pre Q P (@raise A e).
Proof. intros HQ h s Hs. split; [done|]. by apply HQ. Qed.

Lemma ends_call {A} (Pre P : gmap string GeoGrid -> Prop) c (v : A) :
  (forall G n, Pre G -> Q G (ExtError n)) -> (forall G, Pre G -> P G) ->
  ends Pre Q P (call L c v).
Proof.
  intros HQ HP h s Hs. rewrite run_call.
  destruct (fault L h c); simpl; auto.
Qed.

Lemma ends_makedirs (Pre P : gmap string GeoGrid -> Prop) p :
  (forall G n, Pre G -> Q G (ExtError n)) ->
  (forall G, Pre G -> Q G (FileExistsError p)) ->
  (forall G, Pre G -> P G) ->
  ends Pre Q P (makedirs L p).
Proof.
  intros HQ HF HP h s Hs. unfold makedirs.
  destruct (fault L h (Makedirs p)); [|destruct (fs s !! p) as [[]|]];
    simpl; auto.
Qed.

Lemma ends_bind {A B} (Pre P P' : gmap string GeoGrid -> Prop)
    (m : M A) (k : A -> M B) :
  ends Pre Q P m ->
  (forall a, ends (fun G => Pre G /\ P G) Q P' (k a)) ->
  ends Pre Q P' (bind m k).
Proof.
  intros Hm Hk h s Hs. destruct (Hm h s Hs) as [Hg Hr].
  destruct (bind_cases m k h s) as [(e & He & ->) | (a & Ha & ->)]; simpl.
  - rewrite He in Hr. done.
  - rewrite Ha in Hr.
    destruct (Hk a (h ++ events (m h s)) (final (m h s))) as [Hg' Hr'].
    { by rewrite Hg. }
    rewrite Hg in Hg', Hr'. done.
Qed.

Lemma ends_bind_call {A B} (Pre P : gmap string GeoGrid -> Prop) c (v : A)
    (k : A -> M B) :
  (forall G n, Pre G -> Q G (ExtError n)) ->
  ends Pre Q P (k v) -> ends Pre Q P (bind (call L c v) k).
Proof.
  intros HQ Hk h s Hs. rewrite bind_call.
  destruct (fault L h c); simpl; [auto|]. by apply Hk.
Qed.

Lemma ends_bind_makedirs {B} (Pre P : gmap string GeoGrid -> Prop) p
    (k : unit -> M B) :
  (forall G n, Pre G -> Q G (ExtError n)) ->
  (forall G, Pre G -> Q G (FileExistsError p)) ->
  ends Pre Q P (k tt) -> ends Pre Q P (bind (makedirs L p) k).
Proof.
  intros HQ HF Hk h s Hs. rewrite bind_makedirs.
  destruct (fault L h (Makedirs p)); simpl; [auto|].
  destruct (is_file s p); simpl; [auto|].
  destruct (Hk (h ++ [Ev (Makedirs p) (makedirs_outcome s p)])
               (ensure_dir s p)) as [Hg Hr].
  { unfold ensure_dir. by destruct (fs s !! p). }
  assert (geogrids (ensure_dir s p) = geogrids s) as Hsame.
  { unfold ensure_dir. by destruct (fs s !! p). }
  by rewrite Hsame in Hg, Hr.
Qed.

Lemma ends_bind_lookup_geogrid {B} (Pre P : gmap string GeoGrid -> Prop) id
    (k : GeoGrid -> M B) :
  (forall G, Pre G -> G !! id = None -> Q G (KeyError [id])) ->
  (forall g, ends (fun G => Pre G /\ G !! id = Some g) Q P (k g)) ->
  ends Pre Q P (bind (lookup_geogrid id) k).
Proof.
  intros HQ Hk h s Hs. rewrite bind_lookup_geogrid.
  destruct (geogrids s !! id) as [g|] eqn:E; simpl; [|auto].
  by apply Hk.
Qed.

Lemma ends_bind_lookup_output_paths {B} (Pre P : gmap string GeoGrid -> Prop)
    cfg key (k : OutPaths -> M B) :
  (forall G, Pre G -> output_paths cfg !! key = None ->
             Q G (KeyError [key.1; key.2])) ->
  (forall p, output_paths cfg !! key = Some p -> ends Pre Q P (k p)) ->
  ends Pre Q P (bind (lookup_output_paths cfg key) k).
Proof.
  intros HQ Hk h s Hs. unfold lookup_output_paths.
  destruct (output_paths cfg !! key) as [p|] eqn:E.
  - rewrite bind_ret. by apply Hk.
  - rewrite bind_raise. simpl. auto.
Qed.

Lemma ends_bind_ret {A B} (Pre P : gmap string GeoGrid -> Prop) (a : A)
    (k : A -> M B) :
  ends Pre Q P (k a) -> ends Pre Q P (bind (ret a) k).
Proof. intros Hk h s. rewrite bind_ret. apply Hk. Qed.

Lemma ends_bind_raise {A B} (Pre P : gmap string GeoGrid -> Prop) e
    (k : A -> M B) :
  (forall G, Pre G -> Q G e) -> ends Pre Q P (bind (raise e) k).
Proof. intros HQ h s Hs. rewrite bind_raise. simpl. auto. Qed.

Lemma ends_bind_assoc {A B C} (Pre P : gmap string GeoGrid -> Prop)
    (m : M A) (k1 : A -> M B) (k2 : B -> M C) :
  ends Pre Q P (bind m (fun a => bind (k1 a) k2)) ->
  ends Pre Q P (bind (bind m k1) k2).
Proof. intros Hk h s. rewrite bind_assoc. apply Hk. Qed.

Lemma ends_with {A} (Pre P : gmap string GeoGrid -> Prop) o c (body : M A) :
  (forall G n, Pre G -> Q G (ExtError n)) ->
  ends Pre Q P body -> ends Pre Q P (with_ L o c body).
Proof.
  intros HQ Hb h s Hs. rewrite run_with.
  destruct (fault L h o); simpl; [auto|]. by apply Hb.
Qed.

Lemma ends_for_in {X S} (Pre : gmap string GeoGrid -> Prop)
    (Px : X -> gmap string GeoGrid -> Prop)
    (xs : list X) (body : S -> X -> M S) acc :
  (forall acc x, x ∈ xs -> ends Pre Q (Px x) (body acc x)) ->
  ends Pre Q (fun G => forall x, x ∈ xs -> Px x G) (for_in xs body acc).
Proof.
  revert acc. induction xs as [|x xs IH]; intros acc Hb; simpl.
  - apply ends_ret. intros G _ x Hx. by apply elem_of_nil in Hx.
  - eapply ends_bind; [apply Hb; left|].
    intros a h s [Hs Hx]. destruct (IH a) with (h := h) (s := s) as [Hg Hr].
    + intros acc' y Hy. apply Hb. by right.
    + done.
    + split; [done|]. destruct (result _); [done|].
      intros y Hy. apply elem_of_cons in Hy as [-> | Hy]; auto.
Qed.

Lemma ends_weaken {A} (Pre Pre' P P' : gmap string GeoGrid -> Prop)
    (m : M A) :
  ends Pre Q P m -> (forall G, Pre' G -> Pre G) ->
  (forall G, Pre' G -> P G -> P' G) -> ends Pre' Q P' m.
Proof.
  intros Hm HPre HP h s Hs. destruct (Hm h s (HPre _ Hs)) as [Hg Hr].
  split; [done|]. destruct (result (m h s)); auto.
Qed.

End Ends.

Ltac ends_step side :=
  first
    [ apply ends_bind_assoc
    | apply ends_bind_ret
    | apply ends_bind_raise; intros; side
    | apply ends_bind_call; [intros; side | ]
    | apply ends_bind_makedirs; [intros; side | intros; side | ]
    | apply ends_bind_lookup_geogrid; [intros; side | intros ?]
    | apply ends_bind_lookup_output_paths; [intros; side | intros ? ?]
    | apply ends_call; [intros; side | intros; side]
    | apply ends_makedirs; [intros; side | intros; side | intros; side]
    | apply ends_with; [intros; side | ]
    | apply ends_ret; intros; side
    | apply ends_raise; intros; side
    | match goal with
      | |- ends _ _ _ (bind (if ?b then _ else _) _) => destruct b eqn:?
      | |- ends _ _ _ (if ?b then _ else _) => destruct b eqn:?
      | |- ends _ _ _ (bind (match ?x with _ => _ end) _) => destruct x eqn:?
      | |- ends _ _ _ (match ?x with _ => _ end) => destruct x eqn:?
      end ].

Ltac ends_with side := repeat (cbv beta zeta; ends_step side).

Section EndsOfWrappers.
Context (L : Library).

Lemma ends_vacuous {A} (Pre : gmap string GeoGrid -> Prop) Q P (m : M A) :
  (forall G, ~ Pre G) -> ends Pre Q P m.
Proof. intros Hn h s Hs. by apply Hn in Hs. Qed.

Lemma geocode_slc_burst_ends cfg thr it bl fl b :
  b ∈ bursts cfg ->
  ends (fun _ => True) (slc_exn cfg)
    (fun G => is_Some (G !! burst_id b) /\
              (rdr2geo_enabled (rdr2geo_params cfg) = true ->
               geocode_metadata_layers (rdr2geo_params cfg) = true -> False))
    (geocode_slc_burst L cfg thr it bl fl b).
Proof.
  intros Hb. unfold geocode_slc_burst, call_s1_geocode_metadata_run.
  ends_with ltac:(simpl; try done; try (by eauto);
                  try (split; [naive_solver | congruence])).
Qed.

Lemma s1_geocode_slc_run_ends cfg :
  ends (fun _ => True) (slc_exn cfg)
    (fun G => forall b, b ∈ bursts cfg ->
       is_Some (G !! burst_id b) /\
       (rdr2geo_enabled (rdr2geo_params cfg) = true ->
        geocode_metadata_layers (rdr2geo_params cfg) = true -> False))
    (s1_geocode_slc_run L cfg).
Proof.
  unfold s1_geocode_slc_run.
  ends_with ltac:(simpl; try done).
  eapply ends_bind.
  - apply ends_for_in with
      (Px := fun b G => is_Some (G !! burst_id b) /\
         (rdr2geo_enabled (rdr2geo_params cfg) = true ->
          geocode_metadata_layers (rdr2geo_params cfg) = true -> False)).
    intros acc b Hb. by apply geocode_slc_burst_ends.
  - intros _. ends_with ltac:(simpl; try done; try naive_solver).
Qed.

Lemma s1_geocode_metadata_run_ends cfg burst fetch :
  ends (fun _ => True) (metadata_exn cfg burst)
    (fun G => is_Some (G !! burst_id burst) /\
              is_Some (output_paths cfg !! id_date_of burst))
    (s1_geocode_metadata_run L cfg burst fetch).
Proof.
  unfold s1_geocode_metadata_run.
  ends_with ltac:(simpl; try done; try (by eauto);
                  try (unfold id_date_of in *; naive_solver)).
  eapply ends_bind with (P := fun _ => True).
  - apply ends_with; [by intros|].
    eapply ends_weaken with (Pre := fun _ => True);
      [apply ends_for_in with (Px := fun _ _ => True) | done | done].
    intros [] [name enabled] _. unfold geocode_layer.
    ends_with ltac:(simpl; try done).
  - intros _. ends_with ltac:(simpl; try done; try (by eauto);
                              try (unfold id_date_of in *; naive_solver)).
Qed.

End EndsOfWrappers.

Section TypeErrorOfSlc.
Context (L : Library).

Lemma geocode_slc_burst_stopped cfg thr it bl fl b t :
  rdr2geo_enabled (rdr2geo_params cfg) = true ->
  geocode_metadata_layers (rdr2geo_params cfg) = true ->
  monitored (tally is_geocode_slc) (fun _ _ => True) t
    (geocode_slc_burst L cfg thr it bl fl b)
    (fun _ _ => False) (fun t' => t' = t).
Proof.
  intros H1 H2. unfold geocode_slc_burst, call_s1_geocode_metadata_run.
  rewrite H1, H2.
  monitored_with ltac:(simpl; try done).
Qed.

Lemma s1_geocode_slc_run_stopped cfg :
  rdr2geo_enabled (rdr2geo_params cfg) = true ->
  geocode_metadata_layers (rdr2geo_params cfg) = true ->
  bursts cfg <> [] ->
  monitored (tally is_geocode_slc) (fun _ _ => True) 0%nat
    (s1_geocode_slc_run L cfg)
    (fun _ _ => False) (fun t' => t' = 0%nat).
Proof.
  intros H1 H2 Hne. unfold s1_geocode_slc_run.
  do 2 (apply monitored_bind_call; [done | done | cbv beta zeta]).
  destruct (bursts cfg) as [|b bs]; [done|].
  cbn [for_in]. apply monitored_bind_assoc.
  eapply monitored_bind; [by apply geocode_slc_burst_stopped|].
  by intros.
Qed.

End TypeErrorOfSlc.

(** X6.  [s1_geocode_slc.run] returns only if [cfg.geogrids] has a grid
    for every configured burst; a [KeyError] it raises carries the id of
    a configured burst that has no grid. *)
Theorem geocode_slc_needs_grids (L : Library) (cfg : RunConfig)
    (h : list Event) (s : State) :
  let r := s1_geocode_slc_run L cfg h s in
  (returned r ->
   forall b, b ∈ bursts cfg -> is_Some (geogrids s !! burst_id b)) /\
  (forall k, result r = inl (KeyError k) ->
     exists b, b ∈ bursts cfg /\ k = [burst_id b] /\
               geogrids s !! burst_id b = None).
Proof.
  intros r. destruct (s1_geocode_slc_run_ends L cfg h s I) as [_ H].
  fold r in H. split.
  - intros [a Ha] b Hb. rewrite Ha in H. by apply H.
  - intros k Hk. by rewrite Hk in H.
Qed.

(** X7.  With [rdr2geo_params.enabled] and
    [rdr2geo_params.geocode_metadata_layers] both set and at least one
    burst configured, [s1_geocode_slc.run] never returns and never calls
    [geocode_slc]: it calls [s1_geocode_metadata.run] without its [burst]
    argument.  When every configured burst has a grid and no call into
    the libraries raises, the run ends in the [TypeError] of that call. *)
Theorem geocode_slc_metadata_layers_type_error (L : Library) (cfg : RunConfig)
    (h : list Event) (s : State) :
  rdr2geo_enabled (rdr2geo_params cfg) = true ->
  geocode_metadata_layers (rdr2geo_params cfg) = true ->
  bursts cfg <> [] ->
  let r := s1_geocode_slc_run L cfg h s in
  ~ returned r /\
  count is_geocode_slc (events r) = 0%nat /\
  ((forall b, b ∈ bursts cfg -> is_Some (geogrids s !! burst_id b)) ->
   Forall not_raised (events r) ->
   result r = inl (TypeError missing_burst)).
Proof.
  intros H1 H2 Hne r.
  destruct (s1_geocode_slc_run_stopped L cfg H1 H2 Hne h s) as [_ Hn].
  destruct (s1_geocode_slc_run_ends L cfg h s I) as [_ He].
  pose proof (s1_geocode_slc_run_propagates L cfg h s) as Hp.
  fold r in Hn, He, Hp.
  assert (Hnr : ~ returned r).
  { intros [a Ha]. by rewrite Ha in Hn. }
  split; [done|]. split.
  - destruct (result r); [|done]. rewrite watch_tally in Hn. lia.
  - intros Hg Hev. destruct (result r) as [e|a] eqn:Hr;
      [|exfalso; apply Hnr; by exists a].
    inversion Hp as [| evs e' Hnot Hown | evs c e' cl Hnot Hcl Heq]; subst.
    + destruct e; simpl in *; try done.
      * by destruct He as (_ & _ & ->).
      * destruct He as (b & Hb & _ & Hnone).
        destruct (Hg b Hb) as [g Hsome]. congruence.
    + rewrite <- Heq in Hev. apply Forall_app in Hev as [_ Hev].
      by apply Forall_cons in Hev as [Hev _].
Qed.

Lemma geocode_slc_metadata_layers_type_error_witness :
  result (s1_geocode_slc_run sample_library layers_cfg [] sample_state) =
    inl (TypeError missing_burst).
Proof.
  destruct (geocode_slc_metadata_layers_type_error sample_library layers_cfg
              [] sample_state) as (_ & _ & H); [done | done | done |].
  apply H.
  - intros b Hb. apply elem_of_cons in Hb as [-> | Hb];
      [|apply elem_of_cons in Hb as [-> | Hb];
        [|by apply elem_of_nil in Hb]]; by eexists.
  - vm_compute. repeat constructor.
Defined.

(** X8.  [s1_geocode_metadata.run] returns only if its burst has a grid
    in [cfg.geogrids] and output paths in [cfg.output_paths].  A
    [KeyError] it raises carries the burst id when the grid is missing,
    and the (burst id, date) pair when the grid is there and the output
    paths are missing: the grid is looked up first. *)
Theorem geocode_metadata_needs_grid_and_paths (L : Library) (cfg : RunConfig)
    (burst : Burst) (fetch_from_scratch : bool) (h : list Event) (s : State) :
  let r := s1_geocode_metadata_run L cfg burst fetch_from_scratch h s in
  (returned r ->
   is_Some (geogrids s !! burst_id burst) /\
   is_Some (output_paths cfg !! id_date_of burst)) /\
  (forall k, result r = inl (KeyError k) ->
     (k = [burst_id burst] /\ geogrids s !! burst_id burst = None) \/
     (k = [burst_id burst; strftime_Ymd (sensing_start burst)] /\
      is_Some (geogrids s !! burst_id burst) /\
      output_paths cfg !! id_date_of burst = None)).
Proof.
  intros r.
  destruct (s1_geocode_metadata_run_ends L cfg burst fetch_from_scratch h s I)
    as [_ H].
  fold r in H. split.
  - intros [a Ha]. by rewrite Ha in H.
  - intros k Hk. by rewrite Hk in H.
Qed.

(** *** What the geocoding wrappers read and write *)

Section ReadsMore.
Context (L : Library).

Lemma reads_ext {A} Q (m m' : M A) :
  (forall h s, m' h s = m h s) -> reads Q m -> reads Q m'.
Proof. intros He Hm h s. rewrite He. apply Hm. Qed.

Lemma reads_bind_ret {A B} Q (a : A) (k : A -> M B) :
  reads Q (k a) -> reads Q (bind (ret a) k).
Proof. apply reads_ext. intros h s. apply bind_ret. Qed.

Lemma reads_bind_raise {A B} Q e (k : A -> M B) : reads Q (bind (raise e) k).
Proof. apply (reads_ext Q (raise e)); [done|]. apply reads_raise. Qed.

Lemma reads_bind_assoc {A B C} Q (m : M A) (k1 : A -> M B) (k2 : B -> M C) :
  reads Q (bind m (fun a => bind (k1 a) k2)) -> reads Q (bind (bind m k1) k2).
Proof. apply reads_ext. intros h s. apply bind_assoc. Qed.

End ReadsMore.

(** A walk that keeps the values that conditionals return. *)
Ltac reads_walk side :=
  repeat (cbv beta zeta;
          first [ apply reads_bind_assoc
                | apply reads_bind_ret
                | apply reads_bind_raise
                | match goal with
                  | |- reads _ (bind (if ?b then _ else _) _) =>
                      destruct b eqn:?
                  end
                | reads_step side ]).

Section MetadataIO.
Context (L : Library).

Lemma reads_bind_lookup_output_paths {B}
    (Q : gmap string GeoGrid -> Event -> Prop) cfg key (k : OutPaths -> M B) :
  (forall p, output_paths cfg !! key = Some p -> reads Q (k p)) ->
  reads Q (bind (lookup_output_paths cfg key) k).
Proof.
  intros Hk h s. unfold lookup_output_paths.
  destruct (output_paths cfg !! key) as [p|] eqn:E.
  - rewrite bind_ret. by apply Hk.
  - rewrite bind_raise. by split; [constructor|].
Qed.

Lemma reads_for_in_elem {X S} Q (xs : list X) (body : S -> X -> M S) acc :
  (forall acc x, x ∈ xs -> reads Q (body acc x)) -> reads Q (for_in xs body acc).
Proof.
  revert acc. induction xs as [|x xs IH]; intros acc Hb; simpl.
  - apply reads_ret.
  - apply reads_bind; [apply Hb; left|].
    intros a. apply IH. intros acc' y Hy. apply Hb. by right.
Qed.

Lemma s1_geocode_metadata_run_io cfg burst fetch :
  reads (metadata_io cfg burst fetch)
        (s1_geocode_metadata_run L cfg burst fetch).
Proof.
  unfold s1_geocode_metadata_run.
  do 5 (apply reads_bind_call; [intros; simpl; auto|]; cbv beta zeta).
  apply reads_bind_lookup_geogrid. intros g. cbv beta zeta.
  apply reads_bind_call; [intros; simpl; auto|]. cbv beta zeta.
  apply reads_bind_lookup_output_paths. intros op Hop.
  do 7 (apply reads_bind_call; [intros; simpl; auto|]; cbv beta zeta).
  apply reads_bind; [|intros; apply reads_call; intros; simpl; auto].
  apply reads_with; [intros; simpl; naive_solver | intros; simpl; naive_solver |].
  apply reads_for_in_elem. intros [] [name enabled] Hin.
  unfold geocode_layer. destruct enabled; simpl negb; cbv iota;
    [|apply reads_ret].
  reads_with ltac:(simpl; eauto 10).
Qed.

End MetadataIO.

(** X9.  In any execution of [s1_geocode_metadata.run] for a burst: the
    rasters opened by path are the DEM and the files [<layer>.rdr] of
    layers enabled in the configuration, taken from the scratch directory
    of the burst when [fetch_from_scratch] is set and from its output
    directory otherwise; the HDF5 file is [topo.h5] of the output
    directory; a dataset is created for an enabled layer, with the shape
    (length, width) of the grid of the burst; a geocoding reads the file
    of a layer on the radar grid of the burst and writes the dataset of
    that layer, with the DEM of the configuration and blocks of
    [lines_per_block * width * 4]; no directory is made. *)
Theorem geocode_metadata_reads_and_writes (L : Library) (cfg : RunConfig)
    (burst : Burst) (fetch_from_scratch : bool) (h : list Event) (s : State) :
  Forall (metadata_io cfg burst fetch_from_scratch (geogrids s))
         (events (s1_geocode_metadata_run L cfg burst fetch_from_scratch h s)).
Proof. apply s1_geocode_metadata_run_io. Qed.

Section SlcEngine.
Context (L : Library).
#[local] Arguments py_replace : simpl never.

Lemma geocode_slc_burst_io cfg b :
  b ∈ bursts cfg ->
  reads (slc_engine_io L cfg)
    (geocode_slc_burst L cfg (threshold (geo2rdr_params cfg))
       (numiter (geo2rdr_params cfg)) (lines_per_block (geo2rdr_params cfg))
       (flatten (geocoding_params cfg)) b).
Proof.
  intros Hb.
  unfold geocode_slc_burst, call_s1_geocode_metadata_run.
  reads_walk ltac:(simpl; try done).
  all: unfold slc_input, temp_slc_path, scratch_dir, product_dir, id_pol.
  all: simpl; intros.
  all: try (exists b).
  all: repeat match goal with H : _ = true |- _ => rewrite H end.
  all: repeat match goal with H : _ = false |- _ => rewrite H end.
  all: by repeat split.
Qed.

Lemma s1_geocode_slc_run_io cfg :
  reads (slc_engine_io L cfg) (s1_geocode_slc_run L cfg).
Proof.
  unfold s1_geocode_slc_run.
  do 2 (apply reads_bind_call; [intros; simpl; auto|]; cbv beta zeta).
  apply reads_bind; [|intros; apply reads_call; intros; simpl; auto].
  apply reads_for_in_elem. intros [] b Hb. by apply geocode_slc_burst_io.
Qed.

End SlcEngine.

(** X10.  In any execution of [s1_geocode_slc.run]: the antenna pattern
    is corrected only for a burst whose IPF version calls for a phase
    correction, from the VRT of the burst into the path that [replace]
    gives; and every call of [geocode_slc] is for one configured burst:
    its input is the VRT of the burst, or the corrected file when the
    burst is corrected, split in range when the configuration says so;
    its output is [<id>_<pol>.slc] in the product directory, of the width
    and length of the grid of the burst and with as many bands as the
    input; with the DEM of the configuration, the radar grid of the burst
    and its slice at the valid lines and samples, the grid, orbit and
    Doppler of the burst, and the threshold, iterations, block size and
    flattening of the configuration. *)
Theorem geocode_slc_engine_arguments (L : Library) (cfg : RunConfig)
    (h : list Event) (s : State) :
  Forall (slc_engine_io L cfg (geogrids s))
         (events (s1_geocode_slc_run L cfg h s)).
Proof. apply s1_geocode_slc_run_io. Qed.

(** *** Engine objects and stages *)

Lemma first_of_pair_new (seen rest : list Burst) (b : Burst) :
  id_date_of b ∉ map id_date_of seen ->
  first_of_pair (seen ++ b :: rest) (id_date_of b) = Some b.
Proof.
  unfold first_of_pair. induction seen as [|d seen IH]; cbn [map app List.find];
    intros Hn.
  - by rewrite bool_decide_eq_true_2.
  - apply not_elem_of_cons in Hn as [Hd Hn].
    rewrite bool_decide_eq_false_2 by done. by apply IH.
Qed.

Section First.
Context (L : Library).

Lemma geo2rdr_burst_first cfg on_gpu ell processed b all :
  (id_date_of b ∉ processed -> first_of_pair all (id_date_of b) = Some b) ->
  emits (engine_of_first cfg all)
    (geo2rdr_burst L cfg on_gpu ell (threshold (geo2rdr_params cfg))
       (numiter (geo2rdr_params cfg)) (lines_per_block (geo2rdr_params cfg))
       processed b).
Proof.
  intros Hfirst. unfold geo2rdr_burst. fold (id_date_of b).
  destruct (bool_decide_reflect (id_date_of b ∈ processed)) as [Hin|Hnew].
  - emits_tac.
  - specialize (Hfirst Hnew).
    emits_with ltac:(simpl; try done; exists b; by repeat split).
Qed.

Lemma geo2rdr_loop_first cfg on_gpu ell bs :
  forall seen processed,
  (forall p, p ∈ processed <-> p ∈ map id_date_of seen) ->
  emits (engine_of_first cfg (seen ++ bs))
    (for_in bs
       (geo2rdr_burst L cfg on_gpu ell (threshold (geo2rdr_params cfg))
          (numiter (geo2rdr_params cfg)) (lines_per_block (geo2rdr_params cfg)))
       processed).
Proof.
  induction bs as [|b bs IH]; intros seen processed Hinv; simpl.
  { apply emits_ret. }
  intros h s.
  pose proof (geo2rdr_burst_first cfg on_gpu ell processed b
                (seen ++ b :: bs)) as Hb.
  destruct (bind_cases
    (geo2rdr_burst L cfg on_gpu ell (threshold (geo2rdr_params cfg))
       (numiter (geo2rdr_params cfg)) (lines_per_block (geo2rdr_params cfg))
       processed b)
    (fun acc => for_in bs
       (geo2rdr_burst L cfg on_gpu ell (threshold (geo2rdr_params cfg))
          (numiter (geo2rdr_params cfg)) (lines_per_block (geo2rdr_params cfg)))
       acc) h s) as [(e & He & ->) | (a & Ha & ->)]; simpl.
  - apply Hb. intros Hn. apply first_of_pair_new. by rewrite <- Hinv.
  - apply Forall_app. split.
    + apply Hb. intros Hn. apply first_of_pair_new. by rewrite <- Hinv.
    + apply geo2rdr_burst_value in Ha. subst a.
      replace (seen ++ b :: bs) with ((seen ++ [b]) ++ bs)
        by (by rewrite <- app_assoc).
      apply IH. intros p. rewrite map_app. simpl.
      case_bool_decide; set_solver.
Qed.

Lemma s1_geo2rdr_run_first cfg :
  emits (engine_of_first cfg (bursts cfg)) (s1_geo2rdr_run L cfg).
Proof.
  unfold s1_geo2rdr_run.
  do 5 (apply emits_bind_call; [done|]; cbv beta zeta).
  apply emits_bind; [emits_tac|]. intros _.
  apply emits_bind; [|intros; emits_tac].
  apply (geo2rdr_loop_first cfg _ _ (bursts cfg) [] []). set_solver.
Qed.

End First.

(** X11.  Every engine object that [s1_geo2rdr.run] builds or invokes is
    built from the radar grid and the orbit of the first configured burst
    of its (burst id, date) pair, with the threshold, the number of
    iterations and the lines per block of the configuration: the later
    bursts of a pair contribute nothing to the engine. *)
Theorem geo2rdr_engine_of_first_burst (L : Library) (cfg : RunConfig)
    (h : list Event) (s : State) :
  Forall (engine_of_first cfg (bursts cfg))
         (events (s1_geo2rdr_run L cfg h s)).
Proof. apply s1_geo2rdr_run_first. Qed.

Section Rdr2geoPerBurst.
Context (L : Library).

Lemma geocode_slc_burst_rdr2geo cfg thr it bl fl b t :
  let k := if rdr2geo_enabled (rdr2geo_params cfg) then 1%nat else 0%nat in
  monitored (tally (is_stage Rdr2geo)) (fun _ => rdr2geo_in_scratch cfg) t
    (geocode_slc_burst L cfg thr it bl fl b)
    (fun _ t' => t' = (t + k)%nat) (fun t' => (t' <= t + k)%nat).
Proof.
  unfold geocode_slc_burst, call_s1_geocode_metadata_run.
  destruct (rdr2geo_enabled (rdr2geo_params cfg)) eqn:Hen;
    destruct (geocode_metadata_layers (rdr2geo_params cfg)); simpl.
  all: monitored_norm ltac:(unfold tally; simpl; try done; try lia)
                      ltac:(unfold tally; simpl; reflexivity).
  all: match goal with
       | |- monitored _ _ _ _ (fun _ t' => t' = (_ + ?k)%nat) _ =>
           apply monitored_with with
             (J' := fun _ t' => t' = (t + k)%nat)
             (X' := fun t' => (t' <= t + k)%nat)
       end.
  all: try done; try (by intros; unfold tally; simpl; lia).
  all: monitored_norm ltac:(unfold tally; simpl; try done; try lia)
                      ltac:(unfold tally; simpl; reflexivity).
Qed.

Lemma geocode_slc_loop_rdr2geo cfg thr it bl fl (k : nat) bs :
  (forall b t,
     monitored (tally (is_stage Rdr2geo)) (fun _ => rdr2geo_in_scratch cfg) t
       (geocode_slc_burst L cfg thr it bl fl b)
       (fun _ t' => t' = (t + k)%nat) (fun t' => (t' <= t + k)%nat)) ->
  forall acc t,
  monitored (tally (is_stage Rdr2geo)) (fun _ => rdr2geo_in_scratch cfg) t
    (for_in bs (fun _ => geocode_slc_burst L cfg thr it bl fl) acc)
    (fun _ t' => t' = (t + k * length bs)%nat)
    (fun t' => (t' <= t + k * length bs)%nat).
Proof.
  intros Hb. induction bs as [|b bs IH]; intros acc t; cbn [for_in].
  - apply monitored_ret. simpl. lia.
  - eapply monitored_bind.
    + eapply monitored_weaken; [apply Hb | done | simpl; intros; lia].
    + intros acc' t' ->. simpl.
      eapply monitored_weaken; [apply IH | |]; simpl; intros; lia.
Qed.

Lemma s1_geocode_slc_run_rdr2geo cfg :
  let n := if rdr2geo_enabled (rdr2geo_params cfg)
           then length (bursts cfg) else 0%nat in
  monitored (tally (is_stage Rdr2geo)) (fun _ => rdr2geo_in_scratch cfg) 0%nat
    (s1_geocode_slc_run L cfg)
    (fun _ t' => t' = n) (fun t' => (t' <= n)%nat).
Proof.
  unfold s1_geocode_slc_run.
  pose proof (geocode_slc_burst_rdr2geo cfg) as Hb.
  destruct (rdr2geo_enabled (rdr2geo_params cfg)); simpl in Hb; simpl.
  all: do 2 (eapply monitored_bind_call_to;
             [done | by intros; unfold tally; simpl; lia
             | unfold tally; simpl; reflexivity | cbv beta zeta]).
  - eapply monitored_bind;
      [ eapply monitored_weaken;
        [ apply (geocode_slc_loop_rdr2geo cfg _ _ _ _ 1%nat); intros; apply Hb
        | intros ? ? H; exact H | simpl; intros; lia ] |].
    simpl. intros _ t' ->.
    apply monitored_call;
      [done | unfold tally; simpl; lia | intros; unfold tally; simpl; lia].
  - eapply monitored_bind;
      [ eapply monitored_weaken;
        [ apply (geocode_slc_loop_rdr2geo cfg _ _ _ _ 0%nat); intros; apply Hb
        | intros ? ? H; exact H | simpl; intros; lia ] |].
    simpl. intros _ t' ->.
    apply monitored_call;
      [done | unfold tally; simpl; lia | intros; unfold tally; simpl; lia].
Qed.

End Rdr2geoPerBurst.

(** X12.  [s1_geocode_slc.run] enters [s1_rdr2geo.run] inside its loop
    over the bursts: never when [rdr2geo_params.enabled] is off; at most
    once per configured burst when it is on, and once for every
    configured burst in a run that returns.  It is entered with the whole
    configuration and [save_in_scratch=True], and the run enters no other
    stage. *)
Theorem rdr2geo_entered_for_every_burst (L : Library) (cfg : RunConfig)
    (h : list Event) (s : State) :
  let r := s1_geocode_slc_run L cfg h s in
  let n := if rdr2geo_enabled (rdr2geo_params cfg)
           then length (bursts cfg) else 0%nat in
  (count (is_stage Rdr2geo) (events r) <= n)%nat /\
  (returned r -> count (is_stage Rdr2geo) (events r) = n) /\
  Forall (rdr2geo_in_scratch cfg) (events r).
Proof.
  intros r n.
  destruct (s1_geocode_slc_run_rdr2geo L cfg h s) as [Hev Hn].
  fold r n in Hev, Hn. rewrite watch_tally in Hn. simpl in Hn.
  split; [by destruct (result r); lia|]. split.
  - intros [a Ha]. by rewrite Ha in Hn.
  - apply Forall_lookup. intros i ev Hi. by apply (Hev i).
Qed.

(** *** Georeferencing, runs without bursts, the correction LUTs *)

Section Georeference.
Context (L : Library).
#[local] Arguments py_replace : simpl never.

Lemma s1_geocode_slc_run_georeferenced cfg :
  reads (slc_georeferenced L cfg) (s1_geocode_slc_run L cfg).
Proof.
  unfold s1_geocode_slc_run.
  do 2 (apply reads_bind_call; [intros; simpl; auto|]; cbv beta zeta).
  apply reads_bind; [|intros; apply reads_call; intros; simpl; auto].
  apply reads_for_in_elem. intros [] b Hb.
  unfold geocode_slc_burst, call_s1_geocode_metadata_run.
  reads_walk ltac:(simpl; try done).
  all: unfold geotransform_of, product_dir, id_pol; simpl; intros.
  all: try (split; [done|]).
  all: by exists b; eexists _, _.
Qed.

Lemma s1_geocode_metadata_run_georeferenced cfg burst fetch :
  reads (metadata_georeferenced burst)
        (s1_geocode_metadata_run L cfg burst fetch).
Proof.
  unfold s1_geocode_metadata_run, geocode_layer.
  reads_walk ltac:(simpl; try done).
  all: unfold geotransform_of; simpl; intros.
  all: by eexists _, _, _.
Qed.

End Georeference.

(** X13.  [s1_geocode_slc.run] writes on the geocoded SLC of a configured
    burst the geotransform [[start_x; spacing_x; 0; start_y; 0;
    spacing_y]] of the grid of the burst, and as EPSG code the one of the
    DEM; [s1_geocode_metadata.run] writes on every layer the same
    geotransform of the grid of its burst, and as EPSG code the one of
    the grid. *)
Theorem geocoded_rasters_georeference (L : Library) (cfg : RunConfig)
    (burst : Burst) (fetch_from_scratch : bool) (h : list Event) (s : State) :
  Forall (slc_georeferenced L cfg (geogrids s))
         (events (s1_geocode_slc_run L cfg h s)) /\
  Forall (metadata_georeferenced burst (geogrids s))
         (events (s1_geocode_metadata_run L cfg burst fetch_from_scratch h s)).
Proof.
  split.
  - apply s1_geocode_slc_run_georeferenced.
  - apply s1_geocode_metadata_run_georeferenced.
Qed.

(** X14.  With no burst configured, [s1_geo2rdr.run] and
    [s1_geocode_slc.run] end in the state they started in: [s1_geo2rdr.run]
    makes its set-up calls only (the journal, the DEM and its projection,
    the GPU check and the device), [s1_geocode_slc.run] its journal
    entries and the default LUT only; neither makes a directory or calls
    the engine. *)
Theorem no_bursts_no_output (L : Library) (cfg : RunConfig)
    (h : list Event) (s : State) :
  bursts cfg = [] ->
  let geo2rdr := s1_geo2rdr_run L cfg h s in
  let slc := s1_geocode_slc_run L cfg h s in
  final geo2rdr = s /\ Forall geo2rdr_setup (events geo2rdr) /\
  final slc = s /\ Forall slc_setup (events slc).
Proof.
  intros Hb geo2rdr slc. subst geo2rdr slc.
  unfold s1_geo2rdr_run, s1_geocode_slc_run, journal_log, raster_open.
  rewrite Hb. cbn [for_in].
  split; [|split; [|split]].
  - exec_with ltac:(simpl; done).
  - exec_with ltac:(simpl; repeat constructor).
  - exec_with ltac:(simpl; done).
  - exec_with ltac:(simpl; repeat constructor).
Qed.

Lemma no_bursts_no_output_witness :
  final (s1_geo2rdr_run sample_library empty_cfg [] sample_state) =
    sample_state /\
  final (s1_geocode_slc_run sample_library empty_cfg [] sample_state) =
    sample_state.
Proof.
  destruct (no_bursts_no_output sample_library empty_cfg [] sample_state
              eq_refl) as (H1 & _ & H2 & _). by split.
Defined.

(** X15.  When [compute_geocoding_correction_luts] returns, a DEM path was
    given at which no file exists; the range LUT returned is the one of
    [geometrical_and_steering_doppler], the data of the azimuth LUT are
    the sum of the data of the bistatic delay and of the FM rate
    mismatch; the calls made are, in this order, the bistatic delay, the
    geometrical and steering Doppler, the FM rate mismatch for the DEM
    path and the scratch path given, the sum and the construction of the
    LUT, all with the steps given.  What the FM rate mismatch writes
    under the scratch path is the library's affair and is not stated. *)
Theorem compute_luts_result (L : Library) (burst : Burst)
    (rg_step az_step : Q) (dem_path scratch_path : option string)
    (h : list Event) (s : State) (rg_lut az_lut : LUT2d) :
  let r := compute_geocoding_correction_luts L burst rg_step az_step
             dem_path scratch_path h s in
  result r = inr (rg_lut, az_lut) ->
  exists p,
    dem_path = Some p /\ fs s !! p = None /\
    let az := bistatic_delay L burst rg_step az_step in
    let fm := az_fm_rate_mismatch_mitigation L burst p scratch_path
                rg_step az_step in
    rg_lut = geometrical_and_steering_doppler L burst rg_step az_step /\
    data az_lut = np_add L (data az) (data fm) /\
    events r =
      [Ev (BistaticDelay burst rg_step az_step) Returned;
       Ev (GeometricalAndSteeringDoppler burst rg_step az_step) Returned;
       Ev (AzFmRateMismatchMitigation burst p scratch_path rg_step az_step)
          Returned;
       Ev (NpAdd (data az) (data fm)) Returned;
       Ev (LUT2dNew (x_start az) (y_start az) (x_spacing az) (x_spacing az)
             (np_add L (data az) (data fm))) Returned].
Proof.
  intros r. subst r. unfold compute_geocoding_correction_luts.
  destruct dem_path as [p|].
  - exec_with ltac:(simpl; try done).
    destruct (bool_decide_reflect (is_Some (fs s !! p))) as [Hex|Hex];
      exec_with ltac:(simpl; try done).
    intros [= <- <-]. exists p. split; [done|]. split; [|done].
    destruct (fs s !! p) eqn:E; [|done]. exfalso. apply Hex. eauto.
  - exec_with ltac:(simpl; done).
Qed.

Lemma compute_luts_result_witness :
  exists p, Some "missing.tif" = Some p /\ fs sample_state !! p = None.
Proof.
  edestruct (compute_luts_result sample_library burst_vv default_rg_step
               default_az_step (Some "missing.tif") None [] sample_state)
    as (p & Hp & Hfs & _); [reflexivity|]. by exists p.
Defined.

(** *** Dates and directories *)

Lemma string_app_nil (t : string) : "" +:+ t = t.
Proof. reflexivity. Qed.

Lemma string_app_cons c (s t : string) : String c s +:+ t = String c (s +:+ t).
Proof. reflexivity. Qed.

Lemma string_length_app (s1 s2 : string) :
  String.length (s1 +:+ s2) = (String.length s1 + String.length s2)%nat.
Proof.
  induction s1 as [|c s1 IH]; [done|].
  rewrite string_app_cons. simpl. by rewrite IH.
Qed.

Lemma string_app_assoc (s1 s2 s3 : string) :
  (s1 +:+ s2) +:+ s3 = s1 +:+ s2 +:+ s3.
Proof.
  induction s1 as [|c s1 IH]; [done|].
  rewrite !string_app_cons. by rewrite IH.
Qed.

(** Two strings that end in parts of the same length are equal part by
    part. *)
Lemma string_app_inj_length (s1 s2 t1 t2 : string) :
  String.length t1 = String.length t2 ->
  s1 +:+ t1 = s2 +:+ t2 -> s1 = s2 /\ t1 = t2.
Proof.
  revert s2. induction s1 as [|c s1 IH]; intros [|c2 s2] Hlen Heq;
    rewrite ?string_app_cons, ?string_app_nil in Heq.
  - done.
  - subst t1. simpl in Hlen. rewrite string_length_app in Hlen. lia.
  - subst t2. simpl in Hlen. rewrite string_length_app in Hlen. lia.
  - injection Heq as -> Heq. destruct (IH s2 Hlen Heq) as [-> ->]. done.
Qed.

Lemma digit_inj (a b : nat) :
  digit a = digit b -> (a mod 10 = b mod 10)%nat.
Proof.
  unfold digit. intros H.
  assert (Ascii.ascii_of_nat (48 + a mod 10) =
          Ascii.ascii_of_nat (48 + b mod 10)) as E by congruence.
  apply (f_equal Ascii.nat_of_ascii) in E.
  pose proof (Nat.mod_upper_bound a 10). pose proof (Nat.mod_upper_bound b 10).
  rewrite !Ascii.nat_ascii_embedding in E by lia. lia.
Qed.

Lemma strftime_Ymd_length (d : datetime) :
  String.length (strftime_Ymd d) = 8%nat.
Proof. reflexivity. Qed.

Lemma four_digits (a b : nat) :
  (a < 100 * 100)%nat -> (b < 100 * 100)%nat ->
  ((a / 1000) mod 10 = (b / 1000) mod 10)%nat ->
  ((a / 100) mod 10 = (b / 100) mod 10)%nat ->
  ((a / 10) mod 10 = (b / 10) mod 10)%nat ->
  (a mod 10 = b mod 10)%nat -> a = b.
Proof.
  intros Ha Hb H3 H2 H1 H0.
  assert (forall n, n = 10 * (n / 10) + n mod 10 /\
                    n / 10 = 10 * (n / 100) + (n / 10) mod 10 /\
                    n / 100 = 10 * (n / 1000) + (n / 100) mod 10 /\
                    (n < 100 * 100 -> (n / 1000) mod 10 = n / 1000))%nat as D.
  { intros n. repeat split.
    - apply Nat.div_mod_eq.
    - rewrite (Nat.div_mod_eq (n / 10) 10) at 1.
      by rewrite Nat.Div0.div_div.
    - rewrite (Nat.div_mod_eq (n / 100) 10) at 1.
      by rewrite Nat.Div0.div_div.
    - intros Hn. apply Nat.mod_small. apply Nat.Div0.div_lt_upper_bound. lia. }
  destruct (D a) as (A0 & A1 & A2 & A3). destruct (D b) as (B0 & B1 & B2 & B3).
  specialize (A3 Ha). specialize (B3 Hb). lia.
Qed.

Lemma two_digits (a b : nat) :
  (a < 100)%nat -> (b < 100)%nat ->
  ((a / 10) mod 10 = (b / 10) mod 10)%nat ->
  (a mod 10 = b mod 10)%nat -> a = b.
Proof.
  intros Ha Hb H1 H0.
  pose proof (Nat.div_mod_eq a 10) as Ea.
  pose proof (Nat.div_mod_eq b 10) as Eb.
  assert ((a / 10) mod 10 = a / 10)%nat as Ha1.
  { apply Nat.mod_small. apply Nat.Div0.div_lt_upper_bound. lia. }
  assert ((b / 10) mod 10 = b / 10)%nat as Hb1.
  { apply Nat.mod_small. apply Nat.Div0.div_lt_upper_bound. lia. }
  lia.
Qed.

Lemma digit_app_inj (a b : nat) (s t : string) :
  digit a +:+ s = digit b +:+ t -> (a mod 10 = b mod 10)%nat /\ s = t.
Proof.
  intros H. split.
  - apply digit_inj. unfold digit in *.
    rewrite !string_app_cons, !string_app_nil in H. congruence.
  - unfold digit in H.
    rewrite !string_app_cons, !string_app_nil in H. congruence.
Qed.

Lemma strftime_Ymd_inj (d1 d2 : datetime) :
  valid_date d1 -> valid_date d2 ->
  strftime_Ymd d1 = strftime_Ymd d2 -> same_day d1 d2.
Proof.
  intros (Hy1 & Hm1 & Hd1) (Hy2 & Hm2 & Hd2). unfold strftime_Ymd.
  intros H.
  do 7 (apply digit_app_inj in H as [? H]).
  apply digit_inj in H.
  split; [|split].
  - apply four_digits; lia.
  - apply two_digits; lia.
  - apply two_digits; lia.
Qed.

Lemma burst_output_path_inj cfg b1 b2 :
  burst_output_path cfg b1 = burst_output_path cfg b2 ->
  id_date_of b1 = id_date_of b2.
Proof.
  unfold burst_output_path, top_output_path, id_date_of. intros H.
  apply string_app_inj_length in H as [H1 H2];
    [|by rewrite !string_length_app, !strftime_Ymd_length].
  apply (inj (String.app _)) in H1. apply (inj (String.app _)) in H1.
  apply (inj (String.app _)) in H2. congruence.
Qed.

Lemma count_le_imp (f g : Event -> bool) evs :
  (forall ev, ev ∈ evs -> f ev = true -> g ev = true) ->
  (count f evs <= count g evs)%nat.
Proof.
  induction evs as [|ev evs IH]; intros H; simpl; [done|].
  assert (count f evs <= count g evs)%nat as Hle.
  { apply IH. intros ev' Hin. apply H. by right. }
  destruct (f ev) eqn:Hf; [|lia].
  rewrite (H ev (list_elem_of_here _ _) Hf). lia.
Qed.

Lemma count_zero_or_elem (f : Event -> bool) evs :
  count f evs = 0%nat \/ exists ev, ev ∈ evs /\ f ev = true.
Proof.
  induction evs as [|ev evs IH]; simpl; [by left|].
  destruct (f ev) eqn:Hf.
  - right. exists ev. split; [by left | done].
  - destruct IH as [-> | (ev' & Hin & Hev')]; [by left|].
    right. exists ev'. split; [by right | done].
Qed.

(** X16.  For sensing times that [datetime] allows, the date string that
    [strftime] gives for the format [%Y%m%d] has eight characters, and
    two bursts have the same (burst id, date) pair exactly when they have
    the same burst id and were sensed on the same calendar day, whatever
    the time of the day. *)
Theorem same_day_same_pair (b1 b2 : Burst) :
  valid_date (sensing_start b1) -> valid_date (sensing_start b2) ->
  String.length (strftime_Ymd (sensing_start b1)) = 8%nat /\
  (id_date_of b1 = id_date_of b2 <->
   burst_id b1 = burst_id b2 /\
   same_day (sensing_start b1) (sensing_start b2)).
Proof.
  intros H1 H2. split; [done|]. unfold id_date_of. split.
  - intros Heq. split; [congruence|].
    apply strftime_Ymd_inj; [done | done | congruence].
  - intros [Hid (Hy & Hm & Hd)]. unfold strftime_Ymd.
    by rewrite Hid, Hy, Hm, Hd.
Qed.

Lemma same_day_same_pair_witness : id_date_of burst_vv = id_date_of burst_later.
Proof.
  destruct (same_day_same_pair burst_vv burst_later) as [_ H].
  - unfold valid_date. simpl. lia.
  - unfold valid_date. simpl. lia.
  - by apply H.
Defined.

(** X17.  In any execution of [s1_geo2rdr.run] the engine is invoked at
    most once on any output directory: two invocations never write into
    the same directory, since distinct (burst id, date) pairs have
    distinct directories [scratch_path/burst_id/date] under one
    configuration. *)
Theorem geo2rdr_writes_each_directory_once (L : Library) (cfg : RunConfig)
    (h : list Event) (s : State) (d : string) :
  (count (is_geo2rdr_into d) (events (s1_geo2rdr_run L cfg h s)) <= 1)%nat.
Proof.
  set (r := s1_geo2rdr_run L cfg h s).
  destruct (s1_geo2rdr_run_ready L cfg h s) as [Hready _]. fold r in Hready.
  assert (Hdir : forall o topo d' out,
            Ev (Geo2RdrRun o topo d') out ∈ events r ->
            d' = burst_output_path cfg (grid_burst (g_radar_grid o))).
  { intros o topo d' out Hin. apply list_elem_of_lookup in Hin as [i Hi].
    apply Hready in Hi. simpl in Hi. tauto. }
  destruct (count_zero_or_elem (is_geo2rdr_into d) (events r))
    as [-> | (ev & Hin & Hev)]; [lia|].
  destruct ev as [[] out]; simpl in Hev; try done.
  apply bool_decide_eq_true in Hev. subst out_dir.
  pose proof (Hdir _ _ _ _ Hin) as Hd.
  etrans; [apply (count_le_imp _ (is_geo2rdr_run (obj_id_date o)))|].
  - intros [[] out'] Hin' Hev'; simpl in Hev'; try done.
    apply bool_decide_eq_true in Hev'. subst out_dir.
    pose proof (Hdir _ _ _ _ Hin') as Hd'. simpl.
    apply bool_decide_eq_true. unfold obj_id_date.
    apply (burst_output_path_inj cfg). congruence.
  - destruct (s1_geo2rdr_run_count L cfg (obj_id_date o) _
                (or_intror eq_refl) h s) as [Hle _].
    fold r in Hle. etrans; [exact Hle|]. case_bool_decide; lia.
Qed.

(** *** The path of the corrected burst *)

Lemma prefix_app (old r : string) : String.prefix old (old +:+ r) = true.
Proof.
  induction old as [|c old IH]; [by destruct r|].
  rewrite string_app_cons. simpl. by destruct (Ascii.ascii_dec c c).
Qed.

Lemma replace_from_skip (old new a r : string) :
  replace_from old new (String.length a) (a +:+ r) = replace_from old new 0 r.
Proof.
  induction a as [|c a IH]; [done|]. rewrite string_app_cons. simpl. apply IH.
Qed.

(** [str.replace] up to and including the first occurrence of [old]. *)
Lemma replace_from_first (old new a r : string) :
  old <> "" -> starts_within old a (old +:+ r) = false ->
  replace_from old new 0 (a +:+ old +:+ r) =
  a +:+ new +:+ replace_from old new 0 r.
Proof.
  intros Hne. induction a as [|c a IH]; intros Hw.
  - rewrite !string_app_nil. destruct old as [|c old]; [done|].
    rewrite string_app_cons.
    change (replace_from (String c old) new 0 (String c (old +:+ r))) with
      (if String.prefix (String c old) (String c (old +:+ r))
       then new +:+ replace_from (String c old) new
                      (String.length (String c old) - 1) (old +:+ r)
       else String c (replace_from (String c old) new 0 (old +:+ r))).
    rewrite <- string_app_cons, prefix_app.
    replace (String.length (String c old) - 1)%nat with (String.length old)
      by (simpl; lia).
    by rewrite replace_from_skip.
  - cbn [starts_within] in Hw. apply orb_false_iff in Hw as [Hp Hw].
    rewrite string_app_cons.
    change (replace_from old new 0 (String c (a +:+ old +:+ r))) with
      (if String.prefix old (String c (a +:+ old +:+ r))
       then new +:+ replace_from old new (String.length old - 1)
                      (a +:+ old +:+ r)
       else String c (replace_from old new 0 (a +:+ old +:+ r))).
    rewrite string_app_cons in Hp. rewrite Hp, IH by done.
    by rewrite string_app_cons.
Qed.

Lemma replace_from_none (old new s : string) :
  occurs old s = false -> replace_from old new 0 s = s.
Proof.
  induction s as [|c s IH]; [done|]. intros Ho.
  cbn [occurs] in Ho. apply orb_false_iff in Ho as [Hp Ho].
  change (replace_from old new 0 (String c s)) with
    (if String.prefix old (String c s)
     then new +:+ replace_from old new (String.length old - 1) s
     else String c (replace_from old new 0 s)).
  rewrite Hp. by rewrite IH.
Qed.

(** ["_temp.vrt"] does not overlap itself: where it starts within [x] in
    [x +:+ "_temp.vrt"], it lies within [x]. *)
Lemma temp_vrt_within (x : string) :
  x <> "" ->
  String.prefix "_temp.vrt" (x +:+ "_temp.vrt") = true ->
  String.prefix "_temp.vrt" x = true.
Proof.
  intros Hne.
  do 9 (destruct x as [|? x]; [try done;
          rewrite ?string_app_cons, ?string_app_nil; cbn [String.prefix];
          repeat (destruct (Ascii.ascii_dec _ _); [|done]); done|]).
  rewrite !string_app_cons. cbn [String.prefix].
  repeat (destruct (Ascii.ascii_dec _ _); [|done]). by destruct x.
Qed.

Lemma occurs_starts_within (a : string) :
  occurs "_temp.vrt" a = false ->
  starts_within "_temp.vrt" a "_temp.vrt" = false.
Proof.
  induction a as [|c a IH]; [done|]. intros Ho.
  cbn [occurs] in Ho. apply orb_false_iff in Ho as [Hp Ho].
  cbn [starts_within]. rewrite IH by done. rewrite orb_false_r.
  destruct (String.prefix "_temp.vrt" (String c a +:+ "_temp.vrt")) eqn:E;
    [|done].
  apply temp_vrt_within in E; [congruence | done].
Qed.

(** X18.  When [_temp.vrt] does not occur in the scratch directory, burst
    id and polarization of a burst, [s1_geocode_slc.run] applies the
    antenna pattern correction from [<scratch>/<id>_<pol>_temp.vrt] to
    [<scratch>/<id>_<pol>_corrected_temp.rdr]: [str.replace] rewrites the
    suffix and nothing else. *)
Theorem eap_corrected_path (L : Library) (cfg : RunConfig)
    (h : list Event) (s : State) (i : nat) (b : Burst) (src dst : string)
    (out : Outcome) :
  let stem := scratch_dir cfg b +:+ "/" +:+ id_pol b in
  occurs "_temp.vrt" stem = false ->
  events (s1_geocode_slc_run L cfg h s) !! i =
    Some (Ev (ApplyEapCorrection b src dst) out) ->
  src = stem +:+ "_temp.vrt" /\ dst = stem +:+ "_corrected_temp.rdr".
Proof.
  intros stem Ho Hi.
  destruct (s1_geocode_slc_run_io L cfg h s) as [Hio _].
  rewrite Forall_lookup in Hio. apply Hio in Hi as (_ & -> & ->).
  assert (temp_slc_path cfg b = stem +:+ "_temp.vrt") as ->
    by (unfold temp_slc_path, stem; by rewrite !string_app_assoc).
  split; [done|].
  exact (replace_from_first "_temp.vrt" "_corrected_temp.rdr" stem ""
           ltac:(done) (occurs_starts_within stem Ho)).
Qed.

Lemma eap_corrected_path_witness :
  occurs "_temp.vrt"
    (scratch_dir sample_cfg burst_vv +:+ "/" +:+ id_pol burst_vv) = false /\
  "scratch/t071_151200_iw1/20220105/t071_151200_iw1_VV_temp.vrt" =
    (scratch_dir sample_cfg burst_vv +:+ "/" +:+ id_pol burst_vv) +:+
    "_temp.vrt" /\
  "scratch/t071_151200_iw1/20220105/t071_151200_iw1_VV_corrected_temp.rdr" =
    (scratch_dir sample_cfg burst_vv +:+ "/" +:+ id_pol burst_vv) +:+
    "_corrected_temp.rdr".
Proof.
  split; [reflexivity|].
  apply (eap_corrected_path eap_library sample_cfg [] sample_state 11
           burst_vv _ _ Returned); reflexivity.
Defined.

(** A burst whose id holds [_temp.vrt]: the corrected file goes to a
    directory that the run has not made. *)
Example corrected_file_outside_ensured_dirs :
  let r := s1_geocode_slc_run eap_library odd_id_cfg [] odd_id_state in
  returned r /\
  (exists b, events r !! 11%nat =
     Some (Ev (ApplyEapCorrection b
                 "scratch/a_temp.vrt/20220105/a_temp.vrt_VV_temp.vrt"
                 ("scratch/a_corrected_temp.rdr/20220105/" +:+
                  "a_corrected_temp.rdr_VV_corrected_temp.rdr"))
              Returned)) /\
  flat_map (fun ev => if is_makedirs ev then written ev else []) (events r) =
    ["product/a_temp.vrt/20220105"; "scratch/a_temp.vrt/20220105"].
Proof.
  split; [exists tt; vm_compute; reflexivity|].
  split; [eexists; vm_compute; reflexivity | vm_compute; reflexivity].
Qed.

(** X19.  In any execution of [s1_geocode_slc.run]: the VRT of a burst
    and the split spectrum go to the scratch directory of the burst, the
    geocoded SLC [<id>_<pol>.slc] and the metadata [<id>_<pol>.json] to
    the product directory of a configured burst, each after an
    [os.makedirs] of the run, which did not raise, has ensured that
    directory.  The antenna pattern correction reads the VRT in the
    scratch directory of its burst, ensured before, and writes the path
    that [replace] makes of the path of the VRT: that is
    [<id>_<pol>_corrected_temp.rdr] in the same directory provided that
    [_temp.vrt] does not occur in the scratch directory, id and
    polarization of the burst.  Where it does occur, [replace] rewrites
    the directory as well, as [corrected_file_outside_ensured_dirs] shows
    on a burst. *)
Theorem geocode_slc_files_in_ensured_dirs (L : Library) (cfg : RunConfig)
    (h : list Event) (s : State) :
  let r := s1_geocode_slc_run L cfg h s in
  (forall i b p out,
     events r !! i = Some (Ev (SlcToVrtFile b p) out) ->
     p = scratch_dir cfg b +:+ "/" +:+ id_pol b +:+ "_temp.vrt" /\
     made_before (events r) i (scratch_dir cfg b)) /\
  (forall i b path params scratch out,
     events r !! i = Some (Ev (RangeSplitSpectrum b path params scratch) out) ->
     scratch = scratch_dir cfg b /\ made_before (events r) i scratch) /\
  (forall i p w l bands fmt out,
     events r !! i = Some (Ev (RasterCreate p w l bands fmt) out) ->
     exists b, b ∈ bursts cfg /\
       p = product_dir cfg b +:+ "/" +:+ id_pol b +:+ ".slc" /\
       made_before (events r) i (product_dir cfg b)) /\
  (forall i p mode out,
     events r !! i = Some (Ev (FileOpen p mode) out) ->
     exists b, b ∈ bursts cfg /\
       p = product_dir cfg b +:+ "/" +:+ id_pol b +:+ ".json" /\
       made_before (events r) i (product_dir cfg b)) /\
  (forall i b src dst out,
     events r !! i = Some (Ev (ApplyEapCorrection b src dst) out) ->
     src = scratch_dir cfg b +:+ "/" +:+ id_pol b +:+ "_temp.vrt" /\
     made_before (events r) i (scratch_dir cfg b) /\
     dst = py_replace src "_temp.vrt" "_corrected_temp.rdr" /\
     (occurs "_temp.vrt" (scratch_dir cfg b +:+ "/" +:+ id_pol b) = false ->
      dst = scratch_dir cfg b +:+ "/" +:+ id_pol b +:+
            "_corrected_temp.rdr")).
Proof.
  intros r. destruct (s1_geocode_slc_run_ready L cfg h s) as [H _].
  fold r in H.
  assert (Hmade : forall i d, d ∈ watch ensured [] (take i (events r)) ->
                              made_before (events r) i d).
  { intros i d Hd. apply watch_ensured in Hd as [Hd | (j & o & Hj & Ho)];
      [by apply elem_of_nil in Hd|].
    apply lookup_take_Some in Hj as [Hj Hlt]. by exists j, o. }
  split; [|split; [|split; [|split]]].
  - intros i b p out Hi. apply H in Hi as [Hd ->]. split; [done|]. by apply Hmade.
  - intros i b path params scratch out Hi. apply H in Hi as [Hd ->].
    split; [done|]. by apply Hmade.
  - intros i p w l bands fmt out Hi. apply H in Hi as (b & Hb & Hd & ->).
    exists b. split; [done|]. split; [done|]. by apply Hmade.
  - intros i p mode out Hi. apply H in Hi as (b & Hb & Hd & ->).
    exists b. split; [done|]. split; [done|]. by apply Hmade.
  - intros i b src dst out Hi. apply H in Hi as (Hd & -> & ->).
    split; [done|]. split; [by apply Hmade|]. split; [done|]. intros Ho.
    rewrite <- !(string_app_assoc (scratch_dir cfg b)).
    rewrite <- !(string_app_assoc (scratch_dir cfg b +:+ "/")).
    rewrite !(string_app_assoc (scratch_dir cfg b) "/" (id_pol b)).
    exact (replace_from_first "_temp.vrt" "_corrected_temp.rdr"
             (scratch_dir cfg b +:+ "/" +:+ id_pol b) ""
             ltac:(done) (occurs_starts_within _ Ho)).
Qed.

Lemma geocode_slc_files_in_ensured_dirs_witness :
  made_before
    (events (s1_geocode_slc_run eap_library sample_cfg [] sample_state))
    11 "scratch/t071_151200_iw1/20220105" /\
  "scratch/t071_151200_iw1/20220105/t071_151200_iw1_VV_corrected_temp.rdr" =
    scratch_dir sample_cfg burst_vv +:+ "/" +:+ id_pol burst_vv +:+
    "_corrected_temp.rdr".
Proof.
  destruct (geocode_slc_files_in_ensured_dirs eap_library sample_cfg []
              sample_state) as (_ & _ & _ & _ & H).
  destruct (H 11%nat burst_vv _ _ Returned eq_refl) as (_ & Hm & _ & Hd).
  split; [exact Hm | by apply Hd].
Defined.

(** ** The geocoding of the calibration and noise LUTs *)

Import Luts.

Section LutMonitor.
Context (L : LutLibrary) (G : gmap string GeoGrid).
Context {T : Type} (step : T -> LutEvent -> T) (R : T -> LutEvent -> Prop).

Lemma lbind_cases {A B} (m : LM A) (k : A -> LM B) h :
  (exists e, lut_result (m G h) = inl e /\
     lbind m k G h = mk_lut_run (lut_events (m G h)) (inl e)) \/
  (exists a, lut_result (m G h) = inr a /\
     lbind m k G h =
       mk_lut_run (lut_events (m G h) ++
                   lut_events (k a G (h ++ lut_events (m G h))))
                  (lut_result (k a G (h ++ lut_events (m G h))))).
Proof.
  unfold lbind. destruct (lut_result (m G h)) as [e|a]; [left|right]; eauto.
Qed.

Lemma lut_monitored_ret {A} t (a : A) (J : A -> T -> Prop) X :
  J a t -> lut_monitored G step R t (lret a) J X.
Proof. intros HJ h. split; [by intros i ev Hi|done]. Qed.

Lemma lut_monitored_raise {A} t e (J : A -> T -> Prop)
    (X : LutExn -> T -> Prop) :
  X e t -> lut_monitored G step R t (lraise e) J X.
Proof. intros HX h. split; [by intros i ev Hi|done]. Qed.

Lemma lut_monitored_call {A} t c (v : A) (J : A -> T -> Prop)
    (X : LutExn -> T -> Prop) :
  (forall o, R t (LutEv c o)) ->
  J v (step t (LutEv c LutReturned)) ->
  (forall n, X (Base (ExtError n))
               (step t (LutEv c (LutRaised (Base (ExtError n)))))) ->
  lut_monitored G step R t (lcall L c v) J X.
Proof.
  intros HR HJ HX h. unfold lcall.
  destruct (lut_fault L h c); simpl; (split; [|by auto]);
    intros [|i] ev Hi; simplify_eq/=; auto.
Qed.

Lemma lut_monitored_bind {A B} t (m : LM A) (k : A -> LM B) J K X :
  lut_monitored G step R t m J X ->
  (forall a t', J a t' -> lut_monitored G step R t' (k a) K X) ->
  lut_monitored G step R t (lbind m k) K X.
Proof.
  intros Hm Hk h. destruct (Hm h) as [Hm1 Hm2].
  destruct (lbind_cases m k h) as [(e & He & ->) | (a & Ha & ->)]; simpl.
  - rewrite He in Hm2. by split.
  - rewrite Ha in Hm2.
    destruct (Hk a _ Hm2 (h ++ lut_events (m G h))) as [Hk1 Hk2].
    split.
    + intros i ev Hi.
      destruct (decide (i < length (lut_events (m G h)))%nat) as [Hlt|Hge].
      * rewrite lookup_app_l in Hi by done.
        rewrite take_app_le by lia. by apply Hm1.
      * rewrite lookup_app_r in Hi by lia.
        rewrite take_app_ge by lia. unfold lut_watch.
        rewrite fold_left_app. by apply Hk1.
    + unfold lut_watch. by rewrite fold_left_app.
Qed.

Lemma lut_monitored_bind_call {A B} t t' c (v : A) (k : A -> LM B) K
    (X : LutExn -> T -> Prop) :
  (forall o, R t (LutEv c o)) ->
  (forall n, X (Base (ExtError n))
               (step t (LutEv c (LutRaised (Base (ExtError n)))))) ->
  step t (LutEv c LutReturned) = t' ->
  lut_monitored G step R t' (k v) K X ->
  lut_monitored G step R t (lbind (lcall L c v) k) K X.
Proof.
  intros HR HX <- Hk.
  apply lut_monitored_bind with
    (J := fun a t' => a = v /\ t' = step t (LutEv c LutReturned)).
  - by apply lut_monitored_call.
  - by intros a t' [-> ->].
Qed.

Lemma lut_monitored_bind_geogrid {B} t id (k : GeoGrid -> LM B) K
    (X : LutExn -> T -> Prop) :
  (G !! id = None -> X (Base (KeyError [id])) t) ->
  (forall g, G !! id = Some g -> lut_monitored G step R t (k g) K X) ->
  lut_monitored G step R t (lbind (lut_geogrid id) k) K X.
Proof.
  intros HX Hk.
  apply lut_monitored_bind with (J := fun g t' => G !! id = Some g /\ t' = t).
  - intros h. unfold lut_geogrid.
    destruct (G !! id) eqn:E; (split; [by intros i ev Hi|simpl; auto]).
  - intros g t' [Hg ->]. by apply Hk.
Qed.

Lemma lut_monitored_bind_output_paths {B} t cfg key (k : OutPaths -> LM B) K
    (X : LutExn -> T -> Prop) :
  (output_paths cfg !! key = None -> X (Base (KeyError [key.1; key.2])) t) ->
  (forall p, output_paths cfg !! key = Some p ->
             lut_monitored G step R t (k p) K X) ->
  lut_monitored G step R t (lbind (lut_output_paths cfg key) k) K X.
Proof.
  intros HX Hk.
  apply lut_monitored_bind with
    (J := fun p t' => output_paths cfg !! key = Some p /\ t' = t).
  - unfold lut_output_paths. destruct (output_paths cfg !! key) eqn:E.
    + by apply lut_monitored_ret.
    + apply lut_monitored_raise. auto.
  - intros p t' [Hp ->]. by apply Hk.
Qed.

Lemma lut_monitored_bind_floordiv {B} t a b (k : Z -> LM B) K
    (X : LutExn -> T -> Prop) :
  (b = 0 -> X ZeroDivisionError t) ->
  (b <> 0 -> lut_monitored G step R t (k (a / b)) K X) ->
  lut_monitored G step R t (lbind (floordiv a b) k) K X.
Proof.
  intros HX Hk.
  apply lut_monitored_bind with
    (J := fun q t' => b <> 0 /\ q = a / b /\ t' = t).
  - unfold floordiv. case_bool_decide.
    + apply lut_monitored_raise. auto.
    + by apply lut_monitored_ret.
  - intros q t' (Hb & -> & ->). by apply Hk.
Qed.

Lemma lut_monitored_weaken {A} t (m : LM A) (J J' : A -> T -> Prop)
    (X X' : LutExn -> T -> Prop) :
  lut_monitored G step R t m J X ->
  (forall a t', J a t' -> J' a t') -> (forall e t', X e t' -> X' e t') ->
  lut_monitored G step R t m J' X'.
Proof.
  intros Hm HJ HX h. destruct (Hm h) as [H1 H2]. split; [done|].
  destruct (lut_result (m G h)); auto.
Qed.

End LutMonitor.

Ltac lut_step side norm :=
  first
    [ eapply lut_monitored_bind_call; [intros; side | intros; side | norm | ]
    | apply lut_monitored_bind_geogrid; [intros; side | intros ? ?]
    | apply lut_monitored_bind_output_paths; [intros; side | intros ? ?]
    | apply lut_monitored_bind_floordiv; [intros; side | intros ?]
    | apply lut_monitored_call; [intros; side | side | intros; side]
    | apply lut_monitored_ret; side
    | apply lut_monitored_raise; side ].

Ltac lut_walk side norm := repeat (cbv beta zeta; lut_step side norm).

Lemma lut_watch_tally f n evs :
  lut_watch (lut_tally f) n evs = (n + lut_count f evs)%nat.
Proof.
  revert n. induction evs as [|ev evs IH]; intros n;
    [unfold lut_count; simpl; lia|].
  unfold lut_watch in *. simpl. rewrite IH. unfold lut_tally, lut_count.
  destruct (f ev) eqn:E.
  - rewrite filter_cons_True by done. simpl. lia.
  - rewrite filter_cons_False by (by rewrite E). lia.
Qed.

Section LutTheorems.
Context (L : LutLibrary) (G : gmap string GeoGrid).

Ltac tally_norm := unfold lut_tally; simpl; reflexivity.

Lemma geocode_lut_item_observed cfg burst h5 group items dec op g item t
    (n : nat) :
  item ∈ items ->
  output_paths cfg !! id_date_of burst = Some op ->
  G !! burst_id burst = Some g ->
  (S t <= n)%nat ->
  lut_monitored G (lut_tally is_geocode)
    (fun _ => lut_io L G cfg burst h5 group items dec) t
    (geocode_lut_item L h5 group (scratch_directory op)
       (Multilooked (RadarGridOf burst) dec dec)
       (multilook_shape L (RadarGridOf burst) dec dec)
       (decimated g dec) (RasterAt (dem cfg))
       (raster_epsg (std L) (RasterAt (dem cfg))) item)
    (fun _ t' => t' = S t)
    (fun e t' => lut_exn G cfg burst dec e /\ (t' <= n)%nat).
Proof.
  intros Hitem Hop Hg Hn. unfold geocode_lut_item.
  lut_walk ltac:(unfold lut_tally; simpl; try done; try (split; [done|lia]))
           ltac:(tally_norm).
  all: try (by eexists _, _).
  all: try (by eexists).
  destruct (multilook_shape L (RadarGridOf burst) dec dec) as [len wid].
  by eexists _, _.
Qed.

Lemma geocode_lut_loop_observed cfg burst h5 group items dec op g rest :
  output_paths cfg !! id_date_of burst = Some op ->
  G !! burst_id burst = Some g ->
  forall t (n : nat),
  (forall item, item ∈ rest -> item ∈ items) ->
  (t + length rest <= n)%nat ->
  lut_monitored G (lut_tally is_geocode)
    (fun _ => lut_io L G cfg burst h5 group items dec) t
    (lfor_in rest
       (geocode_lut_item L h5 group (scratch_directory op)
          (Multilooked (RadarGridOf burst) dec dec)
          (multilook_shape L (RadarGridOf burst) dec dec)
          (decimated g dec) (RasterAt (dem cfg))
          (raster_epsg (std L) (RasterAt (dem cfg)))))
    (fun _ t' => t' = (t + length rest)%nat)
    (fun e t' => lut_exn G cfg burst dec e /\ (t' <= n)%nat).
Proof.
  intros Hop Hg. induction rest as [|item rest IH]; intros t n Hin Hn;
    cbn [lfor_in].
  - apply lut_monitored_ret. simpl. lia.
  - eapply lut_monitored_bind.
    + apply (geocode_lut_item_observed cfg burst h5 group items dec op g item
               t n); [apply Hin; left | done | done | simpl in Hn; lia].
    + intros [] t' ->. eapply lut_monitored_weaken.
      * apply (IH (S t) n); [intros; apply Hin; by right | simpl in Hn; lia].
      * simpl. intros; lia.
      * done.
Qed.

Lemma geocode_luts_observed cfg burst h5 group items dec :
  lut_monitored G (lut_tally is_geocode)
    (fun _ => lut_io L G cfg burst h5 group items dec) 0%nat
    (geocode_luts L h5 burst cfg group items dec)
    (fun _ t' => t' = length items /\ dec <> 0 /\
                 is_Some (G !! burst_id burst) /\
                 is_Some (output_paths cfg !! id_date_of burst))
    (fun e t' => lut_exn G cfg burst dec e /\ (t' <= length items)%nat).
Proof.
  unfold geocode_luts.
  lut_walk ltac:(unfold lut_tally, id_date_of in *; simpl; try done;
                 try (split; [by eauto|lia]);
                 try (split; [naive_solver|lia]))
           ltac:(tally_norm).
  all: try (by eexists).
  eapply lut_monitored_weaken.
  - apply (geocode_lut_loop_observed cfg burst h5 group items dec p g items)
      with (n := length items); [done | done | done | simpl; lia].
  - simpl. intros _ t' ->. eauto.
  - done.
Qed.

End LutTheorems.

Lemma lut_count_none f evs :
  Forall (fun ev => f ev = false) evs -> lut_count f evs = 0%nat.
Proof.
  unfold lut_count. induction 1 as [|ev evs Hev _ IH]; [done|].
  rewrite filter_cons_False by (by rewrite Hev). done.
Qed.

Lemma decimated_covers (a dec : Z) :
  0 < dec -> (a / dec + 1 - 1) * dec <= a < (a / dec + 1) * dec.
Proof.
  intros Hdec. pose proof (Z.mul_div_le a dec Hdec).
  pose proof (Z.mul_succ_div_gt a dec Hdec). lia.
Qed.

(** X20.  What [geocode_luts] asks for, in any execution: the geocoding
    object is made only when [dec_factor] is not zero and the burst has
    its grid and its output paths; the grid given to it is the grid of
    the burst with the spacings multiplied by [dec_factor] and with
    [width // dec_factor + 1] by [length // dec_factor + 1] points; GDAL
    is asked for an ENVI raster of one float band, of the shape of the
    multilooked radar grid, under a path that is a tuple of the one
    string [<scratch>/<item>_radargrid.rdr]; that tuple is geocoded, on
    the multilooked radar grid and with the DEM of the configuration,
    into the dataset [<group>/<item>] of the product; the raster gets the
    geotransform of the thinned grid and the EPSG code of the DEM.  For a
    positive [dec_factor] the thinned grid, [dec_factor] points apart,
    reaches over the grid of the burst in both directions. *)
Theorem geocode_luts_requests (L : LutLibrary) (G : gmap string GeoGrid)
    (geo_burst_h5 : string) (burst : Burst) (cfg : RunConfig)
    (dst_group_path : string) (item_dict : list string) (dec_factor : Z)
    (h : list LutEvent) :
  let r := geocode_luts L geo_burst_h5 burst cfg dst_group_path item_dict
             dec_factor G h in
  Forall (lut_io L G cfg burst geo_burst_h5 dst_group_path item_dict
            dec_factor) (lut_events r) /\
  (forall i g' o,
     lut_events r !! i = Some (LutEv (GeoGridParameters g') o) ->
     0 < dec_factor ->
     exists g, G !! burst_id burst = Some g /\
       (width g' - 1) * dec_factor <= width g < width g' * dec_factor /\
       (grid_length g' - 1) * dec_factor <= grid_length g
         < grid_length g' * dec_factor).
Proof.
  intros r.
  destruct (geocode_luts_observed L G cfg burst geo_burst_h5 dst_group_path
              item_dict dec_factor h) as [Hev _]. fold r in Hev.
  assert (Hall : Forall (lut_io L G cfg burst geo_burst_h5 dst_group_path
                           item_dict dec_factor) (lut_events r)).
  { apply Forall_lookup. intros i ev Hi. by apply (Hev i). }
  split; [done|]. intros i g' o Hi Hdec.
  rewrite Forall_lookup in Hall. apply Hall in Hi as (g & Hg & _ & ->).
  exists g. split; [done|]. simpl. split; by apply decimated_covers.
Qed.

(** X21.  How [geocode_luts] ends.  It geocodes at most once per item, and
    exactly once per item when it returns; it returns only if
    [dec_factor] is not zero and the burst has its grid and its output
    paths.  What it raises, besides what the libraries raise, is a
    [KeyError] for the burst id when the grid is missing, a [KeyError]
    for the (burst id, date) pair when the output paths are missing, or a
    [ZeroDivisionError], for [dec_factor = 0] only.  With [dec_factor =
    0] it always raises, before the geocoding object is made. *)
Theorem geocode_luts_outcome (L : LutLibrary) (G : gmap string GeoGrid)
    (geo_burst_h5 : string) (burst : Burst) (cfg : RunConfig)
    (dst_group_path : string) (item_dict : list string) (dec_factor : Z)
    (h : list LutEvent) :
  let r := geocode_luts L geo_burst_h5 burst cfg dst_group_path item_dict
             dec_factor G h in
  (lut_count is_geocode (lut_events r) <= length item_dict)%nat /\
  (forall a, lut_result r = inr a ->
     lut_count is_geocode (lut_events r) = length item_dict /\
     dec_factor <> 0 /\ is_Some (G !! burst_id burst) /\
     is_Some (output_paths cfg !! id_date_of burst)) /\
  (forall e, lut_result r = inl e -> lut_exn G cfg burst dec_factor e) /\
  (dec_factor = 0 ->
   lut_count is_lut_geocode_init (lut_events r) = 0%nat /\
   exists e, lut_result r = inl e).
Proof.
  intros r.
  destruct (geocode_luts_observed L G cfg burst geo_burst_h5 dst_group_path
              item_dict dec_factor h) as [Hev Hend].
  fold r in Hev, Hend. rewrite lut_watch_tally in Hend. simpl in Hend.
  split; [|split; [|split]].
  - destruct (lut_result r); [by destruct Hend | destruct Hend as [-> _]; lia].
  - intros a Ha. by rewrite Ha in Hend.
  - intros e He. rewrite He in Hend. by destruct Hend.
  - intros Hz. split.
    + apply lut_count_none. apply Forall_lookup. intros i ev Hi.
      apply Hev in Hi. destruct ev as [[[]| | | | | | | | | | | | | | | | |] ?];
        simpl in *; try done. tauto.
    + destruct (lut_result r) as [e|a]; [by exists e|].
      by destruct Hend as (_ & Hne & _).
Qed.

Lemma lut_groups_apart (root a b : string) :
  (root +:+ "/metadata/calibration_information") +:+ "/" +:+ a <>
  (root +:+ "/metadata/noise_information") +:+ "/" +:+ b.
Proof.
  rewrite !string_app_assoc. intros H. apply (inj (String.app _)) in H.
  rewrite !string_app_cons in H. congruence.
Qed.

Lemma geocode_calibration_luts_some (L : LutLibrary) h5 burst c cfg dec :
  geocode_calibration_luts L h5 burst (Some c) cfg dec =
  geocode_luts L h5 burst cfg
    (ROOT_PATH L +:+ "/metadata/calibration_information")
    ["gamma"; "sigma_naught"; "dn"] dec.
Proof. reflexivity. Qed.

Lemma geocode_noise_luts_unfold (L : LutLibrary) h5 burst cfg dec :
  geocode_noise_luts L h5 burst cfg dec =
  geocode_luts L h5 burst cfg (ROOT_PATH L +:+ "/metadata/noise_information")
    ["thermal_noise_lut"] dec.
Proof. reflexivity. Qed.

(** X22.  [geocode_calibration_luts] geocodes, when it returns, three
    LUTs, into the datasets [gamma], [sigma_naught] and [dn] under
    [ROOT_PATH/metadata/calibration_information]; [geocode_noise_luts]
    geocodes, when it returns, one, into [thermal_noise_lut] under
    [ROOT_PATH/metadata/noise_information]; no dataset is written by
    both.  For a burst without calibration, [geocode_calibration_luts]
    raises [AttributeError] before any call is made. *)
Theorem calibration_and_noise_luts (L : LutLibrary) (G : gmap string GeoGrid)
    (geo_burst_h5 : string) (burst : Burst) (c : BurstCalibration)
    (cfg : RunConfig) (dec_factor : Z) (h h' : list LutEvent) :
  let cal := geocode_calibration_luts L geo_burst_h5 burst (Some c) cfg
               dec_factor G h in
  let noise := geocode_noise_luts L geo_burst_h5 burst cfg dec_factor G h' in
  let dataset group item :=
    OnDataset geo_burst_h5 ((ROOT_PATH L +:+ group) +:+ "/" +:+ item) in
  (forall a, lut_result cal = inr a ->
     lut_count is_geocode (lut_events cal) = 3%nat) /\
  (forall a, lut_result noise = inr a ->
     lut_count is_geocode (lut_events noise) = 1%nat) /\
  (forall r, r ∈ flat_map geocoded_into (lut_events cal) ->
     exists item, item ∈ ["gamma"; "sigma_naught"; "dn"] /\
                  r = dataset "/metadata/calibration_information" item) /\
  (forall r, r ∈ flat_map geocoded_into (lut_events noise) ->
     r = dataset "/metadata/noise_information" "thermal_noise_lut") /\
  (forall r, r ∈ flat_map geocoded_into (lut_events cal) ->
     r ∉ flat_map geocoded_into (lut_events noise)) /\
  geocode_calibration_luts L geo_burst_h5 burst None cfg dec_factor G h =
    mk_lut_run [] (inl (AttributeError
                          "'NoneType' object has no attribute 'gamma'")).
Proof.
  intros cal noise dataset. subst cal noise.
  rewrite geocode_calibration_luts_some, geocode_noise_luts_unfold.
  destruct (geocode_luts_observed L G cfg burst geo_burst_h5
              (ROOT_PATH L +:+ "/metadata/calibration_information")
              ["gamma"; "sigma_naught"; "dn"] dec_factor h) as [Hc Hcend].
  destruct (geocode_luts_observed L G cfg burst geo_burst_h5
              (ROOT_PATH L +:+ "/metadata/noise_information")
              ["thermal_noise_lut"] dec_factor h') as [Hn Hnend].
  rewrite lut_watch_tally in Hcend, Hnend.
  set (cal := geocode_luts L geo_burst_h5 burst cfg
                (ROOT_PATH L +:+ "/metadata/calibration_information")
                ["gamma"; "sigma_naught"; "dn"] dec_factor G h) in *.
  set (noise := geocode_luts L geo_burst_h5 burst cfg
                  (ROOT_PATH L +:+ "/metadata/noise_information")
                  ["thermal_noise_lut"] dec_factor G h') in *.
  assert (Hcal : forall r, r ∈ flat_map geocoded_into (lut_events cal) ->
            exists item, item ∈ ["gamma"; "sigma_naught"; "dn"] /\
                         r = dataset "/metadata/calibration_information" item).
  { intros r Hr. apply list_elem_of_In, in_flat_map in Hr as (ev & Hev & Hr).
    apply list_elem_of_In, list_elem_of_lookup in Hev as [i Hi].
    apply Hc in Hi. destruct ev as [[] ?]; simpl in Hr; try done.
    destruct Hr as [<- | []]. simpl in Hi.
    destruct Hi as (item & op & Hitem & _ & _ & _ & -> & _). eauto. }
  assert (Hnoise : forall r, r ∈ flat_map geocoded_into (lut_events noise) ->
            r = dataset "/metadata/noise_information" "thermal_noise_lut").
  { intros r Hr. apply list_elem_of_In, in_flat_map in Hr as (ev & Hev & Hr).
    apply list_elem_of_In, list_elem_of_lookup in Hev as [i Hi].
    apply Hn in Hi. destruct ev as [[] ?]; simpl in Hr; try done.
    destruct Hr as [<- | []]. simpl in Hi.
    destruct Hi as (item & op & Hitem & _ & _ & _ & -> & _).
    by apply list_elem_of_singleton in Hitem as ->. }
  split; [|split; [|split; [|split; [|split]]]].
  - intros a Ha. rewrite Ha in Hcend. by destruct Hcend.
  - intros a Ha. rewrite Ha in Hnend. by destruct Hnend.
  - exact Hcal.
  - exact Hnoise.
  - intros r Hr Hr'. destruct (Hcal r Hr) as (item & _ & ->).
    apply Hnoise in Hr'. unfold dataset in Hr'.
    injection Hr' as Hr'. by apply lut_groups_apart in Hr'.
  - reflexivity.
Qed.

Lemma calibration_and_noise_luts_witness :
  lut_count is_geocode
    (lut_events (geocode_calibration_luts sample_lut_library "t071.h5" burst_vv
                   (Some (mk_burst_calibration 1 2 3)) sample_cfg 40
                   (geogrids sample_state) [])) = 3%nat.
Proof.
  destruct (calibration_and_noise_luts sample_lut_library
              (geogrids sample_state) "t071.h5" burst_vv
              (mk_burst_calibration 1 2 3) sample_cfg 40 [] [])
    as (H & _).
  by apply (H tt).
Defined.
